(** * Sub-document commands of memcached: validators and executor

    A shallow embedding of [daemon/subdocument_validators.cc],
    [daemon/subdocument.cc] and [daemon/subdocument_context.h], together with
    the properties of the request validators, of document materialisation and
    of the fetch / operate / update / respond loop.

    Conventions.
    - Packet memory is a [list byte]; a read past the end of the list yields
      [x00].  Every statement quantifies over all lists, so over every content
      of the memory that follows the declared body.
    - Integers are [Z]; where the source computes in [uint32_t] the wrap-around
      is written out ([wrap32]).  [size_t] sums in the validators stay far
      below [2^32] and are plain [Z] sums.
    - Constants, enumerations and tables of headers that are not part of the
      sources ([protocol_binary.h], [subdocument_traits.h], [engine.h]) are
      fields of the class [Protocol]; nothing is assumed of them beyond what a
      C++ [switch] over them needs (distinct case labels). *)

From Stdlib Require Import ZArith List Bool Lia.
From Stdlib Require Import Strings.Byte.
Import ListNotations.

Local Open Scope Z_scope.

(** ** Bytes and wire integers *)

Module Wire.

Definition byte_val (b : byte) : Z := Z.of_N (Byte.to_N b).

Definition byte_of_Z (z : Z) : byte :=
  match Byte.of_N (Z.to_N (z mod 256)) with
  | Some b => b
  | None => Byte.x00
  end.

(** [*(uint8_t* )(p + i)] *)
Definition byte_at (p : list byte) (i : Z) : byte := nth (Z.to_nat i) p Byte.x00.

Definition u8 (p : list byte) (i : Z) : Z := byte_val (byte_at p i).

(** A 16/32/64-bit field read through [ntohs] / [ntohl] / [ntohll]: the
    big-endian value of the bytes, whatever the host. *)
Definition be16 (p : list byte) (i : Z) : Z := u8 p i * 256 + u8 p (i + 1).

Definition be32 (p : list byte) (i : Z) : Z :=
  ((u8 p i * 256 + u8 p (i + 1)) * 256 + u8 p (i + 2)) * 256 + u8 p (i + 3).

Definition be64 (p : list byte) (i : Z) : Z := be32 p i * 2 ^ 32 + be32 p (i + 4).

(** The same fields read on a little-endian host without conversion. *)
Definition le16 (p : list byte) (i : Z) : Z := u8 p i + 256 * u8 p (i + 1).

Definition le32 (p : list byte) (i : Z) : Z :=
  u8 p i + 256 * (u8 p (i + 1) + 256 * (u8 p (i + 2) + 256 * u8 p (i + 3))).

(** Big-endian encodings (what [htons] / [htonl] / [htonll] leave in memory). *)
Definition enc_be16 (v : Z) : list byte := [byte_of_Z (v / 256); byte_of_Z v].

Definition enc_be32 (v : Z) : list byte :=
  [byte_of_Z (v / 2 ^ 24); byte_of_Z (v / 2 ^ 16); byte_of_Z (v / 2 ^ 8); byte_of_Z v].

Definition enc_be64 (v : Z) : list byte := enc_be32 (v / 2 ^ 32) ++ enc_be32 v.

(** [len] bytes of memory from offset [off]. *)
Definition slice (p : list byte) (off len : Z) : list byte :=
  map (fun k => byte_at p (off + Z.of_nat k)) (seq 0 (Z.to_nat len)).

Definition wrap32 (z : Z) : Z := z mod 2 ^ 32.

Definition zlen {A : Type} (l : list A) : Z := Z.of_nat (length l).

End Wire.

Import Wire.

(** ** Protocol enumerations *)

(** The sub-document opcodes of [protocol_binary_command]. *)
Inductive protocol_binary_command : Type :=
| PROTOCOL_BINARY_CMD_SUBDOC_GET
| PROTOCOL_BINARY_CMD_SUBDOC_EXISTS
| PROTOCOL_BINARY_CMD_SUBDOC_DICT_ADD
| PROTOCOL_BINARY_CMD_SUBDOC_DICT_UPSERT
| PROTOCOL_BINARY_CMD_SUBDOC_DELETE
| PROTOCOL_BINARY_CMD_SUBDOC_REPLACE
| PROTOCOL_BINARY_CMD_SUBDOC_ARRAY_PUSH_LAST
| PROTOCOL_BINARY_CMD_SUBDOC_ARRAY_PUSH_FIRST
| PROTOCOL_BINARY_CMD_SUBDOC_ARRAY_INSERT
| PROTOCOL_BINARY_CMD_SUBDOC_ARRAY_ADD_UNIQUE
| PROTOCOL_BINARY_CMD_SUBDOC_COUNTER
| PROTOCOL_BINARY_CMD_SUBDOC_MULTI_LOOKUP
| PROTOCOL_BINARY_CMD_SUBDOC_MULTI_MUTATION.

Definition all_subdoc_commands : list protocol_binary_command :=
  [ PROTOCOL_BINARY_CMD_SUBDOC_GET; PROTOCOL_BINARY_CMD_SUBDOC_EXISTS;
    PROTOCOL_BINARY_CMD_SUBDOC_DICT_ADD; PROTOCOL_BINARY_CMD_SUBDOC_DICT_UPSERT;
    PROTOCOL_BINARY_CMD_SUBDOC_DELETE; PROTOCOL_BINARY_CMD_SUBDOC_REPLACE;
    PROTOCOL_BINARY_CMD_SUBDOC_ARRAY_PUSH_LAST;
    PROTOCOL_BINARY_CMD_SUBDOC_ARRAY_PUSH_FIRST;
    PROTOCOL_BINARY_CMD_SUBDOC_ARRAY_INSERT;
    PROTOCOL_BINARY_CMD_SUBDOC_ARRAY_ADD_UNIQUE;
    PROTOCOL_BINARY_CMD_SUBDOC_COUNTER;
    PROTOCOL_BINARY_CMD_SUBDOC_MULTI_LOOKUP;
    PROTOCOL_BINARY_CMD_SUBDOC_MULTI_MUTATION ].

(** [ENGINE_ERROR_CODE]: the codes the sub-document code names, and the rest. *)
Inductive ENGINE_ERROR_CODE : Type :=
| ENGINE_SUCCESS
| ENGINE_KEY_EEXISTS
| ENGINE_EWOULDBLOCK
| ENGINE_DISCONNECT
| ENGINE_TMPFAIL
| ENGINE_FAILED
| ENGINE_OTHER (code : Z).

(** [protocol_binary_response_status]: the statuses the sub-document code
    names, and the rest. *)
Inductive protocol_binary_response_status : Type :=
| PROTOCOL_BINARY_RESPONSE_SUCCESS
| PROTOCOL_BINARY_RESPONSE_KEY_EEXISTS
| PROTOCOL_BINARY_RESPONSE_E2BIG
| PROTOCOL_BINARY_RESPONSE_EINTERNAL
| PROTOCOL_BINARY_RESPONSE_ETMPFAIL
| PROTOCOL_BINARY_RESPONSE_SUBDOC_PATH_ENOENT
| PROTOCOL_BINARY_RESPONSE_SUBDOC_PATH_MISMATCH
| PROTOCOL_BINARY_RESPONSE_SUBDOC_PATH_EINVAL
| PROTOCOL_BINARY_RESPONSE_SUBDOC_PATH_E2BIG
| PROTOCOL_BINARY_RESPONSE_SUBDOC_DOC_E2DEEP
| PROTOCOL_BINARY_RESPONSE_SUBDOC_VALUE_CANTINSERT
| PROTOCOL_BINARY_RESPONSE_SUBDOC_DOC_NOTJSON
| PROTOCOL_BINARY_RESPONSE_SUBDOC_NUM_ERANGE
| PROTOCOL_BINARY_RESPONSE_SUBDOC_DELTA_ERANGE
| PROTOCOL_BINARY_RESPONSE_SUBDOC_PATH_EEXISTS
| PROTOCOL_BINARY_RESPONSE_SUBDOC_VALUE_ETOODEEP
| PROTOCOL_BINARY_RESPONSE_OTHER (code : Z).

(** The record [cmd_traits<Cmd2Type<CMD>>] of [subdocument_traits.h]. *)
Record cmd_traits : Type := {
  optype : Z;
  request_has_value : bool;
  allow_empty_path : bool;
  response_has_value : bool;
  valid_flags : Z;
  is_mutator : bool
}.

(** What the sub-document code takes from headers outside the sources.  The
    two laws are what the C++ compiler checks of the [switch] statements over
    these constants: case labels are pairwise distinct. *)
Class Protocol : Type := {
  PROTOCOL_BINARY_REQ : byte;
  PROTOCOL_BINARY_RAW_BYTES : byte;
  PROTOCOL_BINARY_DATATYPE_JSON : byte;
  PROTOCOL_BINARY_DATATYPE_COMPRESSED : byte;
  PROTOCOL_BINARY_DATATYPE_COMPRESSED_JSON : byte;
  cmd_opcode : protocol_binary_command -> byte;
  traits : protocol_binary_command -> cmd_traits;
  SUBDOC_FLAG_MKDIR_P : Z;
  Subdoc_Command_FLAG_MKDIR_P : Z;
  engine_error_2_protocol_error : ENGINE_ERROR_CODE -> protocol_binary_response_status;
  host_little_endian : bool;
  datatypes_distinct :
    NoDup [ PROTOCOL_BINARY_DATATYPE_JSON; PROTOCOL_BINARY_DATATYPE_COMPRESSED_JSON;
            PROTOCOL_BINARY_RAW_BYTES; PROTOCOL_BINARY_DATATYPE_COMPRESSED ];
  opcodes_distinct : NoDup (map cmd_opcode all_subdoc_commands)
}.

(** Modelled from the spec: [SUBDOC_PATH_MAX_LENGTH] and
    [PROTOCOL_BINARY_SUBDOC_MULTI_MAX_PATHS] are declared in
    [protocol_binary.h], which is not among the sources; the limits are
    "Path <= 1024 bytes. Multi specs <= 16." *)
Definition SUBDOC_PATH_MAX_LENGTH : Z := 1024.
Definition PROTOCOL_BINARY_SUBDOC_MULTI_MAX_PATHS : nat := 16.

(** Modelled from the spec: the packed wire structures of
    [protocol_binary.h].  Header: magic(u8) opcode(u8) keylen(u16) extlen(u8)
    datatype(u8) vbucket(u16) bodylen(u32) opaque(u32) cas(u64); sub-document
    extras: pathlen(u16) subdoc_flags(u8); multi-lookup spec: opcode(u8)
    flags(u8) pathlen(u16). *)
Module Layout.
Definition off_magic : Z := 0.
Definition off_opcode : Z := 1.
Definition off_keylen : Z := 2.
Definition off_extlen : Z := 4.
Definition off_datatype : Z := 5.
Definition off_vbucket : Z := 6.
Definition off_bodylen : Z := 8.
Definition off_opaque : Z := 12.
Definition off_cas : Z := 16.
Definition sizeof_header : Z := 24.
Definition off_extras_pathlen : Z := 24.
Definition off_extras_subdoc_flags : Z := 26.
Definition sizeof_subdoc_extras : Z := 3.
Definition spec_off_opcode : Z := 0.
Definition spec_off_flags : Z := 1.
Definition spec_off_pathlen : Z := 2.
Definition sizeof_multi_lookup_spec : Z := 4.
End Layout.

Import Layout.

(** ** The validators ([subdocument_validators.cc]) *)

Section Validators.

Context {P : Protocol}.

Definition byte_neq (a b : byte) : bool := negb (Byte.eqb a b).

(** [subdoc_validator<CMD>] *)
Definition subdoc_validator (CMD : protocol_binary_command) (packet : list byte) : Z :=
  let keylen := be16 packet off_keylen in
  let extlen := u8 packet off_extlen in
  let bodylen := be32 packet off_bodylen in
  let subdoc_flags := u8 packet off_extras_subdoc_flags in
  let pathlen := be16 packet off_extras_pathlen in
  let valuelen := wrap32 (bodylen - keylen - extlen - pathlen) in
  if byte_neq (byte_at packet off_magic) PROTOCOL_BINARY_REQ
     || (keylen =? 0)
     || negb (extlen =? 2 + 1)
     || (pathlen >? SUBDOC_PATH_MAX_LENGTH)
     || byte_neq (byte_at packet off_datatype) PROTOCOL_BINARY_RAW_BYTES
  then -1
  else if (if request_has_value (traits CMD)
           then valuelen =? 0
           else negb (valuelen =? 0))
  then -1
  else if negb (Z.land subdoc_flags (Z.lnot (valid_flags (traits CMD))) =? 0)
  then -1
  else if negb (allow_empty_path (traits CMD)) && (pathlen =? 0)
  then -1
  else 0.

(** A header field read without byte-order conversion. *)
Definition host16 (p : list byte) (i : Z) : Z :=
  if host_little_endian then le16 p i else be16 p i.

Definition host32 (p : list byte) (i : Z) : Z :=
  if host_little_endian then le32 p i else be32 p i.

(** One iteration of the loop of [subdoc_multi_lookup_validator] over the spec
    at [body_ptr + body_validated]: [None] is [return -1], [Some n] the new
    value of [body_validated]. *)
Definition check_lookup_spec (packet : list byte) (body_validated : Z) : option Z :=
  let spec := sizeof_header + body_validated in
  let opcode := byte_at packet (spec + spec_off_opcode) in
  let flags := u8 packet (spec + spec_off_flags) in
  let pathlen := be16 packet (spec + spec_off_pathlen) in
  if (byte_neq opcode (cmd_opcode PROTOCOL_BINARY_CMD_SUBDOC_GET)
      && byte_neq opcode (cmd_opcode PROTOCOL_BINARY_CMD_SUBDOC_EXISTS))
     || (pathlen =? 0)
     || (pathlen >? SUBDOC_PATH_MAX_LENGTH)
  then None
  else if Byte.eqb opcode (cmd_opcode PROTOCOL_BINARY_CMD_SUBDOC_GET)
  then
    if negb (Z.land flags
               (Z.lnot (valid_flags (traits PROTOCOL_BINARY_CMD_SUBDOC_GET))) =? 0)
    then None
    else Some (body_validated + (sizeof_multi_lookup_spec + pathlen))
  else if Byte.eqb opcode (cmd_opcode PROTOCOL_BINARY_CMD_SUBDOC_EXISTS)
  then
    if negb (Z.land flags
               (Z.lnot (valid_flags (traits PROTOCOL_BINARY_CMD_SUBDOC_EXISTS))) =? 0)
    then None
    else Some (body_validated + (sizeof_multi_lookup_spec + pathlen))
  else None.

(** The [for] loop: [remaining] is
    [PROTOCOL_BINARY_SUBDOC_MULTI_MAX_PATHS - path_index], so that
    [remaining = 0] is the failure of the guard [path_index < MAX_PATHS].
    [None] is [return -1] from the body, [Some (path_index, body_validated)]
    the state at loop exit. *)
Fixpoint lookup_specs_loop (remaining : nat) (packet : list byte) (bodylen : Z)
         (path_index : Z) (body_validated : Z) : option (Z * Z) :=
  match remaining with
  | O => Some (path_index, body_validated)
  | S remaining' =>
      if body_validated <? bodylen
      then match check_lookup_spec packet body_validated with
           | None => None
           | Some body_validated' =>
               lookup_specs_loop remaining' packet bodylen
                                 (path_index + 1) body_validated'
           end
      else Some (path_index, body_validated)
  end.

(** [subdoc_multi_lookup_validator] *)
Definition subdoc_multi_lookup_validator (packet : list byte) : Z :=
  let minimum_body_len := sizeof_multi_lookup_spec + 1 in
  if byte_neq (byte_at packet off_magic) PROTOCOL_BINARY_REQ
     || (host16 packet off_keylen =? 0)
     || negb (u8 packet off_extlen =? 0)
     || (host32 packet off_bodylen <? minimum_body_len)
     || byte_neq (byte_at packet off_datatype) PROTOCOL_BINARY_RAW_BYTES
  then -1
  else
    let keylen := be16 packet off_keylen in
    let bodylen := be32 packet off_bodylen in
    match lookup_specs_loop PROTOCOL_BINARY_SUBDOC_MULTI_MAX_PATHS packet bodylen
                            0 keylen with
    | None => -1
    | Some (path_index, body_validated) =>
        if (path_index >? 0)
           && (path_index <=? Z.of_nat PROTOCOL_BINARY_SUBDOC_MULTI_MAX_PATHS)
           && (body_validated =? bodylen)
        then 0
        else -1
    end.

End Validators.

(** ** The storage engine, the JSON library and the connection *)

(** An [item*]; [NULL] is the null pointer. *)
Definition item : Type := Z.
Definition NULL : Z := 0.

Inductive ENGINE_STORE_OPERATION : Type :=
| OPERATION_ADD
| OPERATION_SET
| OPERATION_REPLACE
| OPERATION_APPEND
| OPERATION_PREPEND
| OPERATION_CAS.

(** A buffer reference is its address together with the bytes it designates;
    its length is the length of those bytes. *)
Record iovec : Type := { iov_base : Z; iov_data : list byte }.

Definition iov_len (v : iovec) : Z := zlen (iov_data v).

Record item_info : Type := {
  info_cas : Z;
  info_datatype : byte;
  info_key : list byte;
  info_value : list iovec
}.

(** [item_info::nvalue]: the number of entries of [value] in use. *)
Definition info_nvalue (i : item_info) : Z := zlen (info_value i).

Definition null_iovec : iovec := {| iov_base := NULL; iov_data := [] |}.

(** [info.value[0]] *)
Definition info_value0 (i : item_info) : iovec := nth 0 (info_value i) null_iovec.

(** The functions of [ENGINE_HANDLE_V1] (signatures as in
    [engines/index_engine/index_engine.cc]) that the sub-document code calls,
    over an engine state [E].  [get_item_info] returning [false] is [None]. *)
Record ENGINE_HANDLE_V1 (E : Type) : Type := {
  get : E -> list byte -> Z -> ENGINE_ERROR_CODE * item * E;
  allocate : E -> list byte -> Z -> Z -> Z -> byte -> ENGINE_ERROR_CODE * item * E;
  store : E -> item -> ENGINE_STORE_OPERATION -> Z -> ENGINE_ERROR_CODE * Z * E;
  release : E -> item -> E;
  item_set_cas : E -> item -> Z -> E;
  get_item_info : E -> item -> option item_info;
  (** a [memcpy] into memory the engine handed out through an iovec *)
  memcpy : E -> Z -> list byte -> E
}.

Arguments get {E}.
Arguments allocate {E}.
Arguments store {E}.
Arguments release {E}.
Arguments item_set_cas {E}.
Arguments get_item_info {E}.
Arguments memcpy {E}.

(** What the executor did to the engine, in order. *)
Inductive engine_call : Type :=
| CallGet (key : list byte) (vbucket : Z) (ret : ENGINE_ERROR_CODE) (it : item)
| CallAllocate (key : list byte) (nbytes : Z) (flags exptime : Z) (datatype : byte)
               (ret : ENGINE_ERROR_CODE) (it : item)
| CallItemSetCas (it : item) (cas : Z)
| CallGetItemInfo (it : item) (ok : bool)
| CallMemcpy (dst : Z) (src : list byte)
| CallStore (it : item) (op : ENGINE_STORE_OPERATION) (vbucket : Z)
            (ret : ENGINE_ERROR_CODE) (cas : Z)
| CallRelease (it : item).

(** [Subdoc::Error] *)
Inductive Subdoc_Error : Type :=
| Subdoc_SUCCESS
| Subdoc_PATH_ENOENT
| Subdoc_PATH_MISMATCH
| Subdoc_DOC_ETOODEEP
| Subdoc_PATH_EINVAL
| Subdoc_DOC_EEXISTS
| Subdoc_PATH_E2BIG
| Subdoc_NUM_E2BIG
| Subdoc_DELTA_E2BIG
| Subdoc_VALUE_CANTINSERT
| Subdoc_VALUE_ETOODEEP
| Subdoc_OTHER (code : Z).

(** [Subdoc::Result]: a [Loc] is modelled by the bytes it designates. *)
Record Subdoc_Result : Type := {
  matchloc : list byte;
  newdoc : list (list byte)
}.

Definition empty_result : Subdoc_Result := {| matchloc := []; newdoc := [] |}.

(** [sized_buffer] / [const_sized_buffer] ([subdocument_context.h]) *)
Record sized_buffer : Type := { buf : Z; buf_data : list byte }.

Definition len (b : sized_buffer) : Z := zlen (buf_data b).

(** [SubdocCmdContext] *)
Record SubdocCmdContext : Type := {
  in_doc : sized_buffer;
  in_cas : Z;
  result : Subdoc_Result;
  out_doc : item
}.

(** The constructor [SubdocCmdContext(Connection* )]. *)
Definition new_SubdocCmdContext : SubdocCmdContext :=
  {| in_doc := {| buf := NULL; buf_data := [] |};
     in_cas := 0;
     result := empty_result;
     out_doc := NULL |}.

Inductive STATE_FUNC : Type :=
| conn_closing
| conn_mwrite
| conn_other (id : Z).

(** Modelled from the spec: the connection's dynamic buffer
    ([daemon/dynamic_buffer.h] is not among the sources), "a connection-scoped
    dynamic buffer": [db_data] are the bytes written so far, [db_offset] their
    number, [getCurrent] the address of the first free byte. *)
Record DynamicBuffer : Type := {
  db_buffer : Z;
  db_size : Z;
  db_offset : Z;
  db_data : list byte
}.

Definition getCurrent (d : DynamicBuffer) : Z := db_buffer d + db_offset d.

Definition moveOffset (d : DynamicBuffer) (n : Z) : DynamicBuffer :=
  {| db_buffer := db_buffer d; db_size := db_size d;
     db_offset := db_offset d + n; db_data := db_data d |}.

(** Bytes written at [getCurrent] (by the decompressor). *)
Definition writeCurrent (d : DynamicBuffer) (bytes : list byte) : DynamicBuffer :=
  {| db_buffer := db_buffer d; db_size := db_size d;
     db_offset := db_offset d;
     db_data := firstn (Z.to_nat (db_offset d)) (db_data d) ++ bytes |}.

(** The response header in [c->write.buf], as [add_bin_header] leaves it;
    [rsp_cas] are the eight bytes of the CAS field as they lie in memory. *)
Record response_header : Type := {
  rsp_status : Z;
  rsp_extlen : Z;
  rsp_keylen : Z;
  rsp_bodylen : Z;
  rsp_datatype : byte;
  rsp_cas : list byte
}.

(** The fields of [Connection] the sub-document code reads or writes.
    [responses] are the statuses handed to [write_bin_packet], [iov] the
    buffers handed to [add_iov], both in order; [msghdr_available] decides
    whether [add_bin_header] succeeds. *)
Record Connection : Type := {
  aiostat : ENGINE_ERROR_CODE;
  c_item : item;
  commandContext : option SubdocCmdContext;
  ewouldblock : bool;
  c_state : STATE_FUNC;
  c_cas : Z;
  dynamicBuffer : DynamicBuffer;
  write_buf : option response_header;
  iov : list (list byte);
  responses : list protocol_binary_response_status;
  msghdr_available : bool;
  cmd_set : Z;
  get_hits : Z;
  topkeys : list (list byte)
}.

Section ConnectionSetters.

Variable c : Connection.

Definition setAiostat (v : ENGINE_ERROR_CODE) : Connection :=
  {| aiostat := v; c_item := c_item c; commandContext := commandContext c;
     ewouldblock := ewouldblock c; c_state := c_state c; c_cas := c_cas c;
     dynamicBuffer := dynamicBuffer c; write_buf := write_buf c; iov := iov c;
     responses := responses c; msghdr_available := msghdr_available c;
     cmd_set := cmd_set c; get_hits := get_hits c; topkeys := topkeys c |}.

Definition set_item (v : item) : Connection :=
  {| aiostat := aiostat c; c_item := v; commandContext := commandContext c;
     ewouldblock := ewouldblock c; c_state := c_state c; c_cas := c_cas c;
     dynamicBuffer := dynamicBuffer c; write_buf := write_buf c; iov := iov c;
     responses := responses c; msghdr_available := msghdr_available c;
     cmd_set := cmd_set c; get_hits := get_hits c; topkeys := topkeys c |}.

Definition setCommandContext (v : option SubdocCmdContext) : Connection :=
  {| aiostat := aiostat c; c_item := c_item c; commandContext := v;
     ewouldblock := ewouldblock c; c_state := c_state c; c_cas := c_cas c;
     dynamicBuffer := dynamicBuffer c; write_buf := write_buf c; iov := iov c;
     responses := responses c; msghdr_available := msghdr_available c;
     cmd_set := cmd_set c; get_hits := get_hits c; topkeys := topkeys c |}.

Definition setEwouldblock (v : bool) : Connection :=
  {| aiostat := aiostat c; c_item := c_item c; commandContext := commandContext c;
     ewouldblock := v; c_state := c_state c; c_cas := c_cas c;
     dynamicBuffer := dynamicBuffer c; write_buf := write_buf c; iov := iov c;
     responses := responses c; msghdr_available := msghdr_available c;
     cmd_set := cmd_set c; get_hits := get_hits c; topkeys := topkeys c |}.

Definition setState (v : STATE_FUNC) : Connection :=
  {| aiostat := aiostat c; c_item := c_item c; commandContext := commandContext c;
     ewouldblock := ewouldblock c; c_state := v; c_cas := c_cas c;
     dynamicBuffer := dynamicBuffer c; write_buf := write_buf c; iov := iov c;
     responses := responses c; msghdr_available := msghdr_available c;
     cmd_set := cmd_set c; get_hits := get_hits c; topkeys := topkeys c |}.

Definition setCAS (v : Z) : Connection :=
  {| aiostat := aiostat c; c_item := c_item c; commandContext := commandContext c;
     ewouldblock := ewouldblock c; c_state := c_state c; c_cas := v;
     dynamicBuffer := dynamicBuffer c; write_buf := write_buf c; iov := iov c;
     responses := responses c; msghdr_available := msghdr_available c;
     cmd_set := cmd_set c; get_hits := get_hits c; topkeys := topkeys c |}.

Definition setDynamicBuffer (v : DynamicBuffer) : Connection :=
  {| aiostat := aiostat c; c_item := c_item c; commandContext := commandContext c;
     ewouldblock := ewouldblock c; c_state := c_state c; c_cas := c_cas c;
     dynamicBuffer := v; write_buf := write_buf c; iov := iov c;
     responses := responses c; msghdr_available := msghdr_available c;
     cmd_set := cmd_set c; get_hits := get_hits c; topkeys := topkeys c |}.

Definition set_write_buf (v : option response_header) : Connection :=
  {| aiostat := aiostat c; c_item := c_item c; commandContext := commandContext c;
     ewouldblock := ewouldblock c; c_state := c_state c; c_cas := c_cas c;
     dynamicBuffer := dynamicBuffer c; write_buf := v; iov := iov c;
     responses := responses c; msghdr_available := msghdr_available c;
     cmd_set := cmd_set c; get_hits := get_hits c; topkeys := topkeys c |}.

Definition set_iov (v : list (list byte)) : Connection :=
  {| aiostat := aiostat c; c_item := c_item c; commandContext := commandContext c;
     ewouldblock := ewouldblock c; c_state := c_state c; c_cas := c_cas c;
     dynamicBuffer := dynamicBuffer c; write_buf := write_buf c; iov := v;
     responses := responses c; msghdr_available := msghdr_available c;
     cmd_set := cmd_set c; get_hits := get_hits c; topkeys := topkeys c |}.

Definition set_responses (v : list protocol_binary_response_status) : Connection :=
  {| aiostat := aiostat c; c_item := c_item c; commandContext := commandContext c;
     ewouldblock := ewouldblock c; c_state := c_state c; c_cas := c_cas c;
     dynamicBuffer := dynamicBuffer c; write_buf := write_buf c; iov := iov c;
     responses := v; msghdr_available := msghdr_available c;
     cmd_set := cmd_set c; get_hits := get_hits c; topkeys := topkeys c |}.

Definition set_stats (s g : Z) (t : list (list byte)) : Connection :=
  {| aiostat := aiostat c; c_item := c_item c; commandContext := commandContext c;
     ewouldblock := ewouldblock c; c_state := c_state c; c_cas := c_cas c;
     dynamicBuffer := dynamicBuffer c; write_buf := write_buf c; iov := iov c;
     responses := responses c; msghdr_available := msghdr_available c;
     cmd_set := s; get_hits := g; topkeys := t |}.

End ConnectionSetters.

(** Modelled from the spec: [write_bin_packet] ([daemon/memcached.cc] is not
    among the sources) "forms a response without a body (status-only)"; the
    model records the status. *)
Definition write_bin_packet (c : Connection) (err : protocol_binary_response_status)
  : Connection :=
  set_responses c (responses c ++ [err]).

(** Modelled from the spec: [add_bin_header] ([daemon/memcached.cc] is not
    among the sources) "writes a header", here with the fields it is given,
    and returns -1 ([None]) when it cannot. *)
Definition add_bin_header (c : Connection) (err extlen keylen bodylen : Z)
           (datatype : byte) : option Connection :=
  if msghdr_available c
  then Some (set_write_buf c
               (Some {| rsp_status := err; rsp_extlen := extlen;
                        rsp_keylen := keylen; rsp_bodylen := bodylen;
                        rsp_datatype := datatype; rsp_cas := enc_be64 0 |}))
  else None.

(** Modelled from the spec: [add_iov] ([daemon/memcached.cc] is not among the
    sources): the response is "a header followed by extras/key/value iovecs". *)
Definition add_iov (c : Connection) (value : list byte) : Connection :=
  set_iov c (iov c ++ [value]).

(** [rsp->message.header.response.cas = v], the 64-bit store of a host value
    whose memory image is [bytes]. *)
Definition set_response_cas (c : Connection) (bytes : list byte) : Connection :=
  match write_buf c with
  | Some h =>
      set_write_buf c
        (Some {| rsp_status := rsp_status h; rsp_extlen := rsp_extlen h;
                 rsp_keylen := rsp_keylen h; rsp_bodylen := rsp_bodylen h;
                 rsp_datatype := rsp_datatype h; rsp_cas := bytes |})
  | None => c
  end.

(** ** The executor ([subdocument.cc]) *)

(** The connection, the engine behind it and the calls made to that engine. *)
Record World (E : Type) : Type := {
  conn : Connection;
  engine : E;
  calls : list engine_call
}.

Arguments conn {E}.
Arguments engine {E}.
Arguments calls {E}.

(** The request as [subdoc_executor] parses it out of the packet. *)
Record subdoc_request : Type := {
  req_key : list byte;
  req_path : list byte;
  req_value : list byte;
  req_flags : Z;
  req_vbucket : Z;
  req_cas : Z
}.

Definition parse_request (packet : list byte) : subdoc_request :=
  let extlen := u8 packet off_extlen in
  let keylen := be16 packet off_keylen in
  let bodylen := be32 packet off_bodylen in
  let pathlen := be16 packet off_extras_pathlen in
  let key := sizeof_header + extlen in
  let path := key + keylen in
  let value := path + pathlen in
  let vallen := wrap32 (bodylen - keylen - extlen - pathlen) in
  {| req_key := slice packet key keylen;
     req_path := slice packet path pathlen;
     req_value := slice packet value vallen;
     req_flags := u8 packet off_extras_subdoc_flags;
     req_vbucket := be16 packet off_vbucket;
     req_cas := be64 packet off_cas |}.

(** How one pass through the body of the [do ... while] loop ends. *)
Inductive attempt_end (E : Type) : Type :=
| Returned (w : World E)
| Continue (w : World E).

Arguments Returned {E}.
Arguments Continue {E}.

(** How [subdoc_executor] ends: it returns after [attempts] passes, or a
    [cb_assert] fails. *)
Inductive executor_end (E : Type) : Type :=
| Done (w : World E) (attempts : Z)
| Aborted.

Arguments Done {E}.
Arguments Aborted {E}.

(** The world an [attempt_end] carries. *)
Definition world_of_end {E : Type} (r : attempt_end E) : World E :=
  match r with
  | Returned w => w
  | Continue w => w
  end.

Definition MAXIMUM_ATTEMPTS : Z := 100.

Definition is_ENGINE_SUCCESS (r : ENGINE_ERROR_CODE) : bool :=
  match r with ENGINE_SUCCESS => true | _ => false end.

Definition is_ENGINE_KEY_EEXISTS (r : ENGINE_ERROR_CODE) : bool :=
  match r with ENGINE_KEY_EEXISTS => true | _ => false end.

Definition is_RESPONSE_SUCCESS (s : protocol_binary_response_status) : bool :=
  match s with PROTOCOL_BINARY_RESPONSE_SUCCESS => true | _ => false end.

Section Executor.

Context {P : Protocol}.

Variable E : Type.
Variable eng : ENGINE_HANDLE_V1 E.

(** [snappy_uncompressed_length] and [snappy_uncompress] of [snappy-c.h]:
    [None] is any result other than [SNAPPY_OK]; the second argument of
    [snappy_uncompress] is the room announced in [uncompressed_len]. *)
Variable snappy_uncompressed_length : list byte -> option Z.
Variable snappy_uncompress : list byte -> Z -> option (list byte).

(** [Connection::growDynamicBuffer]. *)
Variable growDynamicBuffer : DynamicBuffer -> Z -> bool * DynamicBuffer.

(** [Subdoc::Operation::op_exec] on a cleared operation with the given code,
    document, value (when one was set) and path. *)
Variable op_exec :
  Z -> list byte -> option (list byte) -> list byte -> Subdoc_Error * Subdoc_Result.

Let W : Type := World E.

Definition with_conn (w : W) (c : Connection) : W :=
  {| conn := c; engine := engine w; calls := calls w |}.

(** The engine in state [e] after the call [ev]. *)
Definition called (w : W) (e : E) (ev : engine_call) : W :=
  {| conn := conn w; engine := e; calls := calls w ++ [ev] |}.

Definition engine_get (w : W) (key : list byte) (vbucket : Z)
  : ENGINE_ERROR_CODE * item * W :=
  let '(r, it, e) := get eng (engine w) key vbucket in
  (r, it, called w e (CallGet key vbucket r it)).

Definition engine_allocate (w : W) (key : list byte) (nbytes flags exptime : Z)
           (datatype : byte) : ENGINE_ERROR_CODE * item * W :=
  let '(r, it, e) := allocate eng (engine w) key nbytes flags exptime datatype in
  (r, it, called w e (CallAllocate key nbytes flags exptime datatype r it)).

Definition engine_store (w : W) (it : item) (op : ENGINE_STORE_OPERATION)
           (vbucket : Z) : ENGINE_ERROR_CODE * Z * W :=
  let '(r, new_cas, e) := store eng (engine w) it op vbucket in
  (r, new_cas, called w e (CallStore it op vbucket r new_cas)).

Definition engine_release (w : W) (it : item) : W :=
  called w (release eng (engine w) it) (CallRelease it).

Definition engine_item_set_cas (w : W) (it : item) (cas : Z) : W :=
  called w (item_set_cas eng (engine w) it cas) (CallItemSetCas it cas).

Definition engine_get_item_info (w : W) (it : item) : option item_info * W :=
  let r := get_item_info eng (engine w) it in
  (r, called w (engine w)
             (CallGetItemInfo it (match r with Some _ => true | None => false end))).

Definition engine_memcpy (w : W) (dst : Z) (src : list byte) : W :=
  called w (memcpy eng (engine w) dst src) (CallMemcpy dst src).

(** The destructor [~SubdocCmdContext]. *)
Definition SubdocCmdContext_dtor (ctx : SubdocCmdContext) (w : W) : W :=
  if negb (out_doc ctx =? NULL)
  then engine_release w (out_doc ctx)
  else w.

(** Modelled from the spec: [Connection::resetCommandContext]
    ([daemon/connection.h] is not among the sources) "resets the command
    context"; the context object is destroyed. *)
Definition resetCommandContext (w : W) : W :=
  match commandContext (conn w) with
  | Some ctx =>
      let w1 := SubdocCmdContext_dtor ctx w in
      with_conn w1 (setCommandContext (conn w1) None)
  | None => w
  end.

(** Out-parameters of [get_document_for_searching] that the function did not
    assign are reported as [unassigned_document] and [0]; the caller reads
    them only after [PROTOCOL_BINARY_RESPONSE_SUCCESS]. *)
Definition unassigned_document : sized_buffer := {| buf := NULL; buf_data := [] |}.

(** [get_document_for_searching]: the status, the out-parameters [document]
    and [cas], and the world. *)
Definition get_document_for_searching (w : W) (it : item) (in_cas : Z)
  : protocol_binary_response_status * sized_buffer * Z * W :=
  let '(info, w) := engine_get_item_info w it in
  match info with
  | None => (PROTOCOL_BINARY_RESPONSE_EINTERNAL, unassigned_document, 0, w)
  | Some info =>
      if negb (info_nvalue info =? 1)
      then (PROTOCOL_BINARY_RESPONSE_EINTERNAL, unassigned_document, 0, w)
      else if negb (in_cas =? 0) && negb (in_cas =? info_cas info)
      then (PROTOCOL_BINARY_RESPONSE_KEY_EEXISTS, unassigned_document, 0, w)
      else
        let cas := info_cas info in
        let datatype := info_datatype info in
        if Byte.eqb datatype PROTOCOL_BINARY_DATATYPE_JSON
        then (PROTOCOL_BINARY_RESPONSE_SUCCESS,
              {| buf := iov_base (info_value0 info);
                 buf_data := iov_data (info_value0 info) |}, cas, w)
        else if Byte.eqb datatype PROTOCOL_BINARY_DATATYPE_COMPRESSED_JSON
        then
          let compressed_buf := iov_data (info_value0 info) in
          match snappy_uncompressed_length compressed_buf with
          | None => (PROTOCOL_BINARY_RESPONSE_EINTERNAL, unassigned_document, cas, w)
          | Some uncompressed_len =>
              let '(grown, dbuf) :=
                growDynamicBuffer (dynamicBuffer (conn w)) uncompressed_len in
              let w := with_conn w (setDynamicBuffer (conn w) dbuf) in
              if negb grown
              then (PROTOCOL_BINARY_RESPONSE_E2BIG, unassigned_document, cas, w)
              else
                let buffer := getCurrent dbuf in
                match snappy_uncompress compressed_buf uncompressed_len with
                | None =>
                    (PROTOCOL_BINARY_RESPONSE_EINTERNAL, unassigned_document, cas, w)
                | Some uncompressed =>
                    let dbuf := moveOffset (writeCurrent dbuf uncompressed)
                                           (zlen uncompressed) in
                    (PROTOCOL_BINARY_RESPONSE_SUCCESS,
                     {| buf := buffer; buf_data := uncompressed |}, cas,
                     with_conn w (setDynamicBuffer (conn w) dbuf))
                end
          end
        else if Byte.eqb datatype PROTOCOL_BINARY_RAW_BYTES
                || Byte.eqb datatype PROTOCOL_BINARY_DATATYPE_COMPRESSED
        then (PROTOCOL_BINARY_RESPONSE_SUBDOC_DOC_NOTJSON, unassigned_document, cas, w)
        else (PROTOCOL_BINARY_RESPONSE_EINTERNAL, unassigned_document, cas, w)
  end.

(** [subdoc_fetch]: [None] is a failed [cb_assert]. *)
Definition subdoc_fetch (w : W) (ret : ENGINE_ERROR_CODE) (key : list byte)
           (vbucket : Z) : option (bool * W) :=
  if c_item (conn w) =? NULL
  then
    let '(ret, initial_item, w) :=
      if is_ENGINE_SUCCESS ret
      then engine_get w key vbucket
      else (ret, NULL, w) in
    match ret with
    | ENGINE_SUCCESS =>
        let w := with_conn w (set_item (conn w) initial_item) in
        match commandContext (conn w) with
        | Some _ => None
        | None =>
            Some (true,
                  with_conn w (setCommandContext (conn w) (Some new_SubdocCmdContext)))
        end
    | ENGINE_EWOULDBLOCK => Some (false, with_conn w (setEwouldblock (conn w) true))
    | ENGINE_DISCONNECT => Some (false, with_conn w (setState (conn w) conn_closing))
    | _ =>
        Some (false,
              with_conn w (write_bin_packet (conn w) (engine_error_2_protocol_error ret)))
    end
  else Some (true, w).

(** The status [subdoc_operate] answers for each failure of the JSON library;
    [None] for [Subdoc::Error::SUCCESS]. *)
Definition subdoc_error_response (e : Subdoc_Error)
  : option protocol_binary_response_status :=
  match e with
  | Subdoc_SUCCESS => None
  | Subdoc_PATH_ENOENT => Some PROTOCOL_BINARY_RESPONSE_SUBDOC_PATH_ENOENT
  | Subdoc_PATH_MISMATCH => Some PROTOCOL_BINARY_RESPONSE_SUBDOC_PATH_MISMATCH
  | Subdoc_DOC_ETOODEEP => Some PROTOCOL_BINARY_RESPONSE_SUBDOC_DOC_E2DEEP
  | Subdoc_PATH_EINVAL => Some PROTOCOL_BINARY_RESPONSE_SUBDOC_PATH_EINVAL
  | Subdoc_DOC_EEXISTS => Some PROTOCOL_BINARY_RESPONSE_SUBDOC_PATH_EEXISTS
  | Subdoc_PATH_E2BIG => Some PROTOCOL_BINARY_RESPONSE_SUBDOC_PATH_E2BIG
  | Subdoc_NUM_E2BIG => Some PROTOCOL_BINARY_RESPONSE_SUBDOC_NUM_ERANGE
  | Subdoc_DELTA_E2BIG => Some PROTOCOL_BINARY_RESPONSE_SUBDOC_DELTA_ERANGE
  | Subdoc_VALUE_CANTINSERT => Some PROTOCOL_BINARY_RESPONSE_SUBDOC_VALUE_CANTINSERT
  | Subdoc_VALUE_ETOODEEP => Some PROTOCOL_BINARY_RESPONSE_SUBDOC_VALUE_ETOODEEP
  | Subdoc_OTHER _ => Some PROTOCOL_BINARY_RESPONSE_EINTERNAL
  end.

Definition set_result (ctx : SubdocCmdContext) (r : Subdoc_Result) : SubdocCmdContext :=
  {| in_doc := in_doc ctx; in_cas := in_cas ctx; result := r; out_doc := out_doc ctx |}.

Definition set_in_doc (ctx : SubdocCmdContext) (d : sized_buffer) (cas : Z)
  : SubdocCmdContext :=
  {| in_doc := d; in_cas := cas; result := result ctx; out_doc := out_doc ctx |}.

Definition set_out_doc (ctx : SubdocCmdContext) (it : item) : SubdocCmdContext :=
  {| in_doc := in_doc ctx; in_cas := in_cas ctx; result := result ctx; out_doc := it |}.

(** [subdoc_operate<CMD>]: [None] is a failed [cb_assert]. *)
Definition subdoc_operate (CMD : protocol_binary_command) (w : W)
           (path value : list byte) (flags : Z) (in_cas : Z) : option (bool * W) :=
  match commandContext (conn w) with
  | None => None
  | Some context =>
      if buf (in_doc context) =? NULL
      then
        let '(status, doc, doc_cas, w) :=
          get_document_for_searching w (c_item (conn w)) in_cas in
        if negb (is_RESPONSE_SUCCESS status)
        then Some (false, with_conn w (write_bin_packet (conn w) status))
        else
          let opcode := optype (traits CMD) in
          let opcode :=
            if Z.land flags SUBDOC_FLAG_MKDIR_P =? SUBDOC_FLAG_MKDIR_P
            then Z.lor opcode Subdoc_Command_FLAG_MKDIR_P
            else opcode in
          let '(subdoc_res, res) :=
            op_exec opcode (buf_data doc)
                    (if request_has_value (traits CMD) then Some value else None)
                    path in
          let context := set_result context res in
          match subdoc_error_response subdoc_res with
          | None =>
              Some (true,
                    with_conn w (setCommandContext (conn w)
                                   (Some (set_in_doc context doc doc_cas))))
          | Some status =>
              let w := with_conn w (setCommandContext (conn w) (Some context)) in
              Some (false, with_conn w (write_bin_packet (conn w) status))
          end
      else Some (true, w)
  end.

(** The two loops of [subdoc_update] over [context->result.newdoc()]. *)
Definition new_doc_length (frags : list (list byte)) : Z :=
  fold_left (fun new_doc_len loc => new_doc_len + zlen loc) frags 0.

Fixpoint copy_newdoc (w : W) (write_ptr : Z) (frags : list (list byte)) : W :=
  match frags with
  | [] => w
  | loc :: frags' =>
      copy_newdoc (engine_memcpy w write_ptr loc) (write_ptr + zlen loc) frags'
  end.

(** The block of [subdoc_update] guarded by [context->out_doc == NULL]:
    [inl] is a [return] from inside the block. *)
Definition subdoc_update_allocate (w : W) (context : SubdocCmdContext)
           (ret : ENGINE_ERROR_CODE) (key : list byte) (new_doc_len : Z)
  : (ENGINE_ERROR_CODE * W) + (SubdocCmdContext * W) :=
  let '(ret, new_doc, w) :=
    if is_ENGINE_SUCCESS ret
    then engine_allocate w key new_doc_len 0 0 PROTOCOL_BINARY_DATATYPE_JSON
    else (ret, NULL, w) in
  match ret with
  | ENGINE_SUCCESS =>
      let context := set_out_doc context new_doc in
      let w := with_conn w (setCommandContext (conn w) (Some context)) in
      let w := engine_item_set_cas w new_doc (in_cas context) in
      let '(new_doc_info, w) := engine_get_item_info w new_doc in
      match new_doc_info with
      | None =>
          inl (ENGINE_FAILED,
               with_conn w (write_bin_packet (conn w) PROTOCOL_BINARY_RESPONSE_EINTERNAL))
      | Some new_doc_info =>
          inr (context,
               copy_newdoc w (iov_base (info_value0 new_doc_info))
                           (newdoc (result context)))
      end
  | ENGINE_EWOULDBLOCK => inl (ret, with_conn w (setEwouldblock (conn w) true))
  | ENGINE_DISCONNECT => inl (ret, with_conn w (setState (conn w) conn_closing))
  | _ =>
      inl (ret, with_conn w (write_bin_packet (conn w) (engine_error_2_protocol_error ret)))
  end.

(** The tail of [subdoc_update]: "And finally, store the new document." *)
Definition subdoc_update_store (w : W) (context : SubdocCmdContext) (vbucket : Z)
  : ENGINE_ERROR_CODE * W :=
  let '(ret, new_cas, w) :=
    engine_store w (out_doc context) OPERATION_REPLACE vbucket in
  match ret with
  | ENGINE_SUCCESS => (ret, with_conn w (setCAS (conn w) new_cas))
  | ENGINE_KEY_EEXISTS => (ret, w)
  | ENGINE_EWOULDBLOCK => (ret, with_conn w (setEwouldblock (conn w) true))
  | ENGINE_DISCONNECT => (ret, with_conn w (setState (conn w) conn_closing))
  | _ =>
      (ret, with_conn w (write_bin_packet (conn w) (engine_error_2_protocol_error ret)))
  end.

(** [subdoc_update<CMD>]: [None] is a failed [cb_assert]. *)
Definition subdoc_update (CMD : protocol_binary_command) (w : W)
           (ret : ENGINE_ERROR_CODE) (key : list byte) (vbucket : Z)
  : option (ENGINE_ERROR_CODE * W) :=
  match commandContext (conn w) with
  | None => None
  | Some context =>
      if negb (is_mutator (traits CMD))
      then Some (ENGINE_SUCCESS, with_conn w (setCAS (conn w) (in_cas context)))
      else
        let new_doc_len := new_doc_length (newdoc (result context)) in
        if out_doc context =? NULL
        then
          match subdoc_update_allocate w context ret key new_doc_len with
          | inl r => Some r
          | inr (context, w) => Some (subdoc_update_store w context vbucket)
          end
        else Some (subdoc_update_store w context vbucket)
  end.

(** [subdoc_response<CMD>]: [None] is a failed [cb_assert]. *)
Definition subdoc_response (CMD : protocol_binary_command) (w : W) : option W :=
  match commandContext (conn w) with
  | None => None
  | Some context =>
      let '(value, vallen) :=
        if response_has_value (traits CMD)
        then (matchloc (result context), zlen (matchloc (result context)))
        else ([], 0) in
      match add_bin_header (conn w) 0 0 0 vallen PROTOCOL_BINARY_RAW_BYTES with
      | None => Some (with_conn w (setState (conn w) conn_closing))
      | Some c =>
          let c := set_response_cas c (enc_be64 (c_cas c)) in
          let c := if response_has_value (traits CMD) then add_iov c value else c in
          Some (with_conn w (setState c conn_mwrite))
      end
  end.

(** The statistics macros [SLAB_INCR(c, cmd_set, ...)], [STATS_HIT(c, get, ...)]
    and [update_topkeys]. *)
Definition update_stats (CMD : protocol_binary_command) (w : W) (key : list byte) : W :=
  let c := conn w in
  with_conn w
    (if is_mutator (traits CMD)
     then set_stats c (cmd_set c + 1) (get_hits c) (topkeys c ++ [key])
     else set_stats c (cmd_set c) (get_hits c + 1) (topkeys c ++ [key])).

(** The body of the [do ... while] loop of [subdoc_executor]. *)
Definition subdoc_attempt (CMD : protocol_binary_command) (rq : subdoc_request)
           (auto_retry : bool) (ret : ENGINE_ERROR_CODE) (w : W)
  : option (attempt_end E) :=
  match subdoc_fetch w ret (req_key rq) (req_vbucket rq) with
  | None => None
  | Some (false, w) => Some (Returned w)
  | Some (true, w) =>
      match subdoc_operate CMD w (req_path rq) (req_value rq) (req_flags rq)
                           (req_cas rq) with
      | None => None
      | Some (false, w) => Some (Returned w)
      | Some (true, w) =>
          match subdoc_update CMD w ret (req_key rq) (req_vbucket rq) with
          | None => None
          | Some (ret, w) =>
              if is_ENGINE_KEY_EEXISTS ret
              then
                if auto_retry
                then
                  let w :=
                    if negb (c_item (conn w) =? NULL)
                    then
                      let w := engine_release w (c_item (conn w)) in
                      with_conn w (set_item (conn w) NULL)
                    else w in
                  Some (Continue (resetCommandContext w))
                else
                  Some (Returned
                          (with_conn w
                             (write_bin_packet (conn w)
                                               (engine_error_2_protocol_error ret))))
              else if negb (is_ENGINE_SUCCESS ret)
              then Some (Returned w)
              else
                match subdoc_response CMD (update_stats CMD w (req_key rq)) with
                | None => None
                | Some w => Some (Returned w)
                end
          end
      end
  end.

(** After the loop: "Hit maximum attempts". *)
Definition subdoc_tmpfail (w : W) : W :=
  with_conn w (write_bin_packet (conn w) (engine_error_2_protocol_error ENGINE_TMPFAIL)).

(** The [do ... while (auto_retry && attempts < MAXIMUM_ATTEMPTS)] loop.
    [remaining] bounds the number of passes still to be made; with
    [remaining = MAXIMUM_ATTEMPTS - attempts] at entry the loop guard fails
    before [remaining] does (lemma [executor_loop_guard]). *)
Fixpoint executor_loop (CMD : protocol_binary_command) (rq : subdoc_request)
         (auto_retry : bool) (remaining : nat) (attempts : Z)
         (ret : ENGINE_ERROR_CODE) (w : W) : executor_end E :=
  match remaining with
  | O => Done (subdoc_tmpfail w) attempts
  | S remaining' =>
      let attempts := attempts + 1 in
      match subdoc_attempt CMD rq auto_retry ret w with
      | None => Aborted
      | Some (Returned w) => Done w attempts
      | Some (Continue w) =>
          if auto_retry && (attempts <? MAXIMUM_ATTEMPTS)
          then executor_loop CMD rq auto_retry remaining' attempts ENGINE_SUCCESS w
          else Done (subdoc_tmpfail w) attempts
      end
  end.

(** [subdoc_executor<CMD>] *)
Definition subdoc_executor (CMD : protocol_binary_command) (w : W)
           (packet : list byte) : executor_end E :=
  let rq := parse_request packet in
  let ret := aiostat (conn w) in
  let w := with_conn w (setAiostat (conn w) ENGINE_SUCCESS) in
  let auto_retry := req_cas rq =? 0 in
  executor_loop CMD rq auto_retry (Z.to_nat MAXIMUM_ATTEMPTS) 0 ret w.

(** Modelled from the spec: what the connection does with a finished command
    ([reset_cmd_handler] of [daemon/memcached.cc], not among the sources):
    "all acquired items are released on every exit path" - the held item is
    released and the command context destroyed, as the comment in
    [subdoc_operate] announces ("c->item and c->commandContext will both be
    freed for us as part of preparing for the next command"). *)
Definition reset_cmd_handler (w : W) : W :=
  let w :=
    if negb (c_item (conn w) =? NULL)
    then
      let w := engine_release w (c_item (conn w)) in
      with_conn w (set_item (conn w) NULL)
    else w in
  resetCommandContext w.

End Executor.

Arguments with_conn {E}.
Arguments called {E}.

(** ** Requests as a client encodes them *)

Section Encoders.

Context {P : Protocol}.

Definition encode_header (magic opcode : byte) (keylen extlen : Z) (datatype : byte)
           (vbucket bodylen opaque cas : Z) : list byte :=
  [magic; opcode] ++ enc_be16 keylen ++ [byte_of_Z extlen; datatype]
  ++ enc_be16 vbucket ++ enc_be32 bodylen ++ enc_be32 opaque ++ enc_be64 cas.

(** The fields of a request header a client is free to choose. *)
Record request_tags : Type := {
  tag_vbucket : Z;
  tag_opaque : Z;
  tag_cas : Z
}.

(** Modelled from the spec: the single-path request, body
    "extras || key || value" with extras "pathlen(u16) | subdoc_flags(u8)" and
    the value part made of the path followed by the operation's value (the
    layout [subdoc_executor] parses). *)
Definition encode_subdoc_request (CMD : protocol_binary_command) (t : request_tags)
           (key path value : list byte) (flags : byte) : list byte :=
  encode_header PROTOCOL_BINARY_REQ (cmd_opcode CMD) (zlen key)
                sizeof_subdoc_extras PROTOCOL_BINARY_RAW_BYTES (tag_vbucket t)
                (sizeof_subdoc_extras + zlen key + zlen path + zlen value)
                (tag_opaque t) (tag_cas t)
  ++ enc_be16 (zlen path) ++ [flags] ++ key ++ path ++ value.

(** One lookup spec of a multi-path request. *)
Record lookup_spec : Type := {
  spec_opcode : byte;
  spec_flags : byte;
  spec_path : list byte
}.

Definition encode_lookup_spec (s : lookup_spec) : list byte :=
  [spec_opcode s; spec_flags s] ++ enc_be16 (zlen (spec_path s)) ++ spec_path s.

Definition encode_lookup_specs (specs : list lookup_spec) : list byte :=
  concat (map encode_lookup_spec specs).

(** Modelled from the spec: [SubdocMultiLookupCmd::encode]
    ([utilities/subdoc_encoder.h] is not among the sources).  "Multi-lookup
    body: key || spec1 || spec2 || ... where each spec is opcode(u8) |
    flags(u8) | pathlen(u16) | path(pathlen)", with no extras. *)
Definition encode_multi_lookup (t : request_tags) (key : list byte)
           (specs : list lookup_spec) : list byte :=
  encode_header PROTOCOL_BINARY_REQ
                (cmd_opcode PROTOCOL_BINARY_CMD_SUBDOC_MULTI_LOOKUP) (zlen key) 0
                PROTOCOL_BINARY_RAW_BYTES (tag_vbucket t)
                (zlen key + zlen (encode_lookup_specs specs))
                (tag_opaque t) (tag_cas t)
  ++ key ++ encode_lookup_specs specs.

(** The flags of a spec are among those the traits of [cmd] allow. *)
Definition flags_allowed (cmd : protocol_binary_command) (flags : byte) : bool :=
  Z.land (byte_val flags) (Z.lnot (valid_flags (traits cmd))) =? 0.

(** A lookup spec as the rules for multi-path lookups want it: opcode GET or
    EXISTS, flags allowed by the traits of that opcode, path of 1 to 1024
    bytes. *)
Definition lookup_spec_ok (s : lookup_spec) : bool :=
  ((Byte.eqb (spec_opcode s) (cmd_opcode PROTOCOL_BINARY_CMD_SUBDOC_GET)
    && flags_allowed PROTOCOL_BINARY_CMD_SUBDOC_GET (spec_flags s))
   || (Byte.eqb (spec_opcode s) (cmd_opcode PROTOCOL_BINARY_CMD_SUBDOC_EXISTS)
       && flags_allowed PROTOCOL_BINARY_CMD_SUBDOC_EXISTS (spec_flags s)))
  && (1 <=? zlen (spec_path s)) && (zlen (spec_path s) <=? SUBDOC_PATH_MAX_LENGTH).

(** Key and specs whose lengths fit the fields that carry them. *)
Definition encodable (key : list byte) (specs : list lookup_spec) : Prop :=
  zlen key < 2 ^ 16
  /\ Forall (fun s => zlen (spec_path s) < 2 ^ 16) specs
  /\ zlen key + zlen (encode_lookup_specs specs) < 2 ^ 32.

End Encoders.

(** ** An instance: the constants of the memcached binary protocol *)

Module Mcbp.

Definition opcode_of (c : protocol_binary_command) : byte :=
  match c with
  | PROTOCOL_BINARY_CMD_SUBDOC_GET => Byte.xc5
  | PROTOCOL_BINARY_CMD_SUBDOC_EXISTS => Byte.xc6
  | PROTOCOL_BINARY_CMD_SUBDOC_DICT_ADD => Byte.xc7
  | PROTOCOL_BINARY_CMD_SUBDOC_DICT_UPSERT => Byte.xc8
  | PROTOCOL_BINARY_CMD_SUBDOC_DELETE => Byte.xc9
  | PROTOCOL_BINARY_CMD_SUBDOC_REPLACE => Byte.xca
  | PROTOCOL_BINARY_CMD_SUBDOC_ARRAY_PUSH_LAST => Byte.xcb
  | PROTOCOL_BINARY_CMD_SUBDOC_ARRAY_PUSH_FIRST => Byte.xcc
  | PROTOCOL_BINARY_CMD_SUBDOC_ARRAY_INSERT => Byte.xcd
  | PROTOCOL_BINARY_CMD_SUBDOC_ARRAY_ADD_UNIQUE => Byte.xce
  | PROTOCOL_BINARY_CMD_SUBDOC_COUNTER => Byte.xcf
  | PROTOCOL_BINARY_CMD_SUBDOC_MULTI_LOOKUP => Byte.xd0
  | PROTOCOL_BINARY_CMD_SUBDOC_MULTI_MUTATION => Byte.xd1
  end.

Definition MKDIR_P : Z := 1.

Definition mk_traits (op : Z) (req_val empty_path rsp_val : bool) (flags : Z)
           (mutator : bool) : cmd_traits :=
  {| optype := op; request_has_value := req_val; allow_empty_path := empty_path;
     response_has_value := rsp_val; valid_flags := flags; is_mutator := mutator |}.

Definition traits_of (c : protocol_binary_command) : cmd_traits :=
  match c with
  | PROTOCOL_BINARY_CMD_SUBDOC_GET => mk_traits 0 false false true 0 false
  | PROTOCOL_BINARY_CMD_SUBDOC_EXISTS => mk_traits 1 false false false 0 false
  | PROTOCOL_BINARY_CMD_SUBDOC_DICT_ADD => mk_traits 3 true false false MKDIR_P true
  | PROTOCOL_BINARY_CMD_SUBDOC_DICT_UPSERT => mk_traits 4 true false false MKDIR_P true
  | PROTOCOL_BINARY_CMD_SUBDOC_DELETE => mk_traits 9 false false false 0 true
  | PROTOCOL_BINARY_CMD_SUBDOC_REPLACE => mk_traits 2 true false false 0 true
  | PROTOCOL_BINARY_CMD_SUBDOC_ARRAY_PUSH_LAST => mk_traits 6 true true false MKDIR_P true
  | PROTOCOL_BINARY_CMD_SUBDOC_ARRAY_PUSH_FIRST => mk_traits 5 true true false MKDIR_P true
  | PROTOCOL_BINARY_CMD_SUBDOC_ARRAY_INSERT => mk_traits 8 true false false 0 true
  | PROTOCOL_BINARY_CMD_SUBDOC_ARRAY_ADD_UNIQUE => mk_traits 7 true true false MKDIR_P true
  | PROTOCOL_BINARY_CMD_SUBDOC_COUNTER => mk_traits 10 true false true MKDIR_P true
  | PROTOCOL_BINARY_CMD_SUBDOC_MULTI_LOOKUP => mk_traits 0 false false true 0 false
  | PROTOCOL_BINARY_CMD_SUBDOC_MULTI_MUTATION => mk_traits 0 true false false 0 true
  end.

Definition error_of (r : ENGINE_ERROR_CODE) : protocol_binary_response_status :=
  match r with
  | ENGINE_SUCCESS => PROTOCOL_BINARY_RESPONSE_SUCCESS
  | ENGINE_KEY_EEXISTS => PROTOCOL_BINARY_RESPONSE_KEY_EEXISTS
  | ENGINE_TMPFAIL => PROTOCOL_BINARY_RESPONSE_ETMPFAIL
  | ENGINE_EWOULDBLOCK | ENGINE_DISCONNECT | ENGINE_FAILED =>
      PROTOCOL_BINARY_RESPONSE_EINTERNAL
  | ENGINE_OTHER code => PROTOCOL_BINARY_RESPONSE_OTHER code
  end.

(** A decision procedure for [NoDup] on bytes that returns the proof. *)
Fixpoint NoDup_check (l : list byte) : option (NoDup l) :=
  match l with
  | [] => Some (NoDup_nil byte)
  | a :: l' =>
      match in_dec Byte.byte_eq_dec a l', NoDup_check l' with
      | right n, Some H => Some (NoDup_cons a n H)
      | _, _ => None
      end
  end.

Definition NoDup_checked (l : list byte)
  : match NoDup_check l with Some _ => NoDup l | None => True end :=
  match NoDup_check l as o return match o with Some _ => NoDup l | None => True end with
  | Some H => H
  | None => I
  end.

#[export] Instance protocol : Protocol := {|
  PROTOCOL_BINARY_REQ := Byte.x80;
  PROTOCOL_BINARY_RAW_BYTES := Byte.x00;
  PROTOCOL_BINARY_DATATYPE_JSON := Byte.x01;
  PROTOCOL_BINARY_DATATYPE_COMPRESSED := Byte.x02;
  PROTOCOL_BINARY_DATATYPE_COMPRESSED_JSON := Byte.x03;
  cmd_opcode := opcode_of;
  traits := traits_of;
  SUBDOC_FLAG_MKDIR_P := MKDIR_P;
  Subdoc_Command_FLAG_MKDIR_P := 128;
  engine_error_2_protocol_error := error_of;
  host_little_endian := true;
  datatypes_distinct := NoDup_checked [Byte.x01; Byte.x03; Byte.x00; Byte.x02];
  opcodes_distinct := NoDup_checked (map opcode_of all_subdoc_commands)
|}.

End Mcbp.

(** ** Reading the call log *)

(** [memcpy(dst, src, n)] on a buffer [data] that starts at address [base]. *)
Definition apply_memcpy (base : Z) (data : list byte) (dst : Z) (src : list byte)
  : list byte :=
  let off := Z.to_nat (dst - base) in
  firstn off data ++ src ++ skipn (off + length src) data.

(** The contents of a buffer at [base] after the copies of a call log. *)
Fixpoint replay_memcpy (base : Z) (data : list byte) (log : list engine_call)
  : list byte :=
  match log with
  | [] => data
  | CallMemcpy dst src :: log' => replay_memcpy base (apply_memcpy base data dst src) log'
  | _ :: log' => replay_memcpy base data log'
  end.

(** The calls that hand an item out, and the call that takes it back. *)
Definition acquires (it : item) (ev : engine_call) : bool :=
  match ev with
  | CallGet _ _ ENGINE_SUCCESS i => i =? it
  | CallAllocate _ _ _ _ _ ENGINE_SUCCESS i => i =? it
  | _ => false
  end.

Definition releases (it : item) (ev : engine_call) : bool :=
  match ev with
  | CallRelease i => i =? it
  | _ => false
  end.

Definition count_calls (f : engine_call -> bool) (log : list engine_call) : Z :=
  zlen (filter f log).

(** How many references to [it] are checked out of the engine after [log]. *)
Definition checked_out (log : list engine_call) (it : item) : Z :=
  count_calls (acquires it) log - count_calls (releases it) log.

(** How many references to [it] the connection holds: [c->item] and the
    [out_doc] of its command context. *)
Definition held (c : Connection) (it : item) : Z :=
  (if c_item c =? it then 1 else 0)
  + match commandContext c with
    | Some ctx => if out_doc ctx =? it then 1 else 0
    | None => 0
    end.

(** Every item checked out of the engine is held by the connection. *)
Definition items_owned {E : Type} (w : World E) : Prop :=
  forall it : item, it <> NULL -> checked_out (calls w) it = held (conn w) it.

(** The connection between two commands and at every re-entry of the
    executor: an item is held exactly when a command context exists. *)
Definition context_matches_item (c : Connection) : Prop :=
  c_item c = NULL <-> commandContext c = None.

Definition is_get (ev : engine_call) : bool :=
  match ev with CallGet _ _ _ _ => true | _ => false end.

Definition is_allocate (ev : engine_call) : bool :=
  match ev with CallAllocate _ _ _ _ _ _ _ => true | _ => false end.

Definition is_store (ev : engine_call) : bool :=
  match ev with CallStore _ _ _ _ _ => true | _ => false end.

Definition is_store_eexists (ev : engine_call) : bool :=
  match ev with CallStore _ _ _ ENGINE_KEY_EEXISTS _ => true | _ => false end.

Definition is_lookup_call (ev : engine_call) : bool :=
  match ev with
  | CallGet _ _ _ _ | CallGetItemInfo _ _ => true
  | _ => false
  end.

(** The calls made between the worlds [w] and [w']. *)
Definition new_calls {E : Type} (w w' : World E) : list engine_call :=
  skipn (length (calls w)) (calls w').

(** The copies [copy_newdoc] makes, from [write_ptr] on. *)
Fixpoint newdoc_copies (write_ptr : Z) (frags : list (list byte)) : list engine_call :=
  match frags with
  | [] => []
  | loc :: frags' => CallMemcpy write_ptr loc :: newdoc_copies (write_ptr + zlen loc) frags'
  end.

(** References checked out of the engine that the connection does not hold. *)
Definition balance {E : Type} (w : World E) (it : item) : Z :=
  checked_out (calls w) it - held (conn w) it.

(** A call log that ends with a [store] answered [ENGINE_KEY_EEXISTS]. *)
Definition ends_with_store_eexists (l : list engine_call) : Prop :=
  exists l0 it op vbucket cas,
    l = l0 ++ [CallStore it op vbucket ENGINE_KEY_EEXISTS cas].

(** What [subdoc_update] may ask of the engine for a document of [nbytes]
    bytes derived from the CAS [cas]: an allocation of that size with datatype
    JSON, that CAS for the new item, copies into it, and a [store] with
    [OPERATION_REPLACE]. *)
Definition update_call_ok {P : Protocol} (key : list byte) (nbytes cas vbucket : Z)
           (ev : engine_call) : Prop :=
  match ev with
  | CallAllocate k n flags exptime datatype _ _ =>
      k = key /\ n = nbytes /\ flags = 0 /\ exptime = 0
      /\ datatype = PROTOCOL_BINARY_DATATYPE_JSON
  | CallItemSetCas _ c => c = cas
  | CallStore _ op vb _ _ => op = OPERATION_REPLACE /\ vb = vbucket
  | CallGetItemInfo _ _ | CallMemcpy _ _ => True
  | CallGet _ _ _ _ | CallRelease _ => False
  end.

(** The sum of the lengths of the fragments. *)
Definition total_length (frags : list (list byte)) : Z :=
  fold_right Z.add 0 (map zlen frags).

(** ** A scripted engine for concrete runs *)

Module ScriptEngine.

(** The engine answers its n-th [get], [allocate] and [store] as scripted, and
    keeps the items it handed out. *)
Record state : Type := {
  on_get : nat -> ENGINE_ERROR_CODE * item;
  on_allocate : nat -> ENGINE_ERROR_CODE * item;
  on_store : nat -> ENGINE_ERROR_CODE * Z;
  gets : nat;
  allocates : nat;
  stores : nat;
  items : list (item * item_info);
  stored : list item
}.

Definition with_items (e : state) (l : list (item * item_info)) : state :=
  {| on_get := on_get e; on_allocate := on_allocate e; on_store := on_store e;
     gets := gets e; allocates := allocates e; stores := stores e;
     items := l; stored := stored e |}.

Fixpoint find_item (it : item) (l : list (item * item_info)) : option item_info :=
  match l with
  | [] => None
  | (i, info) :: l' => if i =? it then Some info else find_item it l'
  end.

(** The address of the value of an allocated item. *)
Definition value_base (it : item) : Z := it * 65536.

Definition script_get (e : state) (key : list byte) (vbucket : Z)
  : ENGINE_ERROR_CODE * item * state :=
  (on_get e (gets e),
   {| on_get := on_get e; on_allocate := on_allocate e; on_store := on_store e;
      gets := S (gets e); allocates := allocates e; stores := stores e;
      items := items e; stored := stored e |}).

Definition script_allocate (e : state) (key : list byte) (nbytes flags exptime : Z)
           (datatype : byte) : ENGINE_ERROR_CODE * item * state :=
  let '(r, it) := on_allocate e (allocates e) in
  (r, it,
   {| on_get := on_get e; on_allocate := on_allocate e; on_store := on_store e;
      gets := gets e; allocates := S (allocates e); stores := stores e;
      items :=
        if is_ENGINE_SUCCESS r
        then (it, {| info_cas := 0; info_datatype := datatype; info_key := key;
                     info_value := [ {| iov_base := value_base it;
                                        iov_data := repeat Byte.x00 (Z.to_nat nbytes) |} ]
                  |}) :: items e
        else items e;
      stored := stored e |}).

Definition script_store (e : state) (it : item) (op : ENGINE_STORE_OPERATION)
           (vbucket : Z) : ENGINE_ERROR_CODE * Z * state :=
  let '(r, cas) := on_store e (stores e) in
  (r, cas,
   {| on_get := on_get e; on_allocate := on_allocate e; on_store := on_store e;
      gets := gets e; allocates := allocates e; stores := S (stores e);
      items := items e;
      stored := if is_ENGINE_SUCCESS r then it :: stored e else stored e |}).

Definition script_release (e : state) (it : item) : state := e.

Definition script_item_set_cas (e : state) (it : item) (cas : Z) : state :=
  with_items e
    (map (fun p : item * item_info =>
            if fst p =? it
            then (fst p, {| info_cas := cas; info_datatype := info_datatype (snd p);
                            info_key := info_key (snd p);
                            info_value := info_value (snd p) |})
            else p)
         (items e)).

Definition script_get_item_info (e : state) (it : item) : option item_info :=
  find_item it (items e).

Definition poke (dst : Z) (src : list byte) (v : iovec) : iovec :=
  if (iov_base v <=? dst) && (dst + zlen src <=? iov_base v + iov_len v)
  then {| iov_base := iov_base v;
          iov_data := apply_memcpy (iov_base v) (iov_data v) dst src |}
  else v.

Definition script_memcpy (e : state) (dst : Z) (src : list byte) : state :=
  with_items e
    (map (fun p : item * item_info =>
            (fst p, {| info_cas := info_cas (snd p);
                       info_datatype := info_datatype (snd p);
                       info_key := info_key (snd p);
                       info_value := map (poke dst src) (info_value (snd p)) |}))
         (items e)).

Definition handle : ENGINE_HANDLE_V1 state :=
  {| get := script_get;
     allocate := script_allocate;
     store := script_store;
     release := script_release;
     item_set_cas := script_item_set_cas;
     get_item_info := script_get_item_info;
     memcpy := script_memcpy |}.

End ScriptEngine.

(** ** Concrete inputs *)

Module Examples.

Import ScriptEngine.

Definition tags : request_tags := {| tag_vbucket := 0; tag_opaque := 0; tag_cas := 0 |}.

Definition tags_cas (cas : Z) : request_tags :=
  {| tag_vbucket := 0; tag_opaque := 0; tag_cas := cas |}.

(** The bytes of ["k"], ["[0]"], ["a"], ["1"] and of the document [{"a":1}]. *)
Definition key_k : list byte := [Byte.x6b].
Definition path_0 : list byte := [Byte.x5b; Byte.x30; Byte.x5d].
Definition path_a : list byte := [Byte.x61].
Definition value_1 : list byte := [Byte.x31].
Definition doc_a1 : list byte :=
  [Byte.x7b; Byte.x22; Byte.x61; Byte.x22; Byte.x3a; Byte.x31; Byte.x7d].

Definition spec_of (cmd : protocol_binary_command) (flags : byte) (path : list byte)
  : lookup_spec :=
  {| spec_opcode := Mcbp.opcode_of cmd; spec_flags := flags; spec_path := path |}.

Definition exists_0 : lookup_spec :=
  spec_of PROTOCOL_BINARY_CMD_SUBDOC_EXISTS Byte.x00 path_0.

Definition add_unique_0 : lookup_spec :=
  spec_of PROTOCOL_BINARY_CMD_SUBDOC_ARRAY_ADD_UNIQUE Byte.x00 path_0.

(** A DICT_ADD request whose declared body (5 bytes: extras, a key of one byte
    and one more byte) is shorter than key, extras and the declared path of
    1000 bytes. *)
Definition short_body_packet : list byte :=
  encode_header Byte.x80
                (Mcbp.opcode_of PROTOCOL_BINARY_CMD_SUBDOC_DICT_ADD)
                1 3 Byte.x00 0 5 0 0
  ++ enc_be16 1000 ++ [Byte.x00] ++ key_k ++ [Byte.x70].

(** The stored document as an item: one iovec, or split over two. *)
Definition doc_info (cas : Z) (datatype : byte) (value : list iovec) : item_info :=
  {| info_cas := cas; info_datatype := datatype; info_key := key_k;
     info_value := value |}.

Definition one_segment : list iovec := [ {| iov_base := 4096; iov_data := doc_a1 |} ].

Definition two_segments : list iovec :=
  [ {| iov_base := 4096; iov_data := firstn 3 doc_a1 |};
    {| iov_base := 8192; iov_data := skipn 3 doc_a1 |} ].

(** The engine that hands out item 1 on every [get], item 2 on every
    [allocate], and answers every [store] with [store_answer]. *)
Definition engine_with (info : item_info) (store_answer : ENGINE_ERROR_CODE * Z)
  : state :=
  {| on_get := fun _ => (ENGINE_SUCCESS, 1);
     on_allocate := fun _ => (ENGINE_SUCCESS, 2);
     on_store := fun _ => store_answer;
     gets := 0; allocates := 0; stores := 0;
     items := [(1, info)]; stored := [] |}.

Definition empty_buffer : DynamicBuffer :=
  {| db_buffer := 1048576; db_size := 0; db_offset := 0; db_data := [] |}.

(** A connection between two commands. *)
Definition idle_connection : Connection :=
  {| aiostat := ENGINE_SUCCESS; c_item := NULL; commandContext := None;
     ewouldblock := false; c_state := conn_other 0; c_cas := 0;
     dynamicBuffer := empty_buffer; write_buf := None; iov := [];
     responses := []; msghdr_available := true;
     cmd_set := 0; get_hits := 0; topkeys := [] |}.

Definition world_of (e : state) : World state :=
  {| conn := idle_connection; engine := e; calls := [] |}.

(** Stand-ins for the libraries: a decompressor that copies, a buffer that
    always grows, a JSON operation that finds the whole document and builds
    the new one from the old one followed by the value. *)
Definition copy_uncompressed_length (b : list byte) : option Z := Some (zlen b).

Definition copy_uncompress (b : list byte) (room : Z) : option (list byte) :=
  if zlen b <=? room then Some b else None.

Definition grow_always (d : DynamicBuffer) (needed : Z) : bool * DynamicBuffer :=
  (true,
   {| db_buffer := db_buffer d; db_size := Z.max (db_size d) (db_offset d + needed);
      db_offset := db_offset d; db_data := db_data d |}).

Definition append_op (code : Z) (doc : list byte) (value : option (list byte))
           (path : list byte) : Subdoc_Error * Subdoc_Result :=
  (Subdoc_SUCCESS,
   {| matchloc := doc;
      newdoc := [doc; match value with Some v => v | None => [] end] |}).

(** A JSON operation that does not find the path. *)
Definition enoent_op (code : Z) (doc : list byte) (value : option (list byte))
           (path : list byte) : Subdoc_Error * Subdoc_Result :=
  (Subdoc_PATH_ENOENT, empty_result).

(** The connection after [subdoc_fetch] has put item 1 into [c->item]. *)
Definition fetched_world (info : item_info) : World state :=
  {| conn := setCommandContext (set_item idle_connection 1) (Some new_SubdocCmdContext);
     engine := engine_with info (ENGINE_SUCCESS, 8);
     calls := [CallGet key_k 0 ENGINE_SUCCESS 1] |}.

Definition run (CMD : protocol_binary_command) (w : World state) (packet : list byte)
  : executor_end state :=
  subdoc_executor (P := Mcbp.protocol) state handle copy_uncompressed_length
                  copy_uncompress grow_always append_op CMD w packet.

Definition materialize (w : World state) (it : item) (in_cas : Z)
  : protocol_binary_response_status * sized_buffer * Z * World state :=
  get_document_for_searching (P := Mcbp.protocol) state handle
                             copy_uncompressed_length copy_uncompress grow_always
                             w it in_cas.

(** The connection after a DICT_ADD has fetched item 1 (CAS 7) and operated
    on it: the new document is the old one followed by the value, and no
    output item has been allocated yet. *)
Definition operated_context : SubdocCmdContext :=
  {| in_doc := {| buf := 4096; buf_data := doc_a1 |};
     in_cas := 7;
     result := {| matchloc := doc_a1; newdoc := [doc_a1; value_1] |};
     out_doc := NULL |}.

Definition operated_world (store_answer : ENGINE_ERROR_CODE * Z) : World state :=
  {| conn := setCommandContext (set_item idle_connection 1) (Some operated_context);
     engine := engine_with (doc_info 7 Byte.x01 one_segment) store_answer;
     calls := [] |}.

Definition dict_add_request (cas : Z) : list byte :=
  encode_subdoc_request (P := Mcbp.protocol) PROTOCOL_BINARY_CMD_SUBDOC_DICT_ADD
                        (tags_cas cas) key_k path_a value_1 Byte.x00.

Definition get_request (cas : Z) : list byte :=
  encode_subdoc_request (P := Mcbp.protocol) PROTOCOL_BINARY_CMD_SUBDOC_GET
                        (tags_cas cas) key_k path_a [] Byte.x00.

End Examples.

(** ** The same protocol on a host of the other byte order *)

Definition with_host_order (P : Protocol) (little : bool) : Protocol :=
  {| PROTOCOL_BINARY_REQ := @PROTOCOL_BINARY_REQ P;
     PROTOCOL_BINARY_RAW_BYTES := @PROTOCOL_BINARY_RAW_BYTES P;
     PROTOCOL_BINARY_DATATYPE_JSON := @PROTOCOL_BINARY_DATATYPE_JSON P;
     PROTOCOL_BINARY_DATATYPE_COMPRESSED := @PROTOCOL_BINARY_DATATYPE_COMPRESSED P;
     PROTOCOL_BINARY_DATATYPE_COMPRESSED_JSON :=
       @PROTOCOL_BINARY_DATATYPE_COMPRESSED_JSON P;
     cmd_opcode := @cmd_opcode P;
     traits := @traits P;
     SUBDOC_FLAG_MKDIR_P := @SUBDOC_FLAG_MKDIR_P P;
     Subdoc_Command_FLAG_MKDIR_P := @Subdoc_Command_FLAG_MKDIR_P P;
     engine_error_2_protocol_error := @engine_error_2_protocol_error P;
     host_little_endian := little;
     datatypes_distinct := @datatypes_distinct P;
     opcodes_distinct := @opcodes_distinct P |}.

(** ** How a command ends, as the client and the statistics see it *)

(** Between [c] and [c'] no answer was written and no statistic counted. *)
Definition unanswered (c c' : Connection) : Prop :=
  responses c' = responses c
  /\ write_buf c' = write_buf c
  /\ iov c' = iov c
  /\ cmd_set c' = cmd_set c
  /\ get_hits c' = get_hits c
  /\ topkeys c' = topkeys c.

(** Nothing of that, and the command neither suspended nor the state of the
    connection changed: what a step that lets the command go on does. *)
Definition quiet (c c' : Connection) : Prop :=
  unanswered c c'
  /\ ewouldblock c' = ewouldblock c
  /\ c_state c' = c_state c.

(** The ways in which a run of [subdoc_executor] can end. *)
Inductive ending : Type :=
| EndStatus (s : protocol_binary_response_status)
| EndSuspended
| EndClosing
| EndHeader (h : response_header)
| EndNoHeader.

Section CommandEnd.

Context {P : Protocol}.

(** The statistics of [subdoc_executor] counted once for [key]: [cmd_set] for
    a mutator, a [get] hit otherwise, and the key among the top keys. *)
Definition counted (CMD : protocol_binary_command) (key : list byte)
           (c c' : Connection) : Prop :=
  topkeys c' = topkeys c ++ [key]
  /\ cmd_set c' = cmd_set c + (if is_mutator (traits CMD) then 1 else 0)
  /\ get_hits c' = get_hits c + (if is_mutator (traits CMD) then 0 else 1).

(** A run of [subdoc_executor] for [key], entered with the connection [c],
    leaves it as [c'] in the way [e]:
    - [EndStatus s]: the status-only answer [s] was written
      ([write_bin_packet]), nothing else;
    - [EndSuspended]: no answer, [ewouldblock] set;
    - [EndClosing]: no answer, the connection set to [conn_closing];
    - [EndHeader h]: the response header [h] (and the value when the traits
      say so) was added, the state is [conn_mwrite], the statistics counted;
    - [EndNoHeader]: the header could not be added, the state is
      [conn_closing], the statistics counted. *)
Definition ends_as (CMD : protocol_binary_command) (key : list byte)
           (c c' : Connection) (e : ending) : Prop :=
  match e with
  | EndStatus s =>
      responses c' = responses c ++ [s]
      /\ write_buf c' = write_buf c /\ iov c' = iov c
      /\ cmd_set c' = cmd_set c /\ get_hits c' = get_hits c
      /\ topkeys c' = topkeys c
  | EndSuspended =>
      unanswered c c' /\ ewouldblock c' = true /\ c_state c' = c_state c
  | EndClosing =>
      unanswered c c' /\ c_state c' = conn_closing
      /\ ewouldblock c' = ewouldblock c
  | EndHeader h =>
      responses c' = responses c
      /\ write_buf c' = Some h
      /\ rsp_status h = 0
      /\ length (iov c') = (length (iov c)
                            + if response_has_value (traits CMD) then 1 else 0)%nat
      /\ c_state c' = conn_mwrite
      /\ counted CMD key c c'
  | EndNoHeader =>
      responses c' = responses c
      /\ write_buf c' = write_buf c /\ iov c' = iov c
      /\ c_state c' = conn_closing
      /\ counted CMD key c c'
  end.

(** The run ends in one of the ways. *)
Definition command_end (CMD : protocol_binary_command) (key : list byte)
           (c c' : Connection) : Prop :=
  exists e : ending, ends_as CMD key c c' e.

End CommandEnd.

(** The engine after the copies of [copy_newdoc]. *)
Fixpoint memcpy_newdoc {E : Type} (eng : ENGINE_HANDLE_V1 E) (e : E) (write_ptr : Z)
         (frags : list (list byte)) : E :=
  match frags with
  | [] => e
  | loc :: frags' =>
      memcpy_newdoc eng (memcpy eng e write_ptr loc) (write_ptr + zlen loc) frags'
  end.

(** The code [subdoc_operate] hands to the JSON library: the operation of the
    command, with [FLAG_MKDIR_P] when the request asks for it. *)
Definition operation_code {P : Protocol} (CMD : protocol_binary_command) (flags : Z) : Z :=
  if Z.land flags SUBDOC_FLAG_MKDIR_P =? SUBDOC_FLAG_MKDIR_P
  then Z.lor (optype (traits CMD)) Subdoc_Command_FLAG_MKDIR_P
  else optype (traits CMD).

(** ** A scripted engine whose [allocate] always grants item 2 *)

Module GrantingEngine.

Import ScriptEngine.

Definition granting (e : state) : state :=
  {| on_get := on_get e; on_allocate := fun _ => (ENGINE_SUCCESS, 2);
     on_store := on_store e;
     gets := gets e; allocates := allocates e; stores := stores e;
     items := items e; stored := stored e |}.

Definition handle : ENGINE_HANDLE_V1 state :=
  {| get := script_get;
     allocate := fun e key nbytes flags exptime datatype =>
                   script_allocate (granting e) key nbytes flags exptime datatype;
     store := script_store;
     release := script_release;
     item_set_cas := script_item_set_cas;
     get_item_info := script_get_item_info;
     memcpy := script_memcpy |}.

Definition run (CMD : protocol_binary_command) (w : World state) (packet : list byte)
  : executor_end state :=
  subdoc_executor (P := Mcbp.protocol) state handle Examples.copy_uncompressed_length
                  Examples.copy_uncompress Examples.grow_always Examples.append_op
                  CMD w packet.

End GrantingEngine.

(** ** More concrete inputs *)

Module MoreExamples.

Import ScriptEngine Examples.

(** A DICT_ADD suspended in [store]: item 1 fetched, the document operated
    on, item 2 allocated and filled. *)
Definition suspended_context : SubdocCmdContext :=
  {| in_doc := {| buf := 4096; buf_data := doc_a1 |};
     in_cas := 7;
     result := {| matchloc := doc_a1; newdoc := [doc_a1; value_1] |};
     out_doc := 2 |}.

Definition suspended_world : World state :=
  {| conn := setCommandContext (set_item idle_connection 1) (Some suspended_context);
     engine := engine_with (doc_info 7 Byte.x01 one_segment) (ENGINE_SUCCESS, 9);
     calls := [] |}.

End MoreExamples.

(** * Top keys ([topkeys.cc])

    [TopKeys] keeps, in 8 shards, the most recently used keys: a table
    [hash] from key to [topkey_item_t] and a list [list] of pointers to the
    keys of the table, most recently used first.  A pointer into the table is
    modelled by the key it points to: two nodes of the table never hold the
    same key, so that comparing pointers ([std::find]) is comparing keys.

    Results are [option]s: [None] stands for a failed [cb_assert] and for
    behaviour the C++ standard leaves undefined ([list.back()] of an empty
    list, [splice] of the end iterator, overflow of the [int] counter,
    [hash.at] of a missing key, which throws outside any handler).
    [std::bad_alloc] is an input: the booleans [emplace_ok] and [push_ok] say
    whether the allocation of [hash.emplace] and [list.push_front]
    succeeds. *)

Module TopKeys.

Definition key_eqb (a b : list byte) : bool :=
  (length a =? length b)%nat && forallb (fun p => Byte.eqb (fst p) (snd p)) (combine a b).

(** [topkey_item_t], with the two fields [topkeys.cc] reads. *)
Record topkey_item_t : Type := {
  ti_ctime : Z;
  ti_access_count : Z
}.

Definition INT_MAX : Z := 2147483647.

(** [TopKeys::Shard] *)
Record Shard : Type := {
  max_keys : Z;
  hash : list (list byte * topkey_item_t);
  list_ : list (list byte)
}.

(** [hash.find] / [hash.at] *)
Fixpoint hash_at (h : list (list byte * topkey_item_t)) (key : list byte)
  : option topkey_item_t :=
  match h with
  | [] => None
  | (k, it) :: h' => if key_eqb k key then Some it else hash_at h' key
  end.

(** [hash.erase(key)]: the table without [key], and the number of elements
    removed. *)
Definition hash_erase (h : list (list byte * topkey_item_t)) (key : list byte)
  : list (list byte * topkey_item_t) * Z :=
  (filter (fun p => negb (key_eqb (fst p) key)) h,
   zlen (filter (fun p => key_eqb (fst p) key) h)).

(** [it->second = v] for the element of [key]. *)
Fixpoint hash_set (h : list (list byte * topkey_item_t)) (key : list byte)
         (v : topkey_item_t) : list (list byte * topkey_item_t) :=
  match h with
  | [] => []
  | (k, it) :: h' =>
      if key_eqb k key then (k, v) :: h' else (k, it) :: hash_set h' key v
  end.

(** [list.splice(list.begin(), list, it)] for the first [it] whose key is
    [key]: [None] when [std::find] returns [list.end()]. *)
Fixpoint list_remove_first (l : list (list byte)) (key : list byte)
  : option (list (list byte)) :=
  match l with
  | [] => None
  | k :: l' =>
      if key_eqb k key then Some l'
      else match list_remove_first l' key with
           | Some r => Some (k :: r)
           | None => None
           end
  end.

Section Shards.

(** The constructor [topkey_item_t(rel_time_t)] is declared in [topkeys.h],
    which is not among the sources. *)
Variable new_item : Z -> topkey_item_t.

(** [result.first->second.ti_access_count++; return true;] *)
Definition count_access (s : Shard) (key : list byte) : option (bool * Shard) :=
  match hash_at (hash s) key with
  | None => None
  | Some it =>
      if ti_access_count it =? INT_MAX
      then None
      else
        Some (true,
              {| max_keys := max_keys s;
                 hash := hash_set (hash s) key
                                  {| ti_ctime := ti_ctime it;
                                     ti_access_count := ti_access_count it + 1 |};
                 list_ := list_ s |})
  end.

(** [TopKeys::Shard::updateKey].  An allocation that fails in building the
    pair or in [hash.emplace] leaves the shard as it was ([emplace] has no
    effect when it throws); one that fails in [list.push_front] comes after
    the insertion into the table and after the eviction. *)
Definition Shard_updateKey (emplace_ok push_ok : bool) (s : Shard) (key : list byte)
           (ct : Z) : option (bool * Shard) :=
  if negb emplace_ok then Some (false, s)
  else
    match hash_at (hash s) key with
    | None =>
        (* New item was inserted. *)
        let h := hash s ++ [(key, new_item ct)] in
        let evicted :=
          if zlen h >? max_keys s
          then
            match rev (list_ s) with
            | [] => None
            | victim :: rest =>
                let '(h', erased) := hash_erase h victim in
                if erased =? 1 then Some (h', rev rest) else None
            end
          else Some (h, list_ s) in
        match evicted with
        | None => None
        | Some (h, l) =>
            if negb push_ok
            then Some (false, {| max_keys := max_keys s; hash := h; list_ := l |})
            else count_access {| max_keys := max_keys s; hash := h; list_ := key :: l |}
                              key
        end
    | Some _ =>
        (* Item already exists. *)
        match list_remove_first (list_ s) key with
        | None => None
        | Some l =>
            count_access {| max_keys := max_keys s; hash := hash s; list_ := key :: l |}
                         key
        end
    end.

(** [TopKeys::Shard::accept_visitor] with a visitor that adds to a context. *)
Fixpoint visit_keys {C : Type} (visitor_func : list byte -> topkey_item_t -> C -> C)
         (h : list (list byte * topkey_item_t)) (l : list (list byte)) (ctx : C)
  : option C :=
  match l with
  | [] => Some ctx
  | key :: l' =>
      match hash_at h key with
      | None => None
      | Some it => visit_keys visitor_func h l' (visitor_func key it ctx)
      end
  end.

Definition Shard_accept_visitor {C : Type}
           (visitor_func : list byte -> topkey_item_t -> C -> C) (s : Shard) (ctx : C)
  : option C :=
  visit_keys visitor_func (hash s) (list_ s) ctx.

(** [TopKeys]: the shards, [NUM_SHARDS == 8] of them. *)
Definition NUM_SHARDS : nat := 8.

(** [std::hash<std::string>] *)
Variable hash_fn : list byte -> Z.

(** The index of [TopKeys::getShard]: [hash_fn(key) & 0x7]. *)
Definition getShard (key : list byte) : nat := Z.to_nat (Z.land (hash_fn key) 7).

(** [shards[i] = s] *)
Fixpoint set_shard (shards : list Shard) (i : nat) (s : Shard) : list Shard :=
  match shards, i with
  | [], _ => []
  | _ :: rest, O => s :: rest
  | s0 :: rest, S i' => s0 :: set_shard rest i' s
  end.

(** [TopKeys::updateKey]: the result of the shard is dropped. *)
Definition TopKeys_updateKey (emplace_ok push_ok : bool) (shards : list Shard)
           (key : list byte) (operation_time : Z) : option (list Shard) :=
  if negb (zlen key >? 0) then None
  else
    match nth_error shards (getShard key) with
    | None => None
    | Some s =>
        match Shard_updateKey emplace_ok push_ok s key operation_time with
        | None => None
        | Some (_, s') => Some (set_shard shards (getShard key) s')
        end
    end.

(** [TopKeys::TopKeys(int mkeys)] *)
Definition TopKeys_new (mkeys : Z) : list Shard :=
  repeat {| max_keys := mkeys; hash := []; list_ := [] |} NUM_SHARDS.

End Shards.

(** The table and the list of a shard agree, and the shard is not over its
    limit. *)
Definition shard_ok (s : Shard) : Prop :=
  NoDup (map fst (hash s))
  /\ NoDup (list_ s)
  /\ (forall key, In key (list_ s) <-> In key (map fst (hash s)))
  /\ zlen (hash s) <= max_keys s.

(** Eight shards in order, each holding only keys that [getShard] sends to
    it. *)
Definition shards_ok (hash_fn : list byte -> Z) (shards : list Shard) : Prop :=
  length shards = NUM_SHARDS
  /\ forall (i : nat) (s : Shard),
      nth_error shards i = Some s ->
      shard_ok s /\ 1 <= max_keys s
      /\ forall key, In key (list_ s) -> getShard hash_fn key = i.

End TopKeys.

(** Stand-ins for what [topkeys.h] and the C++ library declare: an item
    constructor that starts the count at 0, and a hash of strings. *)
Module TopKeysExamples.

Import TopKeys.

Definition fresh_item (ct : Z) : topkey_item_t :=
  {| ti_ctime := ct; ti_access_count := 0 |}.

Definition length_hash (key : list byte) : Z := zlen key.

(** A shard of at most two keys that tracks ["k"] and ["a"], ["k"] being the
    more recently used. *)
Definition two_keys : Shard :=
  {| max_keys := 2;
     hash := [(Examples.path_a, {| ti_ctime := 10; ti_access_count := 3 |});
              (Examples.key_k, {| ti_ctime := 20; ti_access_count := 1 |})];
     list_ := [Examples.key_k; Examples.path_a] |}.

Definition empty_shard : Shard := {| max_keys := 2; hash := []; list_ := [] |}.

End TopKeysExamples.

(** ** An engine that keeps values in chunks *)

Module ChunkedEngine.

(** The engine keeps the value of an item in chunks of at most [chunk_size]
    bytes, each chunk in a page of its own, and [get_item_info] gives one
    entry of [item_info::value] per chunk (the callers ask for up to
    [IOV_MAX] of them).  Memory is flat: a [memcpy] writes the addresses it
    is given, whatever lies there. *)
Record chunked_item : Type := {
  ci_cas : Z;
  ci_datatype : byte;
  ci_key : list byte;
  ci_chunks : list (Z * Z)
}.

Record state : Type := {
  chunk_size : Z;
  (** the bytes written so far, the latest first; every other byte is 0 *)
  memory : list (Z * byte);
  items : list (item * chunked_item);
  next_cas : Z;
  (** the items linked by [store], each with the value it had then *)
  stored : list (item * list byte)
}.

Definition peek (m : list (Z * byte)) (a : Z) : byte :=
  match find (fun p : Z * byte => fst p =? a) m with
  | Some p => snd p
  | None => Byte.x00
  end.

Definition read (m : list (Z * byte)) (base n : Z) : list byte :=
  map (fun i => peek m (base + Z.of_nat i)) (seq 0 (Z.to_nat n)).

Definition write (m : list (Z * byte)) (dst : Z) (src : list byte) : list (Z * byte) :=
  combine (map (fun i => dst + Z.of_nat i) (seq 0 (length src))) src ++ m.

Definition page : Z := 4096.

(** The chunks of a value of [nbytes] bytes that starts at [base]: (address,
    length), in order. *)
Fixpoint chunks (fuel : nat) (size base nbytes : Z) : list (Z * Z) :=
  match fuel with
  | O => [(base, nbytes)]
  | S fuel' =>
      if nbytes <=? size
      then [(base, nbytes)]
      else (base, size) :: chunks fuel' size (base + page) (nbytes - size)
  end.

Fixpoint find_item (it : item) (l : list (item * chunked_item)) : option chunked_item :=
  match l with
  | [] => None
  | (i, ci) :: l' => if i =? it then Some ci else find_item it l'
  end.

Definition info_of (m : list (Z * byte)) (ci : chunked_item) : item_info :=
  {| info_cas := ci_cas ci;
     info_datatype := ci_datatype ci;
     info_key := ci_key ci;
     info_value := map (fun c : Z * Z =>
                          {| iov_base := fst c; iov_data := read m (fst c) (snd c) |})
                       (ci_chunks ci) |}.

Definition chunked_get_item_info (e : state) (it : item) : option item_info :=
  match find_item it (items e) with
  | Some ci => Some (info_of (memory e) ci)
  | None => None
  end.

(** The value of an item: its chunks one after the other. *)
Definition item_value (e : state) (it : item) : list byte :=
  match chunked_get_item_info e it with
  | Some info => concat (map iov_data (info_value info))
  | None => []
  end.

(** The address of the first chunk of an allocated item. *)
Definition value_base (it : item) : Z := it * 65536.

(** Every [get] finds item 1. *)
Definition chunked_get (e : state) (key : list byte) (vbucket : Z)
  : ENGINE_ERROR_CODE * item * state :=
  (ENGINE_SUCCESS, 1, e).

(** Every [allocate] grants item 2, of [nbytes] bytes. *)
Definition chunked_allocate (e : state) (key : list byte) (nbytes flags exptime : Z)
           (datatype : byte) : ENGINE_ERROR_CODE * item * state :=
  (ENGINE_SUCCESS, 2,
   {| chunk_size := chunk_size e;
      memory := memory e;
      items := (2, {| ci_cas := 0; ci_datatype := datatype; ci_key := key;
                      ci_chunks := chunks (Z.to_nat nbytes) (chunk_size e)
                                          (value_base 2) nbytes |})
               :: items e;
      next_cas := next_cas e;
      stored := stored e |}).

(** Every [store] links the item as it is and gives it the next CAS. *)
Definition chunked_store (e : state) (it : item) (op : ENGINE_STORE_OPERATION)
           (vbucket : Z) : ENGINE_ERROR_CODE * Z * state :=
  (ENGINE_SUCCESS, next_cas e,
   {| chunk_size := chunk_size e;
      memory := memory e;
      items := items e;
      next_cas := next_cas e + 1;
      stored := (it, item_value e it) :: stored e |}).

Definition chunked_release (e : state) (it : item) : state := e.

Definition chunked_item_set_cas (e : state) (it : item) (cas : Z) : state :=
  {| chunk_size := chunk_size e;
     memory := memory e;
     items := map (fun p : item * chunked_item =>
                     if fst p =? it
                     then (fst p, {| ci_cas := cas; ci_datatype := ci_datatype (snd p);
                                     ci_key := ci_key (snd p);
                                     ci_chunks := ci_chunks (snd p) |})
                     else p)
                  (items e);
     next_cas := next_cas e;
     stored := stored e |}.

Definition chunked_memcpy (e : state) (dst : Z) (src : list byte) : state :=
  {| chunk_size := chunk_size e;
     memory := write (memory e) dst src;
     items := items e;
     next_cas := next_cas e;
     stored := stored e |}.

Definition handle : ENGINE_HANDLE_V1 state :=
  {| get := chunked_get;
     allocate := chunked_allocate;
     store := chunked_store;
     release := chunked_release;
     item_set_cas := chunked_item_set_cas;
     get_item_info := chunked_get_item_info;
     memcpy := chunked_memcpy |}.

(** The engine with chunks of [size] bytes that holds, as item 1 with CAS 7,
    the JSON document [{"a":1}] (7 bytes) for the key ["k"]. *)
Definition holding_doc (size : Z) : state :=
  {| chunk_size := size;
     memory := write [] 4096 Examples.doc_a1;
     items := [(1, {| ci_cas := 7; ci_datatype := Byte.x01;
                      ci_key := Examples.key_k;
                      ci_chunks := chunks 7 size 4096 7 |})];
     next_cas := 8;
     stored := [] |}.

Definition world (size : Z) : World state :=
  {| conn := Examples.idle_connection; engine := holding_doc size; calls := [] |}.

Definition run (CMD : protocol_binary_command) (w : World state) (packet : list byte)
  : executor_end state :=
  subdoc_executor (P := Mcbp.protocol) state handle Examples.copy_uncompressed_length
                  Examples.copy_uncompress Examples.grow_always Examples.append_op
                  CMD w packet.

End ChunkedEngine.

(** * Properties *)

(** ** Bytes *)

Lemma byte_val_range (b : byte) : 0 <= byte_val b <= 255.
Proof.
  unfold byte_val. pose proof (Byte.to_N_bounded b). lia.
Qed.

Lemma byte_val_of_Z (z : Z) : byte_val (byte_of_Z z) = z mod 256.
Proof.
  unfold byte_val, byte_of_Z.
  assert (Hz : 0 <= z mod 256 < 256) by (apply Z.mod_pos_bound; lia).
  destruct (Byte.of_N (Z.to_N (z mod 256))) as [b|] eqn:Hb.
  - apply Byte.to_of_N in Hb. rewrite Hb. lia.
  - apply Byte.of_N_None_iff in Hb. lia.
Qed.

Lemma byte_of_Z_val (b : byte) : byte_of_Z (byte_val b) = b.
Proof.
  unfold byte_of_Z, byte_val.
  pose proof (Byte.to_N_bounded b) as Hb.
  rewrite Z.mod_small by lia.
  rewrite N2Z.id, Byte.of_to_N. reflexivity.
Qed.

Lemma byte_val_inj (a b : byte) : byte_val a = byte_val b -> a = b.
Proof.
  intros H. rewrite <- (byte_of_Z_val a), <- (byte_of_Z_val b), H. reflexivity.
Qed.

Lemma byte_eqb_refl (a : byte) : Byte.eqb a a = true.
Proof. apply Byte.byte_dec_lb. reflexivity. Qed.

Lemma byte_eqb_eq (a b : byte) : Byte.eqb a b = true <-> a = b.
Proof.
  split; [apply Byte.byte_dec_bl | apply Byte.byte_dec_lb].
Qed.

Lemma byte_eqb_neq (a b : byte) : Byte.eqb a b = false <-> a <> b.
Proof.
  split.
  - apply Byte.eqb_false.
  - intros H. destruct (Byte.eqb a b) eqn:Heq; [|reflexivity].
    apply byte_eqb_eq in Heq. contradiction.
Qed.

Lemma zlen_nonneg {A : Type} (l : list A) : 0 <= zlen l.
Proof. unfold zlen. lia. Qed.

Lemma zlen_app {A : Type} (l l' : list A) : zlen (l ++ l') = zlen l + zlen l'.
Proof. unfold zlen. rewrite length_app. lia. Qed.

Lemma zlen_cons {A : Type} (a : A) (l : list A) : zlen (a :: l) = 1 + zlen l.
Proof. unfold zlen. simpl length. lia. Qed.

Lemma zlen_nil {A : Type} : zlen (@nil A) = 0.
Proof. reflexivity. Qed.

(** ** Reads *)

Lemma byte_at_0_cons (a : byte) (l : list byte) : byte_at (a :: l) 0 = a.
Proof. reflexivity. Qed.

Lemma byte_at_app_r (pre l : list byte) (i : Z) :
  0 <= i -> byte_at (pre ++ l) (zlen pre + i) = byte_at l i.
Proof.
  intros Hi. unfold byte_at, zlen.
  rewrite Z2Nat.inj_add, Nat2Z.id by lia.
  rewrite app_nth2 by lia. f_equal. lia.
Qed.

Lemma byte_at_app_l (pre l : list byte) (i : Z) :
  0 <= i < zlen pre -> byte_at (pre ++ l) i = byte_at pre i.
Proof.
  intros Hi. unfold byte_at, zlen in *.
  apply app_nth1. lia.
Qed.

Lemma u8_range (p : list byte) (i : Z) : 0 <= u8 p i <= 255.
Proof. apply byte_val_range. Qed.

Lemma be16_range (p : list byte) (i : Z) : 0 <= be16 p i < 2 ^ 16.
Proof.
  unfold be16. pose proof (u8_range p i). pose proof (u8_range p (i + 1)).
  change (2 ^ 16) with 65536. lia.
Qed.

Lemma be32_range (p : list byte) (i : Z) : 0 <= be32 p i < 2 ^ 32.
Proof.
  unfold be32.
  pose proof (u8_range p i). pose proof (u8_range p (i + 1)).
  pose proof (u8_range p (i + 2)). pose proof (u8_range p (i + 3)).
  change (2 ^ 32) with 4294967296. lia.
Qed.

Lemma be16_app_r (pre l : list byte) (i : Z) :
  0 <= i -> be16 (pre ++ l) (zlen pre + i) = be16 l i.
Proof.
  intros Hi. unfold be16, u8.
  rewrite <- Z.add_assoc, !byte_at_app_r by lia. reflexivity.
Qed.

Lemma be16_enc (v : Z) (rest : list byte) :
  0 <= v < 2 ^ 16 -> be16 (enc_be16 v ++ rest) 0 = v.
Proof.
  intros Hv. unfold be16, u8, enc_be16, byte_at.
  simpl (nth _ _ _).
  rewrite !byte_val_of_Z.
  change (Z.pow_pos 2 24) with 16777216.
  change (Z.pow_pos 2 16) with 65536.
  change (Z.pow_pos 2 8) with 256.
  change (2 ^ 16) with 65536 in Hv.
  rewrite (Z.mod_small (v / 256)) by (split; [apply Z.div_pos; lia | apply Z.div_lt_upper_bound; lia]).
  pose proof (Z.div_mod v 256 ltac:(lia)). lia.
Qed.

Lemma enc_be16_be16 (p : list byte) (i : Z) :
  enc_be16 (be16 p i) = [byte_at p i; byte_at p (i + 1)].
Proof.
  unfold enc_be16, be16, u8.
  pose proof (byte_val_range (byte_at p i)) as H1.
  pose proof (byte_val_range (byte_at p (i + 1))) as H2.
  replace ((byte_val (byte_at p i) * 256 + byte_val (byte_at p (i + 1))) / 256)
    with (byte_val (byte_at p i)).
  2:{ symmetry. rewrite Z.add_comm, Z.div_add by lia. rewrite Z.div_small by lia. lia. }
  rewrite byte_of_Z_val.
  f_equal. f_equal.
  apply byte_val_inj. rewrite byte_val_of_Z.
  rewrite Z.add_comm, Z.mod_add by lia. apply Z.mod_small. lia.
Qed.

Lemma bytes_of_u32 (v : Z) :
  0 <= v < 4294967296 ->
  0 <= v / 16777216 < 256 /\
  ((v / 16777216 * 256 + (v / 65536) mod 256) * 256 + (v / 256) mod 256) * 256
  + v mod 256 = v.
Proof.
  intros Hv.
  assert (E1 : v / 65536 = v / 256 / 256) by (rewrite Z.div_div by lia; reflexivity).
  assert (E2 : v / 16777216 = v / 256 / 256 / 256) by (rewrite !Z.div_div by lia; reflexivity).
  rewrite E1, E2.
  pose proof (Z.div_mod v 256 ltac:(lia)).
  pose proof (Z.div_mod (v / 256) 256 ltac:(lia)).
  pose proof (Z.div_mod (v / 256 / 256) 256 ltac:(lia)).
  pose proof (Z.mod_pos_bound v 256 ltac:(lia)).
  pose proof (Z.mod_pos_bound (v / 256) 256 ltac:(lia)).
  pose proof (Z.mod_pos_bound (v / 256 / 256) 256 ltac:(lia)).
  split; lia.
Qed.

Lemma be32_enc (v : Z) (rest : list byte) :
  0 <= v < 2 ^ 32 -> be32 (enc_be32 v ++ rest) 0 = v.
Proof.
  intros Hv. unfold be32, u8, enc_be32, byte_at.
  simpl (nth _ _ _).
  rewrite !byte_val_of_Z.
  change (Z.pow_pos 2 24) with 16777216.
  change (Z.pow_pos 2 16) with 65536.
  change (Z.pow_pos 2 8) with 256.
  change (2 ^ 32) with 4294967296 in Hv.
  change (2 ^ 24) with 16777216. change (2 ^ 16) with 65536. change (2 ^ 8) with 256.
  destruct (bytes_of_u32 v Hv) as [Hs Hd].
  rewrite (Z.mod_small (v / 16777216)) by lia. exact Hd.
Qed.

(** On a little-endian host the unconverted read of a body length between 1
    and [2^24 - 1] is at least 256. *)
Lemma le32_enc (v : Z) (rest : list byte) :
  0 < v < 2 ^ 24 -> 256 <= le32 (enc_be32 v ++ rest) 0.
Proof.
  intros Hv. unfold le32, u8, enc_be32, byte_at.
  simpl (nth _ _ _).
  rewrite !byte_val_of_Z.
  change (Z.pow_pos 2 24) with 16777216.
  change (Z.pow_pos 2 16) with 65536.
  change (Z.pow_pos 2 8) with 256.
  change (2 ^ 24) with 16777216 in *. change (2 ^ 16) with 65536. change (2 ^ 8) with 256.
  destruct (bytes_of_u32 v ltac:(lia)) as [Hs Hd].
  assert (H0 : v / 16777216 = 0) by (apply Z.div_small; lia).
  rewrite (Z.mod_small (v / 16777216)) by lia.
  pose proof (Z.mod_pos_bound v 256 ltac:(lia)).
  pose proof (Z.mod_pos_bound (v / 256) 256 ltac:(lia)).
  pose proof (Z.mod_pos_bound (v / 65536) 256 ltac:(lia)).
  lia.
Qed.

(** ** Slices *)

Lemma map_seq_from {A : Type} (f : nat -> A) (s n : nat) :
  map f (seq s n) = map (fun k => f (s + k)%nat) (seq 0 n).
Proof.
  revert s f. induction n as [|n IH]; intros s f; simpl; [reflexivity|].
  rewrite Nat.add_0_r. f_equal.
  rewrite (IH (S s)), (IH 1%nat). apply map_ext. intros k.
  f_equal. lia.
Qed.

Lemma slice_app (p : list byte) (off a b : Z) :
  0 <= a -> 0 <= b -> slice p off (a + b) = slice p off a ++ slice p (off + a) b.
Proof.
  intros Ha Hb. unfold slice.
  rewrite Z2Nat.inj_add by lia. rewrite seq_app, map_app. f_equal.
  rewrite map_seq_from. apply map_ext. intros k. f_equal. lia.
Qed.

Lemma slice_zlen (p : list byte) (off n : Z) : 0 <= n -> zlen (slice p off n) = n.
Proof.
  intros Hn. unfold slice, zlen. rewrite length_map, length_seq. lia.
Qed.

Lemma slice_nil (p : list byte) (off : Z) : slice p off 0 = [].
Proof. reflexivity. Qed.

Lemma slice_middle (l : list byte) :
  forall pre rest : list byte, slice (pre ++ l ++ rest) (zlen pre) (zlen l) = l.
Proof.
  induction l as [|a l IH]; intros pre rest; [reflexivity|].
  rewrite zlen_cons, slice_app by (try apply zlen_nonneg; lia).
  change (slice (pre ++ (a :: l) ++ rest) (zlen pre) 1)
    with [byte_at (pre ++ (a :: l) ++ rest) (zlen pre + 0)].
  rewrite byte_at_app_r by lia. cbn [app]. rewrite byte_at_0_cons. f_equal.
  change (pre ++ a :: l ++ rest) with (pre ++ [a] ++ l ++ rest).
  rewrite app_assoc.
  replace (zlen pre + 1) with (zlen (pre ++ [a])) by (rewrite zlen_app; reflexivity).
  apply IH.
Qed.

Lemma slice_4 (p : list byte) (off : Z) :
  slice p off 4
  = [byte_at p off; byte_at p (off + 1); byte_at p (off + 2); byte_at p (off + 3)].
Proof.
  unfold slice. change (Z.to_nat 4) with 4%nat. cbn [seq map].
  change (Z.of_nat 0) with 0. change (Z.of_nat 1) with 1.
  change (Z.of_nat 2) with 2. change (Z.of_nat 3) with 3.
  rewrite Z.add_0_r. reflexivity.
Qed.

(** ** The protocol constants *)

Lemma NoDup_map_inj {A B : Type} (f : A -> B) (l : list A) :
  NoDup (map f l) -> forall a b, In a l -> In b l -> f a = f b -> a = b.
Proof.
  induction l as [|x l IH]; simpl; intros Hnd a b Ha Hb Hf; [contradiction|].
  inversion Hnd as [|? ? Hnotin Hnd']; subst.
  destruct Ha as [-> | Ha], Hb as [-> | Hb]; auto.
  - exfalso. apply Hnotin. rewrite Hf. apply in_map. exact Hb.
  - exfalso. apply Hnotin. rewrite <- Hf. apply in_map. exact Ha.
Qed.

Lemma all_subdoc_commands_complete (c : protocol_binary_command) :
  In c all_subdoc_commands.
Proof. destruct c; simpl; tauto. Qed.

Section ProtocolFacts.

Context {P : Protocol}.

Lemma cmd_opcode_inj (a b : protocol_binary_command) :
  cmd_opcode a = cmd_opcode b -> a = b.
Proof.
  apply (NoDup_map_inj cmd_opcode all_subdoc_commands opcodes_distinct);
    apply all_subdoc_commands_complete.
Qed.

Lemma opcode_GET_not_EXISTS :
  Byte.eqb (cmd_opcode PROTOCOL_BINARY_CMD_SUBDOC_GET)
           (cmd_opcode PROTOCOL_BINARY_CMD_SUBDOC_EXISTS) = false.
Proof.
  apply byte_eqb_neq. intros H. apply cmd_opcode_inj in H. discriminate.
Qed.

Lemma datatype_JSON_not_COMPRESSED_JSON :
  PROTOCOL_BINARY_DATATYPE_JSON <> PROTOCOL_BINARY_DATATYPE_COMPRESSED_JSON.
Proof.
  pose proof datatypes_distinct as H. inversion H as [|? ? Hn _]; subst.
  intros E. apply Hn. rewrite E. simpl. auto.
Qed.

Lemma datatype_RAW_not_JSON :
  PROTOCOL_BINARY_RAW_BYTES <> PROTOCOL_BINARY_DATATYPE_JSON.
Proof.
  pose proof datatypes_distinct as H. inversion H as [|? ? Hn _]; subst.
  intros E. apply Hn. rewrite <- E. simpl. auto.
Qed.

Lemma datatype_COMPRESSED_not_JSON :
  PROTOCOL_BINARY_DATATYPE_COMPRESSED <> PROTOCOL_BINARY_DATATYPE_JSON.
Proof.
  pose proof datatypes_distinct as H. inversion H as [|? ? Hn _]; subst.
  intros E. apply Hn. rewrite <- E. simpl. auto.
Qed.

Lemma datatype_RAW_not_COMPRESSED_JSON :
  PROTOCOL_BINARY_RAW_BYTES <> PROTOCOL_BINARY_DATATYPE_COMPRESSED_JSON.
Proof.
  pose proof datatypes_distinct as H. inversion H as [|? ? _ H']; subst.
  inversion H' as [|? ? Hn _]; subst.
  intros E. apply Hn. rewrite <- E. simpl. auto.
Qed.

Lemma datatype_COMPRESSED_not_COMPRESSED_JSON :
  PROTOCOL_BINARY_DATATYPE_COMPRESSED <> PROTOCOL_BINARY_DATATYPE_COMPRESSED_JSON.
Proof.
  pose proof datatypes_distinct as H. inversion H as [|? ? _ H']; subst.
  inversion H' as [|? ? Hn _]; subst.
  intros E. apply Hn. rewrite <- E. simpl. auto.
Qed.

End ProtocolFacts.

(** ** Reading an encoded request *)

Section EncodedReads.

Context {P : Protocol}.

Lemma byte_at_0 (a : byte) (l : list byte) : byte_at (a :: l) 0 = a.
Proof. reflexivity. Qed.

Lemma byte_at_succ (a : byte) (l : list byte) (i : Z) :
  0 <= i -> byte_at (a :: l) (i + 1) = byte_at l i.
Proof.
  intros Hi. unfold byte_at. rewrite Z2Nat.inj_add by lia. 
  change (Z.to_nat 1) with 1%nat. rewrite Nat.add_1_r. reflexivity.
Qed.

Lemma byte_at_1 (a b : byte) (l : list byte) : byte_at (a :: b :: l) 1 = b.
Proof. reflexivity. Qed.

Lemma zlen_encode_lookup_spec (s : lookup_spec) :
  zlen (encode_lookup_spec s) = sizeof_multi_lookup_spec + zlen (spec_path s).
Proof.
  unfold encode_lookup_spec, enc_be16, sizeof_multi_lookup_spec.
  rewrite !zlen_app, !zlen_cons, zlen_nil. lia.
Qed.

Lemma zlen_encode_lookup_specs_cons (s : lookup_spec) (l : list lookup_spec) :
  zlen (encode_lookup_specs (s :: l))
  = sizeof_multi_lookup_spec + zlen (spec_path s) + zlen (encode_lookup_specs l).
Proof.
  unfold encode_lookup_specs. cbn [map concat]. rewrite zlen_app, zlen_encode_lookup_spec.
  reflexivity.
Qed.

(** The fields of the spec that lies at offset [body_validated] of the body. *)
Lemma read_encoded_spec (pre rest : list byte) (s : lookup_spec) (bv : Z) :
  zlen pre = sizeof_header + bv ->
  zlen (spec_path s) < 2 ^ 16 ->
  let packet := pre ++ encode_lookup_spec s ++ rest in
  byte_at packet (sizeof_header + bv + spec_off_opcode) = spec_opcode s
  /\ u8 packet (sizeof_header + bv + spec_off_flags) = byte_val (spec_flags s)
  /\ be16 packet (sizeof_header + bv + spec_off_pathlen) = zlen (spec_path s).
Proof.
  intros Hpre Hlen packet. subst packet.
  rewrite <- Hpre. unfold spec_off_opcode, spec_off_flags, spec_off_pathlen, u8.
  rewrite be16_app_r by lia. rewrite !byte_at_app_r by lia.
  unfold encode_lookup_spec. simpl app.
  split; [reflexivity|]. split; [reflexivity|].
  change (be16 (spec_opcode s :: spec_flags s
                 :: enc_be16 (zlen (spec_path s)) ++ spec_path s ++ rest) (0 + 2))
    with (be16 (enc_be16 (zlen (spec_path s)) ++ spec_path s ++ rest) 0).
  exact (be16_enc _ (spec_path s ++ rest) (conj (zlen_nonneg _) Hlen)).
Qed.

End EncodedReads.

(** ** The multi-path lookup validator on encoded and on arbitrary packets *)

Section MultiLookupFacts.

Context {P : Protocol}.

Lemma lookup_spec_ok_opcode (s : lookup_spec) :
  lookup_spec_ok s = true ->
  (spec_opcode s = cmd_opcode PROTOCOL_BINARY_CMD_SUBDOC_GET
   /\ flags_allowed PROTOCOL_BINARY_CMD_SUBDOC_GET (spec_flags s) = true
   \/ spec_opcode s = cmd_opcode PROTOCOL_BINARY_CMD_SUBDOC_EXISTS
      /\ flags_allowed PROTOCOL_BINARY_CMD_SUBDOC_EXISTS (spec_flags s) = true)
  /\ 1 <= zlen (spec_path s) <= SUBDOC_PATH_MAX_LENGTH.
Proof.
  unfold lookup_spec_ok. intros H.
  apply andb_prop in H as [H Hmax]. apply andb_prop in H as [Hop Hmin].
  apply Z.leb_le in Hmax, Hmin. split; [|lia].
  apply orb_prop in Hop as [Hop | Hop]; apply andb_prop in Hop as [Hop Hfl];
    apply byte_eqb_eq in Hop; auto.
Qed.

(** What one pass of the loop answers in terms of the fields it reads. *)
Lemma check_lookup_spec_fields (packet : list byte) (bv : Z) :
  let s := {| spec_opcode := byte_at packet (sizeof_header + bv + spec_off_opcode);
              spec_flags := byte_at packet (sizeof_header + bv + spec_off_flags);
              spec_path := slice packet (sizeof_header + bv + sizeof_multi_lookup_spec)
                                 (be16 packet (sizeof_header + bv + spec_off_pathlen)) |} in
  check_lookup_spec packet bv
  = if lookup_spec_ok s
    then Some (bv + (sizeof_multi_lookup_spec + zlen (spec_path s)))
    else None.
Proof.
  intros s. unfold check_lookup_spec, lookup_spec_ok, flags_allowed, byte_neq, u8.
  subst s. cbn [spec_opcode spec_flags spec_path].
  set (op := byte_at packet (sizeof_header + bv + spec_off_opcode)).
  set (fl := byte_val (byte_at packet (sizeof_header + bv + spec_off_flags))).
  set (n := be16 packet (sizeof_header + bv + spec_off_pathlen)).
  assert (Hn : 0 <= n) by apply be16_range.
  rewrite slice_zlen by exact Hn.
  pose proof opcode_GET_not_EXISTS as Hge.
  destruct (Byte.eqb op (cmd_opcode PROTOCOL_BINARY_CMD_SUBDOC_GET)) eqn:Hg;
    destruct (Byte.eqb op (cmd_opcode PROTOCOL_BINARY_CMD_SUBDOC_EXISTS)) eqn:He;
    cbn [negb andb orb].
  - apply byte_eqb_eq in Hg, He. rewrite <- Hg, <- He, byte_eqb_refl in Hge.
    discriminate.
  - destruct (n =? 0) eqn:H0; destruct (n >? SUBDOC_PATH_MAX_LENGTH) eqn:Hm;
      destruct (Z.land fl (Z.lnot (valid_flags (traits PROTOCOL_BINARY_CMD_SUBDOC_GET))) =? 0);
      cbn [negb andb orb];
      destruct (1 <=? n) eqn:H1; destruct (n <=? SUBDOC_PATH_MAX_LENGTH) eqn:H2;
      try reflexivity; exfalso;
      unfold SUBDOC_PATH_MAX_LENGTH in *; lia.
  - destruct (n =? 0) eqn:H0; destruct (n >? SUBDOC_PATH_MAX_LENGTH) eqn:Hm;
      destruct (Z.land fl (Z.lnot (valid_flags (traits PROTOCOL_BINARY_CMD_SUBDOC_EXISTS))) =? 0);
      cbn [negb andb orb];
      destruct (1 <=? n) eqn:H1; destruct (n <=? SUBDOC_PATH_MAX_LENGTH) eqn:H2;
      try reflexivity; exfalso;
      unfold SUBDOC_PATH_MAX_LENGTH in *; lia.
  - reflexivity.
Qed.

Lemma check_lookup_spec_encoded (pre rest : list byte) (s : lookup_spec) (bv : Z) :
  zlen pre = sizeof_header + bv ->
  zlen (spec_path s) < 2 ^ 16 ->
  check_lookup_spec (pre ++ encode_lookup_spec s ++ rest) bv
  = if lookup_spec_ok s
    then Some (bv + zlen (encode_lookup_spec s))
    else None.
Proof.
  intros Hpre Hlen.
  rewrite check_lookup_spec_fields.
  destruct (read_encoded_spec pre rest s bv Hpre Hlen) as (Hop & Hfl & Hn).
  cbv zeta in Hop, Hfl, Hn.
  assert (Hpath : slice (pre ++ encode_lookup_spec s ++ rest)
                        (sizeof_header + bv + sizeof_multi_lookup_spec)
                        (zlen (spec_path s)) = spec_path s).
  { unfold encode_lookup_spec.
    rewrite <- !app_assoc, (app_assoc pre), (app_assoc (pre ++ _)).
    replace (sizeof_header + bv + sizeof_multi_lookup_spec)
      with (zlen ((pre ++ [spec_opcode s; spec_flags s])
                    ++ enc_be16 (zlen (spec_path s))))
      by (rewrite !zlen_app, Hpre; unfold enc_be16, sizeof_multi_lookup_spec;
          rewrite !zlen_cons, zlen_nil; lia).
    apply slice_middle. }
  unfold lookup_spec_ok, flags_allowed.
  cbn [spec_opcode spec_flags spec_path].
  rewrite Hn, Hpath, Hop.
  replace (byte_val (byte_at (pre ++ encode_lookup_spec s ++ rest)
                             (sizeof_header + bv + spec_off_flags)))
    with (byte_val (spec_flags s)) by (symmetry; exact Hfl).
  rewrite zlen_encode_lookup_spec. reflexivity.
Qed.

Lemma check_lookup_spec_decode (packet : list byte) (bv bv' : Z) :
  check_lookup_spec packet bv = Some bv' ->
  exists s,
    lookup_spec_ok s = true
    /\ bv' = bv + zlen (encode_lookup_spec s)
    /\ slice packet (sizeof_header + bv) (zlen (encode_lookup_spec s))
       = encode_lookup_spec s.
Proof.
  rewrite check_lookup_spec_fields. cbv zeta.
  set (s := {| spec_opcode := _; spec_flags := _; spec_path := _ |}).
  destruct (lookup_spec_ok s) eqn:Hok; [|discriminate].
  intros H. injection H as <-. exists s. split; [exact Hok|].
  rewrite zlen_encode_lookup_spec. split; [reflexivity|].
  rewrite slice_app by (unfold sizeof_multi_lookup_spec; try apply zlen_nonneg; lia).
  unfold encode_lookup_spec.
  assert (Hlen : zlen (spec_path s)
                 = be16 packet (sizeof_header + bv + spec_off_pathlen)).
  { subst s. cbn [spec_path]. apply slice_zlen. apply be16_range. }
  rewrite Hlen at 2. rewrite enc_be16_be16.
  rewrite Hlen. subst s. cbn [spec_opcode spec_flags spec_path].
  unfold sizeof_multi_lookup_spec, spec_off_opcode, spec_off_flags, spec_off_pathlen.
  rewrite slice_4, Z.add_0_r.
  replace (sizeof_header + bv + 2 + 1) with (sizeof_header + bv + 3) by lia.
  reflexivity.
Qed.

(** The loop over a body that is the encoding of [specs], declared in full:
    it walks the first [remaining] of them. *)
Lemma lookup_specs_loop_encoded (specs : list lookup_spec) :
  forall (remaining : nat) (pre rest : list byte) (path_index bv : Z),
    zlen pre = sizeof_header + bv ->
    Forall (fun s => zlen (spec_path s) < 2 ^ 16) specs ->
    lookup_specs_loop remaining (pre ++ encode_lookup_specs specs ++ rest)
                      (bv + zlen (encode_lookup_specs specs)) path_index bv
    = if forallb lookup_spec_ok (firstn remaining specs)
      then Some (path_index + zlen (firstn remaining specs),
                 bv + zlen (encode_lookup_specs (firstn remaining specs)))
      else None.
Proof.
  induction specs as [|s specs IH]; intros remaining pre rest path_index bv Hpre Hfit.
  - destruct remaining; cbn [lookup_specs_loop firstn forallb];
      change (encode_lookup_specs []) with (@nil byte);
      rewrite !zlen_nil, !Z.add_0_r; [reflexivity|].
    rewrite Z.ltb_irrefl. reflexivity.
  - destruct remaining as [|remaining]; cbn [lookup_specs_loop firstn forallb].
    + change (encode_lookup_specs []) with (@nil byte).
      rewrite !zlen_nil, !Z.add_0_r. reflexivity.
    + inversion Hfit as [|? ? Hs Hfit']; subst.
      pose proof (zlen_nonneg (spec_path s)) as Hp.
      pose proof (zlen_nonneg (encode_lookup_specs specs)) as Hr.
      change (encode_lookup_specs (s :: specs))
        with (encode_lookup_spec s ++ encode_lookup_specs specs).
      rewrite zlen_app, <- (app_assoc (encode_lookup_spec s)).
      pose proof (zlen_encode_lookup_spec s) as Hsz.
      unfold sizeof_multi_lookup_spec in Hsz.
      replace (bv <? bv + (zlen (encode_lookup_spec s)
                           + zlen (encode_lookup_specs specs))) with true
        by (symmetry; apply Z.ltb_lt; lia).
      rewrite check_lookup_spec_encoded by assumption.
      destruct (lookup_spec_ok s) eqn:Hok; cbn [andb]; [|reflexivity].
      rewrite (app_assoc pre), Z.add_assoc.
      rewrite IH; [| rewrite zlen_app; lia | assumption].
      destruct (forallb lookup_spec_ok (firstn remaining specs)); [|reflexivity].
      change (encode_lookup_specs (s :: firstn remaining specs))
        with (encode_lookup_spec s ++ encode_lookup_specs (firstn remaining specs)).
      rewrite zlen_cons, zlen_app.
      f_equal. f_equal; lia.
Qed.

(** The loop on any packet: when it does not reject, the bytes it walked are
    the encoding of a list of well-formed specs, one per pass. *)
Lemma lookup_specs_loop_decode (remaining : nat) (packet : list byte) (bodylen : Z) :
  forall (path_index bv path_index' bv' : Z),
    0 <= bv ->
    lookup_specs_loop remaining packet bodylen path_index bv = Some (path_index', bv') ->
    exists specs,
      path_index' = path_index + zlen specs
      /\ (length specs <= remaining)%nat
      /\ forallb lookup_spec_ok specs = true
      /\ bv' = bv + zlen (encode_lookup_specs specs)
      /\ slice packet (sizeof_header + bv) (zlen (encode_lookup_specs specs))
         = encode_lookup_specs specs
      /\ (specs <> [] -> bv < bodylen)
      /\ (bv' < bodylen -> length specs = remaining).
Proof.
  induction remaining as [|remaining IH]; intros path_index bv path_index' bv' Hbv Hloop;
    cbn [lookup_specs_loop] in Hloop.
  - injection Hloop as <- <-. exists []. cbn.
    repeat split; try (rewrite ?Z.add_0_r; reflexivity); try lia. congruence.
  - destruct (bv <? bodylen) eqn:Hlt.
    + destruct (check_lookup_spec packet bv) as [bv1|] eqn:Hcheck; [|discriminate].
      apply check_lookup_spec_decode in Hcheck as (s & Hok & Hbv1 & Hslice).
      pose proof (zlen_nonneg (encode_lookup_spec s)) as Hs.
      apply IH in Hloop as (specs & Hpi & Hlen & Hall & Hbv' & Hsl & Hne & Hfull); [|lia].
      exists (s :: specs).
      rewrite zlen_cons. cbn [forallb length]. rewrite Hok, Hall.
      unfold encode_lookup_specs in *. cbn [map concat].
      rewrite zlen_app.
      repeat split; try lia.
      * rewrite slice_app by (try apply zlen_nonneg; lia).
        rewrite Hslice. f_equal.
        replace (sizeof_header + bv + zlen (encode_lookup_spec s))
          with (sizeof_header + bv1) by lia.
        exact Hsl.
      all: try (intros _; apply Z.ltb_lt; exact Hlt).
    + injection Hloop as <- <-. exists []. cbn.
      apply Z.ltb_ge in Hlt.
      repeat split; try (rewrite ?Z.add_0_r; reflexivity); try lia; congruence.
Qed.

End MultiLookupFacts.

Section MultiLookupValidator.

Context {P : Protocol}.

Lemma encode_header_fields (m o : byte) (kl el : Z) (dt : byte) (vb bl oq cs : Z)
      (body : list byte) :
  let p := encode_header m o kl el dt vb bl oq cs ++ body in
  byte_at p off_magic = m
  /\ byte_at p off_opcode = o
  /\ be16 p off_keylen = be16 (enc_be16 kl) 0
  /\ le16 p off_keylen = le16 (enc_be16 kl) 0
  /\ u8 p off_extlen = byte_val (byte_of_Z el)
  /\ byte_at p off_datatype = dt
  /\ be16 p off_vbucket = be16 (enc_be16 vb) 0
  /\ be32 p off_bodylen = be32 (enc_be32 bl) 0
  /\ le32 p off_bodylen = le32 (enc_be32 bl) 0
  /\ be64 p off_cas = be64 (enc_be64 cs) 0
  /\ zlen (encode_header m o kl el dt vb bl oq cs) = sizeof_header.
Proof.
  cbv zeta. repeat split; reflexivity.
Qed.

Lemma host16_zero (p : list byte) (i : Z) : (host16 p i =? 0) = (be16 p i =? 0).
Proof.
  unfold host16, le16, be16.
  pose proof (u8_range p i). pose proof (u8_range p (i + 1)).
  destruct host_little_endian; [|reflexivity].
  destruct (u8 p i + 256 * u8 p (i + 1) =? 0) eqn:E1;
    destruct (u8 p i * 256 + u8 p (i + 1) =? 0) eqn:E2; try reflexivity; lia.
Qed.

(** The unconverted body length of a well-formed request is never below the
    minimum, on either kind of host. *)
Lemma host32_encoded_bodylen (p : list byte) (v : Z) :
  le32 p off_bodylen = le32 (enc_be32 v) 0 ->
  be32 p off_bodylen = v ->
  sizeof_multi_lookup_spec + 1 <= v < 2 ^ 24 ->
  (host32 p off_bodylen <? sizeof_multi_lookup_spec + 1) = false.
Proof.
  unfold sizeof_multi_lookup_spec, host32. intros Hle Hbe Hv. apply Z.ltb_ge.
  destruct host_little_endian.
  - pose proof (le32_enc v [] ltac:(lia)) as H. rewrite app_nil_r in H. lia.
  - lia.
Qed.

Lemma encoded_specs_size (specs : list lookup_spec) :
  forallb lookup_spec_ok specs = true ->
  (sizeof_multi_lookup_spec + 1) * zlen specs <= zlen (encode_lookup_specs specs)
  /\ zlen (encode_lookup_specs specs)
     <= (sizeof_multi_lookup_spec + SUBDOC_PATH_MAX_LENGTH) * zlen specs.
Proof.
  induction specs as [|s specs IH]; cbn [forallb]; intros H.
  - change (encode_lookup_specs []) with (@nil byte).
    rewrite (@zlen_nil byte), (@zlen_nil lookup_spec). lia.
  - apply andb_prop in H as [Hs H]. specialize (IH H).
    apply lookup_spec_ok_opcode in Hs as [_ Hs].
    rewrite zlen_encode_lookup_specs_cons, zlen_cons. lia.
Qed.

Lemma encoded_prefix_full (specs : list lookup_spec) :
  forall n : nat,
    zlen (encode_lookup_specs (firstn n specs)) = zlen (encode_lookup_specs specs) ->
    firstn n specs = specs.
Proof.
  induction specs as [|s specs IH]; intros n H.
  - apply firstn_nil.
  - destruct n as [|n]; cbn [firstn] in *.
    + change (encode_lookup_specs []) with (@nil byte) in H.
      rewrite zlen_encode_lookup_specs_cons, zlen_nil in H.
      pose proof (zlen_nonneg (spec_path s)).
      pose proof (zlen_nonneg (encode_lookup_specs specs)).
      unfold sizeof_multi_lookup_spec in H. lia.
    + f_equal. apply IH. rewrite !zlen_encode_lookup_specs_cons in H. lia.
Qed.

Lemma multi_lookup_validator_range (packet : list byte) :
  subdoc_multi_lookup_validator packet = 0
  \/ subdoc_multi_lookup_validator packet = -1.
Proof.
  unfold subdoc_multi_lookup_validator.
  destruct (_ || _); [right; reflexivity|].
  destruct (lookup_specs_loop _ _ _ _ _) as [[pi bv]|]; [|right; reflexivity].
  destruct (_ && _); [left | right]; reflexivity.
Qed.

(** The validator on every packet: acceptance means that the declared body is
    the key followed by the encoding of 1 to 16 well-formed specs, no more
    and no less. *)
Lemma multi_lookup_validator_accepts (packet : list byte) :
  subdoc_multi_lookup_validator packet = 0 ->
  byte_at packet off_magic = PROTOCOL_BINARY_REQ
  /\ be16 packet off_keylen <> 0
  /\ u8 packet off_extlen = 0
  /\ byte_at packet off_datatype = PROTOCOL_BINARY_RAW_BYTES
  /\ exists specs,
      (1 <= length specs <= 16)%nat
      /\ forallb lookup_spec_ok specs = true
      /\ be32 packet off_bodylen
         = be16 packet off_keylen + zlen (encode_lookup_specs specs)
      /\ slice packet (sizeof_header + be16 packet off_keylen)
               (zlen (encode_lookup_specs specs))
         = encode_lookup_specs specs.
Proof.
  unfold subdoc_multi_lookup_validator, byte_neq.
  rewrite host16_zero.
  destruct (Byte.eqb (byte_at packet off_magic) PROTOCOL_BINARY_REQ) eqn:Hm;
    cbn [negb orb]; [|discriminate].
  destruct (be16 packet off_keylen =? 0) eqn:Hk; cbn [orb]; [discriminate|].
  destruct (u8 packet off_extlen =? 0) eqn:He; cbn [negb orb]; [|discriminate].
  destruct (host32 packet off_bodylen <? sizeof_multi_lookup_spec + 1);
    cbn [orb]; [discriminate|].
  destruct (Byte.eqb (byte_at packet off_datatype) PROTOCOL_BINARY_RAW_BYTES) eqn:Hd;
    cbn [negb]; [|discriminate].
  destruct (lookup_specs_loop _ _ _ _ _) as [[pi bv]|] eqn:Hloop; [|discriminate].
  destruct ((pi >? 0) && _ && _) eqn:Hfin; [|discriminate].
  intros _.
  apply andb_prop in Hfin as [Hfin Hbv]. apply andb_prop in Hfin as [Hpos Hmax].
  apply Z.eqb_eq in Hbv. apply Z.gtb_lt in Hpos. apply Z.leb_le in Hmax.
  apply lookup_specs_loop_decode in Hloop
    as (specs & Hpi & Hlen & Hok & Hbv' & Hsl & _ & _); [|apply be16_range].
  apply byte_eqb_eq in Hm, Hd. apply Z.eqb_neq in Hk. apply Z.eqb_eq in He.
  repeat split; try assumption.
  exists specs. unfold zlen in Hpi.
  unfold PROTOCOL_BINARY_SUBDOC_MULTI_MAX_PATHS in *.
  repeat split; try assumption; try lia.
Qed.

(** The validator on the encoding of a key and of specs. *)
Lemma multi_lookup_validator_encoded (t : request_tags) (key : list byte)
      (specs : list lookup_spec) :
  1 <= zlen key ->
  encodable key specs ->
  (subdoc_multi_lookup_validator (encode_multi_lookup t key specs) = 0
   <-> (1 <= length specs <= 16)%nat /\ forallb lookup_spec_ok specs = true).
Proof.
  intros Hkey (Hk16 & Hfit & Hb32).
  pose proof (zlen_nonneg (encode_lookup_specs specs)) as Hnn.
  unfold encode_multi_lookup.
  set (h := encode_header _ _ _ _ _ _ _ _ _).
  pose proof (encode_header_fields
                PROTOCOL_BINARY_REQ
                (cmd_opcode PROTOCOL_BINARY_CMD_SUBDOC_MULTI_LOOKUP) (zlen key) 0
                PROTOCOL_BINARY_RAW_BYTES (tag_vbucket t)
                (zlen key + zlen (encode_lookup_specs specs))
                (tag_opaque t) (tag_cas t) (key ++ encode_lookup_specs specs))
    as (Hm & _ & Hkl & _ & Hel & Hdt & _ & Hbl & Hbl' & _ & Hsz).
  fold h in Hm, Hkl, Hel, Hdt, Hbl, Hbl', Hsz.
  pose proof (be16_enc (zlen key) [] ltac:(lia)) as Hkv. rewrite app_nil_r in Hkv.
  pose proof (be32_enc (zlen key + zlen (encode_lookup_specs specs)) []
                       ltac:(lia)) as Hbv.
  rewrite app_nil_r in Hbv.
  rewrite Hkv in Hkl. rewrite Hbv in Hbl.
  assert (Hloop :
            lookup_specs_loop PROTOCOL_BINARY_SUBDOC_MULTI_MAX_PATHS
                              (h ++ key ++ encode_lookup_specs specs)
                              (zlen key + zlen (encode_lookup_specs specs)) 0 (zlen key)
            = if forallb lookup_spec_ok
                         (firstn PROTOCOL_BINARY_SUBDOC_MULTI_MAX_PATHS specs)
              then Some (0 + zlen (firstn PROTOCOL_BINARY_SUBDOC_MULTI_MAX_PATHS specs),
                         zlen key
                         + zlen (encode_lookup_specs
                                   (firstn PROTOCOL_BINARY_SUBDOC_MULTI_MAX_PATHS specs)))
              else None).
  { rewrite <- (app_nil_r (encode_lookup_specs specs)) at 1.
    rewrite (app_assoc h key).
    apply lookup_specs_loop_encoded; [|exact Hfit].
    rewrite zlen_app, Hsz. reflexivity. }
  split.
  - intros Hacc.
    unfold subdoc_multi_lookup_validator in Hacc.
    destruct (_ || _) in Hacc; [discriminate|].
    rewrite Hkl, Hbl, Hloop in Hacc.
    destruct (forallb lookup_spec_ok _) eqn:Hall in Hacc; [|discriminate].
    destruct ((_ >? 0) && _ && _) eqn:Hfin in Hacc; [|discriminate].
    apply andb_prop in Hfin as [Hfin Hbv']. apply andb_prop in Hfin as [Hpos Hmax].
    apply Z.eqb_eq in Hbv'. apply Z.gtb_lt in Hpos.
    assert (Hfull : firstn PROTOCOL_BINARY_SUBDOC_MULTI_MAX_PATHS specs = specs)
      by (apply encoded_prefix_full; lia).
    rewrite Hfull in *.
    pose proof (firstn_le_length PROTOCOL_BINARY_SUBDOC_MULTI_MAX_PATHS specs) as Hle.
    rewrite Hfull in Hle. unfold PROTOCOL_BINARY_SUBDOC_MULTI_MAX_PATHS in Hle.
    unfold zlen in Hpos. split; [lia | exact Hall].
  - intros [Hlen Hall].
    pose proof (encoded_specs_size specs Hall) as [Hlo Hhi].
    unfold sizeof_multi_lookup_spec, SUBDOC_PATH_MAX_LENGTH, zlen in Hlo, Hhi.
    fold (zlen (encode_lookup_specs specs)) in Hlo, Hhi.
    assert (Hfull : firstn PROTOCOL_BINARY_SUBDOC_MULTI_MAX_PATHS specs = specs)
      by (apply firstn_all2; unfold PROTOCOL_BINARY_SUBDOC_MULTI_MAX_PATHS; lia).
    unfold subdoc_multi_lookup_validator, byte_neq.
    rewrite host16_zero, Hm, Hkl, Hel, Hdt, Hbl, Hloop, Hfull, Hall, !byte_eqb_refl.
    rewrite (host32_encoded_bodylen _ _ Hbl' Hbl)
      by (unfold sizeof_multi_lookup_spec; change (2 ^ 24) with 16777216;
          change (2 ^ 16) with 65536 in Hk16; lia).
    rewrite byte_val_of_Z. change (0 mod 256 =? 0) with true.
    replace (zlen key =? 0) with false by (symmetry; apply Z.eqb_neq; lia).
    cbn [negb orb].
    replace (0 + zlen specs >? 0) with true by (symmetry; apply Z.gtb_lt; unfold zlen; lia).
    replace (0 + zlen specs <=? Z.of_nat PROTOCOL_BINARY_SUBDOC_MULTI_MAX_PATHS) with true
      by (symmetry; apply Z.leb_le; unfold zlen, PROTOCOL_BINARY_SUBDOC_MULTI_MAX_PATHS; lia).
    rewrite Z.eqb_refl. reflexivity.
Qed.

End MultiLookupValidator.

(** ** Multi-path lookup: number of specs and exact body length *)

(** C4.  A well-formed multi-path lookup request (key of at least one byte,
    every spec GET or EXISTS with allowed flags and a path of 1 to 1024 bytes,
    lengths that fit their fields) is rejected with no spec, accepted with 1 to
    16 specs and rejected with 17 or more.  Whatever the packet, acceptance
    requires an extras length of 0 and a body length of at least
    sizeof(spec)+1, and means that the declared body is exactly the key followed
    by the encodings of 1 to 16 specs: the bytes walked equal the declared
    body length. *)
Theorem multi_lookup_validator_bounds {P : Protocol} (t : request_tags)
        (key : list byte) (specs : list lookup_spec) :
  1 <= zlen key ->
  encodable key specs ->
  forallb lookup_spec_ok specs = true ->
  let packet := encode_multi_lookup t key specs in
  (length specs = 0%nat -> subdoc_multi_lookup_validator packet = -1)
  /\ ((1 <= length specs <= 16)%nat -> subdoc_multi_lookup_validator packet = 0)
  /\ ((17 <= length specs)%nat -> subdoc_multi_lookup_validator packet = -1)
  /\ (forall packet' : list byte,
         subdoc_multi_lookup_validator packet' = 0 ->
         u8 packet' off_extlen = 0
         /\ sizeof_multi_lookup_spec + 1 <= be32 packet' off_bodylen
         /\ exists specs' : list lookup_spec,
             (1 <= length specs' <= 16)%nat
             /\ forallb lookup_spec_ok specs' = true
             /\ be32 packet' off_bodylen
                = be16 packet' off_keylen + zlen (encode_lookup_specs specs')
             /\ slice packet' (sizeof_header + be16 packet' off_keylen)
                      (zlen (encode_lookup_specs specs'))
                = encode_lookup_specs specs').
Proof.
  intros Hkey Henc Hok packet.
  pose proof (multi_lookup_validator_encoded t key specs Hkey Henc) as Hiff.
  fold packet in Hiff.
  assert (Hrej : ~ (1 <= length specs <= 16)%nat ->
                 subdoc_multi_lookup_validator packet = -1).
  { intros Hn. destruct (multi_lookup_validator_range packet) as [H0 | H1]; [|exact H1].
    apply Hiff in H0. tauto. }
  split; [intros H; apply Hrej; lia|].
  split; [intros H; apply Hiff; split; assumption|].
  split; [intros H; apply Hrej; lia|].
  intros packet' Hacc.
  apply multi_lookup_validator_accepts in Hacc
    as (_ & Hk & He & _ & specs' & Hlen & Hall & Hbody & Hslice).
  split; [exact He|].
  pose proof (encoded_specs_size specs' Hall) as [Hlo _].
  pose proof (be16_range packet' off_keylen) as Hkr.
  split.
  - unfold zlen in Hlo. rewrite Hbody.
    fold (zlen (encode_lookup_specs specs')) in Hlo.
    unfold sizeof_multi_lookup_spec in *. lia.
  - exists specs'. repeat split; try assumption; lia.
Qed.

Lemma multi_lookup_validator_bounds_witness :
  subdoc_multi_lookup_validator
    (P := Mcbp.protocol)
    (encode_multi_lookup (P := Mcbp.protocol) Examples.tags Examples.key_k
                         [Examples.exists_0]) = 0.
Proof.
  apply (multi_lookup_validator_bounds (P := Mcbp.protocol) Examples.tags Examples.key_k
                                       [Examples.exists_0]).
  - vm_compute. discriminate.
  - repeat split; try (vm_compute; reflexivity).
    repeat constructor.
  - vm_compute. reflexivity.
  - simpl. lia.
Defined.

(** C5.  In an accepted multi-path lookup request every spec has opcode
    SUBDOC_GET or SUBDOC_EXISTS, flags within the valid flags of that opcode's
    traits, and a path of 1 to 1024 bytes; a spec carrying any other
    sub-document opcode (a mutation or a MULTI opcode) makes the validator
    reject the whole packet. *)
Theorem multi_lookup_validator_specs {P : Protocol} (t : request_tags)
        (key : list byte) (specs : list lookup_spec) (s : lookup_spec) :
  encodable key specs ->
  In s specs ->
  let packet := encode_multi_lookup t key specs in
  (subdoc_multi_lookup_validator packet = 0 ->
   (exists cmd : protocol_binary_command,
       (cmd = PROTOCOL_BINARY_CMD_SUBDOC_GET \/ cmd = PROTOCOL_BINARY_CMD_SUBDOC_EXISTS)
       /\ spec_opcode s = cmd_opcode cmd
       /\ Z.land (byte_val (spec_flags s)) (Z.lnot (valid_flags (traits cmd))) = 0)
   /\ 1 <= zlen (spec_path s) <= SUBDOC_PATH_MAX_LENGTH)
  /\ (forall cmd : protocol_binary_command,
         spec_opcode s = cmd_opcode cmd ->
         cmd <> PROTOCOL_BINARY_CMD_SUBDOC_GET ->
         cmd <> PROTOCOL_BINARY_CMD_SUBDOC_EXISTS ->
         subdoc_multi_lookup_validator packet = -1).
Proof.
  intros Henc Hin packet.
  assert (Hacc : subdoc_multi_lookup_validator packet = 0 -> lookup_spec_ok s = true).
  { intros Hacc.
    assert (Hkey : 1 <= zlen key).
    { apply multi_lookup_validator_accepts in Hacc as (_ & Hk & _).
      subst packet. unfold encode_multi_lookup in Hk.
      destruct Henc as (Hk16 & _ & _).
      pose proof (encode_header_fields
                    PROTOCOL_BINARY_REQ
                    (cmd_opcode PROTOCOL_BINARY_CMD_SUBDOC_MULTI_LOOKUP) (zlen key) 0
                    PROTOCOL_BINARY_RAW_BYTES (tag_vbucket t)
                    (zlen key + zlen (encode_lookup_specs specs))
                    (tag_opaque t) (tag_cas t) (key ++ encode_lookup_specs specs))
        as (_ & _ & Hkl & _).
      pose proof (zlen_nonneg key) as Hnn.
      pose proof (be16_enc (zlen key) [] ltac:(lia)) as Hkv.
      rewrite app_nil_r in Hkv. rewrite Hkv in Hkl. rewrite Hkl in Hk. lia. }
    apply (multi_lookup_validator_encoded t key specs Hkey Henc) in Hacc as [_ Hall].
    rewrite forallb_forall in Hall. apply Hall. exact Hin. }
  split.
  - intros H. apply Hacc in H. apply lookup_spec_ok_opcode in H as [Hop Hlen].
    split; [|exact Hlen].
    destruct Hop as [[Hop Hfl] | [Hop Hfl]]; unfold flags_allowed in Hfl;
      apply Z.eqb_eq in Hfl.
    + exists PROTOCOL_BINARY_CMD_SUBDOC_GET. auto.
    + exists PROTOCOL_BINARY_CMD_SUBDOC_EXISTS. auto.
  - intros cmd Hop Hg He.
    destruct (multi_lookup_validator_range packet) as [H0 | H1]; [|exact H1].
    exfalso. apply Hacc in H0. apply lookup_spec_ok_opcode in H0 as [Hop' _].
    destruct Hop' as [[Hop' _] | [Hop' _]]; rewrite Hop in Hop';
      apply cmd_opcode_inj in Hop'; contradiction.
Qed.

Lemma multi_lookup_validator_specs_witness :
  subdoc_multi_lookup_validator
    (P := Mcbp.protocol)
    (encode_multi_lookup
       (P := Mcbp.protocol) Examples.tags Examples.key_k
       [Examples.exists_0;
        Examples.add_unique_0]) = -1.
Proof.
  apply (proj2 (multi_lookup_validator_specs
                  (P := Mcbp.protocol) Examples.tags Examples.key_k
                  [Examples.exists_0;
                   Examples.add_unique_0]
                  Examples.add_unique_0
                  ltac:(repeat split; try (vm_compute; reflexivity); repeat constructor)
                  ltac:(simpl; auto))
               PROTOCOL_BINARY_CMD_SUBDOC_ARRAY_ADD_UNIQUE);
    [reflexivity | discriminate | discriminate].
Defined.

(** ** Document materialisation *)

Lemma setDynamicBuffer_same (c : Connection) : setDynamicBuffer c (dynamicBuffer c) = c.
Proof. destruct c; reflexivity. Qed.

Section Materialisation.

Context {P : Protocol}.

Variable E : Type.
Variable eng : ENGINE_HANDLE_V1 E.
Variable snappy_uncompressed_length : list byte -> option Z.
Variable snappy_uncompress : list byte -> Z -> option (list byte).
Variable growDynamicBuffer : DynamicBuffer -> Z -> bool * DynamicBuffer.

Let materialise :=
  get_document_for_searching E eng snappy_uncompressed_length snappy_uncompress
                             growDynamicBuffer.

(** Materialisation asks the engine for the item's info once and touches
    nothing of the connection but its dynamic buffer. *)
Lemma materialise_frame (w : World E) (it : item) (in_cas : Z) :
  let '(_, _, _, w') := materialise w it in_cas in
  calls w'
  = calls w ++ [CallGetItemInfo it (match get_item_info eng (engine w) it with
                                    | Some _ => true
                                    | None => false
                                    end)]
  /\ engine w' = engine w
  /\ conn w' = setDynamicBuffer (conn w) (dynamicBuffer (conn w')).
Proof.
  unfold materialise, get_document_for_searching, engine_get_item_info, called, with_conn.
  destruct (get_item_info eng (engine w) it) as [info|];
    [|cbn; rewrite setDynamicBuffer_same; auto].
  destruct (negb (info_nvalue info =? 1));
    [cbn; rewrite setDynamicBuffer_same; auto|].
  destruct (negb (in_cas =? 0) && negb (in_cas =? info_cas info));
    [cbn; rewrite setDynamicBuffer_same; auto|].
  destruct (Byte.eqb (info_datatype info) PROTOCOL_BINARY_DATATYPE_JSON);
    [cbn; rewrite setDynamicBuffer_same; auto|].
  destruct (Byte.eqb (info_datatype info) PROTOCOL_BINARY_DATATYPE_COMPRESSED_JSON).
  - destruct (snappy_uncompressed_length _) as [n|];
      [|cbn; rewrite setDynamicBuffer_same; auto].
    destruct (growDynamicBuffer _ _) as [[|] dbuf]; cbn [negb conn engine calls].
    + destruct (snappy_uncompress _ _); cbn; auto.
    + cbn. auto.
  - destruct (_ || _); cbn; rewrite setDynamicBuffer_same; auto.
Qed.

(** The ordered checks of [get_document_for_searching], one by one. *)
Lemma materialise_no_info (w : World E) (it : item) (in_cas : Z) :
  get_item_info eng (engine w) it = None ->
  fst (fst (fst (materialise w it in_cas))) = PROTOCOL_BINARY_RESPONSE_EINTERNAL.
Proof.
  intros H. unfold materialise, get_document_for_searching, engine_get_item_info.
  rewrite H. reflexivity.
Qed.

Lemma materialise_segments (w : World E) (it : item) (in_cas : Z) (info : item_info) :
  get_item_info eng (engine w) it = Some info ->
  info_nvalue info <> 1 ->
  fst (fst (fst (materialise w it in_cas))) = PROTOCOL_BINARY_RESPONSE_EINTERNAL
  /\ conn (snd (materialise w it in_cas)) = conn w.
Proof.
  intros H Hn. unfold materialise, get_document_for_searching, engine_get_item_info.
  rewrite H. apply Z.eqb_neq in Hn. rewrite Hn. cbn. auto.
Qed.

Lemma materialise_cas_mismatch (w : World E) (it : item) (in_cas : Z) (info : item_info) :
  get_item_info eng (engine w) it = Some info ->
  info_nvalue info = 1 ->
  in_cas <> 0 ->
  in_cas <> info_cas info ->
  fst (fst (fst (materialise w it in_cas))) = PROTOCOL_BINARY_RESPONSE_KEY_EEXISTS
  /\ conn (snd (materialise w it in_cas)) = conn w.
Proof.
  intros H Hn H0 Hc. unfold materialise, get_document_for_searching, engine_get_item_info.
  rewrite H. apply Z.eqb_eq in Hn. apply Z.eqb_neq in H0, Hc. rewrite Hn, H0, Hc.
  cbn. auto.
Qed.

(** Past the three checks, [cas] holds the item's CAS whatever follows. *)
Lemma materialise_cas_out (w : World E) (it : item) (in_cas : Z) (info : item_info) :
  get_item_info eng (engine w) it = Some info ->
  info_nvalue info = 1 ->
  in_cas = 0 \/ in_cas = info_cas info ->
  snd (fst (materialise w it in_cas)) = info_cas info.
Proof.
  intros H Hn Hc. unfold materialise, get_document_for_searching, engine_get_item_info.
  rewrite H. apply Z.eqb_eq in Hn. rewrite Hn. cbn [negb].
  replace (negb (in_cas =? 0) && negb (in_cas =? info_cas info)) with false.
  2:{ destruct Hc as [-> | ->]; [reflexivity|].
      rewrite Z.eqb_refl. cbn. rewrite andb_false_r. reflexivity. }
  destruct (Byte.eqb (info_datatype info) PROTOCOL_BINARY_DATATYPE_JSON); [reflexivity|].
  destruct (Byte.eqb (info_datatype info) PROTOCOL_BINARY_DATATYPE_COMPRESSED_JSON).
  - destruct (snappy_uncompressed_length _) as [n|]; [|reflexivity].
    destruct (growDynamicBuffer _ _) as [[|] dbuf]; cbn [negb]; [|reflexivity].
    destruct (snappy_uncompress _ _); reflexivity.
  - destruct (_ || _); reflexivity.
Qed.

(** Past the three checks, the switch over the datatype. *)
Lemma materialise_switch (w : World E) (it : item) (in_cas : Z) (info : item_info) :
  get_item_info eng (engine w) it = Some info ->
  info_nvalue info = 1 ->
  in_cas = 0 \/ in_cas = info_cas info ->
  materialise w it in_cas
  = let w1 := called w (engine w) (CallGetItemInfo it true) in
    let cas := info_cas info in
    let datatype := info_datatype info in
    if Byte.eqb datatype PROTOCOL_BINARY_DATATYPE_JSON
    then (PROTOCOL_BINARY_RESPONSE_SUCCESS,
          {| buf := iov_base (info_value0 info);
             buf_data := iov_data (info_value0 info) |}, cas, w1)
    else if Byte.eqb datatype PROTOCOL_BINARY_DATATYPE_COMPRESSED_JSON
    then
      match snappy_uncompressed_length (iov_data (info_value0 info)) with
      | None => (PROTOCOL_BINARY_RESPONSE_EINTERNAL, unassigned_document, cas, w1)
      | Some n =>
          let w2 := with_conn w1 (setDynamicBuffer
                                    (conn w)
                                    (snd (growDynamicBuffer (dynamicBuffer (conn w)) n))) in
          if fst (growDynamicBuffer (dynamicBuffer (conn w)) n)
          then
            match snappy_uncompress (iov_data (info_value0 info)) n with
            | None => (PROTOCOL_BINARY_RESPONSE_EINTERNAL, unassigned_document, cas, w2)
            | Some out =>
                (PROTOCOL_BINARY_RESPONSE_SUCCESS,
                 {| buf := getCurrent (dynamicBuffer (conn w2)); buf_data := out |}, cas,
                 with_conn w2
                           (setDynamicBuffer
                              (conn w2)
                              (moveOffset (writeCurrent (dynamicBuffer (conn w2)) out)
                                          (zlen out))))
            end
          else (PROTOCOL_BINARY_RESPONSE_E2BIG, unassigned_document, cas, w2)
      end
    else if Byte.eqb datatype PROTOCOL_BINARY_RAW_BYTES
            || Byte.eqb datatype PROTOCOL_BINARY_DATATYPE_COMPRESSED
    then (PROTOCOL_BINARY_RESPONSE_SUBDOC_DOC_NOTJSON, unassigned_document, cas, w1)
    else (PROTOCOL_BINARY_RESPONSE_EINTERNAL, unassigned_document, cas, w1).
Proof.
  intros H Hn Hc. unfold materialise, get_document_for_searching, engine_get_item_info.
  rewrite H. apply Z.eqb_eq in Hn. rewrite Hn. cbn [negb].
  replace (negb (in_cas =? 0) && negb (in_cas =? info_cas info)) with false.
  2:{ destruct Hc as [-> | ->]; [reflexivity|].
      rewrite Z.eqb_refl. cbn. rewrite andb_false_r. reflexivity. }
  cbv zeta.
  destruct (Byte.eqb (info_datatype info) PROTOCOL_BINARY_DATATYPE_JSON); [reflexivity|].
  destruct (Byte.eqb (info_datatype info) PROTOCOL_BINARY_DATATYPE_COMPRESSED_JSON);
    [|reflexivity].
  destruct (snappy_uncompressed_length _) as [n|]; [|reflexivity].
  cbn [conn called with_conn].
  destruct (growDynamicBuffer _ _) as [[|] dbuf]; cbn [negb fst snd]; [|reflexivity].
  destruct (snappy_uncompress _ _); reflexivity.
Qed.

End Materialisation.

(** ** Counting calls *)

Lemma count_calls_app (f : engine_call -> bool) (a b : list engine_call) :
  count_calls f (a ++ b) = count_calls f a + count_calls f b.
Proof. unfold count_calls. rewrite filter_app, zlen_app. reflexivity. Qed.

Lemma count_calls_nonneg (f : engine_call -> bool) (l : list engine_call) :
  0 <= count_calls f l.
Proof. apply zlen_nonneg. Qed.

Lemma count_calls_cons (f : engine_call -> bool) (ev : engine_call)
      (l : list engine_call) :
  count_calls f (ev :: l) = (if f ev then 1 else 0) + count_calls f l.
Proof.
  unfold count_calls. cbn [filter]. destruct (f ev); [apply zlen_cons | lia].
Qed.

Lemma count_calls_nil (f : engine_call -> bool) : count_calls f [] = 0.
Proof. reflexivity. Qed.

Lemma checked_out_app (a b : list engine_call) (it : item) :
  checked_out (a ++ b) it = checked_out a it + checked_out b it.
Proof. unfold checked_out. rewrite !count_calls_app. lia. Qed.

Lemma count_calls_copies (f : engine_call -> bool) (frags : list (list byte)) :
  (forall dst src, f (CallMemcpy dst src) = false) ->
  forall p : Z, count_calls f (newdoc_copies p frags) = 0.
Proof.
  intros Hf. induction frags as [|loc frags IH]; intros p; cbn [newdoc_copies].
  - reflexivity.
  - rewrite count_calls_cons, Hf, IH. reflexivity.
Qed.

Lemma checked_out_copies (frags : list (list byte)) (p : Z) (it : item) :
  checked_out (newdoc_copies p frags) it = 0.
Proof.
  unfold checked_out. rewrite !count_calls_copies by reflexivity. reflexivity.
Qed.

Lemma count_lookup_only (f : engine_call -> bool) (l : list engine_call) :
  (forall ev, is_lookup_call ev = true -> f ev = false) ->
  Forall (fun ev => is_lookup_call ev = true) l ->
  count_calls f l = 0.
Proof.
  intros Hf Hl. induction Hl as [|ev l Hev _ IH]; [reflexivity|].
  rewrite count_calls_cons, (Hf ev Hev), IH. reflexivity.
Qed.

(** ** The steps of the executor, one function at a time *)

Section ExecutorSteps.

Context {P : Protocol}.

Variable E : Type.
Variable eng : ENGINE_HANDLE_V1 E.
Variable snappy_uncompressed_length : list byte -> option Z.
Variable snappy_uncompress : list byte -> Z -> option (list byte).
Variable growDynamicBuffer : DynamicBuffer -> Z -> bool * DynamicBuffer.
Variable op_exec :
  Z -> list byte -> option (list byte) -> list byte -> Subdoc_Error * Subdoc_Result.

Let materialise :=
  get_document_for_searching E eng snappy_uncompressed_length snappy_uncompress
                             growDynamicBuffer.
Let fetch := subdoc_fetch E eng.
Let operate :=
  subdoc_operate E eng snappy_uncompressed_length snappy_uncompress growDynamicBuffer
                 op_exec.
Let update := subdoc_update E eng.
Let respond := subdoc_response E.

Lemma copy_newdoc_effect (frags : list (list byte)) :
  forall (w : World E) (p : Z),
    calls (copy_newdoc E eng w p frags) = calls w ++ newdoc_copies p frags
    /\ conn (copy_newdoc E eng w p frags) = conn w.
Proof.
  induction frags as [|loc frags IH]; intros w p; cbn [copy_newdoc newdoc_copies].
  - rewrite app_nil_r. auto.
  - destruct (IH (engine_memcpy E eng w p loc) (p + zlen loc)) as [Hc Hn].
    rewrite Hc, Hn. unfold engine_memcpy, called. cbn [calls conn].
    rewrite <- app_assoc. auto.
Qed.

Ltac simpl_world :=
  cbn [conn calls engine with_conn called
       aiostat c_item commandContext ewouldblock c_state c_cas dynamicBuffer
       write_buf iov responses msghdr_available cmd_set get_hits topkeys
       setAiostat set_item setCommandContext setEwouldblock setState setCAS
       setDynamicBuffer set_write_buf set_iov set_responses set_stats
       write_bin_packet add_iov
       in_doc in_cas result out_doc set_result set_in_doc set_out_doc
       new_SubdocCmdContext fst snd].

Ltac step_calls :=
  eexists; split;
  [ first [ symmetry; apply app_nil_r | rewrite <- ?app_assoc; reflexivity ] | ].

Ltac count_events :=
  repeat (rewrite ?count_calls_app, ?count_calls_cons, ?count_calls_nil);
  cbn [is_get is_store is_store_eexists is_allocate is_lookup_call acquires releases].

(** [subdoc_fetch] *)
Lemma subdoc_fetch_effect (w : World E) (ret : ENGINE_ERROR_CODE) (key : list byte)
      (vbucket : Z) (b : bool) (w' : World E) :
  fetch w ret key vbucket = Some (b, w') ->
  (exists l, calls w' = calls w ++ l
             /\ Forall (fun ev => is_lookup_call ev = true) l
             /\ count_calls is_get l <= 1)
  /\ (forall it, it <> NULL -> balance w' it = balance w it)
  /\ (b = true -> responses (conn w') = responses (conn w))
  /\ (b = true ->
      (c_item (conn w) <> NULL -> commandContext (conn w) <> None) ->
      commandContext (conn w') <> None).
Proof.
  unfold fetch, subdoc_fetch, engine_get.
  destruct (c_item (conn w) =? NULL) eqn:Hitem.
  2:{ intros H. injection H as <- <-.
      apply Z.eqb_neq in Hitem.
      split; [exists []; rewrite app_nil_r; repeat split; [constructor | cbn; lia]|].
      repeat split; auto. }
  apply Z.eqb_eq in Hitem.
  destruct (is_ENGINE_SUCCESS ret) eqn:Hret.
  - destruct (get eng (engine w) key vbucket) as [[r it0] e'].
    assert (Hbal : forall (c : Connection) (r : ENGINE_ERROR_CODE),
               r <> ENGINE_SUCCESS ->
               c_item c = c_item (conn w) ->
               commandContext c = commandContext (conn w) ->
               forall it, it <> NULL ->
                          balance {| conn := c; engine := e';
                                     calls := calls w ++ [CallGet key vbucket r it0] |} it
                          = balance w it).
    { intros c r' Hr Hi Hc it Hit. unfold balance, held. simpl_world.
      rewrite checked_out_app, Hi, Hc. unfold checked_out. count_events.
      destruct r'; try contradiction; cbn; lia. }
    destruct r; simpl_world;
      try (intros H; injection H as <- <-; simpl_world;
           (split; [step_calls; split; [repeat constructor | count_events; lia]|]);
           (split; [apply Hbal; [discriminate | reflexivity | reflexivity]|]);
           split; discriminate).
    destruct (commandContext (conn w)) eqn:Hctx; [discriminate|].
    intros H; injection H as <- <-; simpl_world.
    split; [step_calls; split; [repeat constructor | count_events; lia]|].
    split.
    + intros it Hit. unfold balance, held. simpl_world.
      rewrite checked_out_app. unfold checked_out. count_events.
      rewrite Hitem, Hctx.
      destruct (it0 =? it); destruct (NULL =? it) eqn:Hn; try lia;
        apply Z.eqb_eq in Hn; congruence.
    + split; [reflexivity|]. intros _ _. cbn. discriminate.
  - destruct ret; try discriminate;
      simpl_world;
      intros H; injection H as <- <-; simpl_world;
      (split; [exists []; rewrite app_nil_r; repeat split; [constructor | cbn; lia]|]);
      (split; [intros it Hit; unfold balance, held; simpl_world; reflexivity|]);
      split; discriminate.
Qed.

Lemma subdoc_fetch_no_abort (w : World E) (ret : ENGINE_ERROR_CODE) (key : list byte)
      (vbucket : Z) :
  (c_item (conn w) = NULL -> commandContext (conn w) = None) ->
  fetch w ret key vbucket <> None.
Proof.
  intros Hwf. unfold fetch, subdoc_fetch, engine_get.
  destruct (c_item (conn w) =? NULL) eqn:Hitem; [|discriminate].
  apply Z.eqb_eq in Hitem. specialize (Hwf Hitem).
  destruct (is_ENGINE_SUCCESS ret).
  - destruct (get eng (engine w) key vbucket) as [[r it0] e'].
    destruct r; simpl_world; try discriminate. rewrite Hwf. discriminate.
  - destruct ret; simpl_world; try discriminate. rewrite Hwf. discriminate.
Qed.

Lemma held_same (c c' : Connection) (it : item) :
  c_item c' = c_item c ->
  option_map out_doc (commandContext c') = option_map out_doc (commandContext c) ->
  held c' it = held c it.
Proof.
  unfold held. intros -> H.
  destruct (commandContext c'), (commandContext c); cbn in H; try congruence.
  injection H as ->. reflexivity.
Qed.

Lemma balance_lookup_calls (w w' : World E) (l : list engine_call) (it : item) :
  calls w' = calls w ++ l ->
  Forall (fun ev => is_lookup_call ev = true) l ->
  (forall r key vbucket i, In (CallGet key vbucket r i) l -> r <> ENGINE_SUCCESS) ->
  held (conn w') it = held (conn w) it ->
  balance w' it = balance w it.
Proof.
  intros Hc Hl Hg Hh. unfold balance. rewrite Hc, checked_out_app, Hh.
  enough (checked_out l it = 0) by lia.
  clear Hc. induction Hl as [|ev l Hev _ IH]; [reflexivity|].
  change (ev :: l) with ([ev] ++ l). rewrite checked_out_app, IH.
  2:{ intros r k v i Hin. apply (Hg r k v i). right. exact Hin. }
  unfold checked_out. count_events.
  destruct ev; try discriminate; cbn; [|lia].
  destruct ret; try lia. exfalso. eapply Hg; [left; reflexivity | reflexivity].
Qed.

(** [subdoc_operate] *)
Lemma subdoc_operate_effect (CMD : protocol_binary_command) (w : World E)
      (path value : list byte) (flags in_cas : Z) (b : bool) (w' : World E) :
  operate CMD w path value flags in_cas = Some (b, w') ->
  (exists l, calls w' = calls w ++ l
             /\ Forall (fun ev => is_lookup_call ev = true) l
             /\ count_calls is_get l = 0)
  /\ (forall it, balance w' it = balance w it)
  /\ c_item (conn w') = c_item (conn w)
  /\ commandContext (conn w') <> None
  /\ (b = true -> responses (conn w') = responses (conn w)).
Proof.
  unfold operate, subdoc_operate.
  destruct (commandContext (conn w)) as [context|] eqn:Hctx; [|discriminate].
  destruct (buf (in_doc context) =? NULL).
  2:{ intros H. injection H as <- <-.
      split; [exists []; rewrite app_nil_r; repeat split; constructor|].
      repeat split; auto. rewrite Hctx. discriminate. }
  pose proof (materialise_frame E eng snappy_uncompressed_length snappy_uncompress
                                growDynamicBuffer w (c_item (conn w)) in_cas) as Hm.
  destruct (get_document_for_searching _ _ _ _ _ _ _ _) as [[[status doc] doc_cas] w1].
  destruct Hm as (Hcalls & _ & Hconn).
  assert (Hgen : forall c : Connection,
             c_item c = c_item (conn w1) ->
             option_map out_doc (commandContext c) = Some (out_doc context) ->
             (exists l, calls (with_conn w1 c) = calls w ++ l
                        /\ Forall (fun ev => is_lookup_call ev = true) l
                        /\ count_calls is_get l = 0)
             /\ (forall it, balance (with_conn w1 c) it = balance w it)
             /\ c_item (conn (with_conn w1 c)) = c_item (conn w)
             /\ commandContext (conn (with_conn w1 c)) <> None).
  { intros c Hi Hc. simpl_world. rewrite Hcalls.
    split; [eexists; split; [reflexivity|]; split; [repeat constructor | reflexivity]|].
    assert (Hitem : c_item c = c_item (conn w))
      by (rewrite Hi, Hconn; reflexivity).
    split; [|split; [exact Hitem|]].
    - intros it. eapply balance_lookup_calls.
      + simpl_world. exact Hcalls.
      + repeat constructor.
      + intros r k v i [Hin | []]. discriminate.
      + simpl_world. apply held_same; [exact Hitem|]. rewrite Hc, Hctx. reflexivity.
    - destruct (commandContext c); [discriminate | discriminate]. }
  destruct (negb (is_RESPONSE_SUCCESS status)).
  { intros H. injection H as <- <-.
    destruct (Hgen (write_bin_packet (conn w1) status)) as (H1 & H2 & H3 & H4).
    - reflexivity.
    - simpl_world. rewrite Hconn. simpl_world. rewrite Hctx. reflexivity.
    - repeat split; try assumption. discriminate. }
  destruct (op_exec _ _ _ _) as [subdoc_res res].
  destruct (subdoc_error_response subdoc_res) as [st|].
  - intros H. injection H as <- <-.
    match goal with
    | |- context [with_conn (with_conn w1 ?c1) ?c2] =>
        change (with_conn (with_conn w1 c1) c2) with (with_conn w1 c2);
        destruct (Hgen c2) as (H1 & H2 & H3 & H4)
    end; [reflexivity | reflexivity |].
    repeat split; try assumption. discriminate.
  - intros H. injection H as <- <-.
    match goal with
    | |- context [with_conn w1 ?c] => destruct (Hgen c) as (H1 & H2 & H3 & H4)
    end; [reflexivity | reflexivity |].
    repeat split; try assumption. intros _. simpl_world. rewrite Hconn. reflexivity.
Qed.

Lemma subdoc_operate_no_abort (CMD : protocol_binary_command) (w : World E)
      (path value : list byte) (flags in_cas : Z) :
  commandContext (conn w) <> None ->
  operate CMD w path value flags in_cas <> None.
Proof.
  intros Hctx. unfold operate, subdoc_operate.
  destruct (commandContext (conn w)) as [context|]; [|contradiction].
  destruct (buf (in_doc context) =? NULL); [|discriminate].
  destruct (get_document_for_searching _ _ _ _ _ _ _ _) as [[[status doc] doc_cas] w1].
  destruct (negb (is_RESPONSE_SUCCESS status)); [discriminate|].
  destruct (op_exec _ _ _ _) as [subdoc_res res].
  destruct (subdoc_error_response subdoc_res); discriminate.
Qed.

Lemma count_store_eexists_le (l : list engine_call) :
  count_calls is_store_eexists l <= count_calls is_store l.
Proof.
  induction l as [|ev l IH]; [reflexivity|].
  rewrite !count_calls_cons.
  destruct ev; cbn [is_store is_store_eexists]; try lia.
  destruct ret; lia.
Qed.

(** The tail of [subdoc_update]: one [store] of [out_doc] with
    [OPERATION_REPLACE]. *)
Lemma subdoc_update_store_effect (w : World E) (context : SubdocCmdContext)
      (vbucket : Z) :
  let '(r, w') := subdoc_update_store E eng w context vbucket in
  exists new_cas,
    calls w' = calls w ++ [CallStore (out_doc context) OPERATION_REPLACE vbucket r new_cas]
    /\ c_item (conn w') = c_item (conn w)
    /\ commandContext (conn w') = commandContext (conn w)
    /\ (r = ENGINE_KEY_EEXISTS -> conn w' = conn w)
    /\ (r = ENGINE_SUCCESS ->
        responses (conn w') = responses (conn w) /\ c_cas (conn w') = new_cas).
Proof.
  unfold subdoc_update_store, engine_store.
  destruct (store eng (engine w) (out_doc context) OPERATION_REPLACE vbucket)
    as [[r new_cas] e'].
  destruct r; simpl_world; exists new_cas; repeat split; try discriminate; reflexivity.
Qed.

(** The allocation block of [subdoc_update], entered with no output item. *)
Lemma subdoc_update_allocate_effect (w : World E) (context : SubdocCmdContext)
      (ret : ENGINE_ERROR_CODE) (key : list byte) (new_doc_len : Z) :
  commandContext (conn w) = Some context ->
  out_doc context = NULL ->
  match subdoc_update_allocate E eng w context ret key new_doc_len with
  | inl (r, w') =>
      (exists l, calls w' = calls w ++ l
                 /\ count_calls is_get l = 0 /\ count_calls is_store l = 0)
      /\ (forall it, it <> NULL -> balance w' it = balance w it)
      /\ c_item (conn w') = c_item (conn w)
      /\ commandContext (conn w') <> None
  | inr (context', w') =>
      exists (new_doc : item) (info : item_info),
        calls w'
        = calls w
          ++ [CallAllocate key new_doc_len 0 0 PROTOCOL_BINARY_DATATYPE_JSON
                           ENGINE_SUCCESS new_doc;
              CallItemSetCas new_doc (in_cas context);
              CallGetItemInfo new_doc true]
          ++ newdoc_copies (iov_base (info_value0 info)) (newdoc (result context))
        /\ context' = set_out_doc context new_doc
        /\ conn w' = setCommandContext (conn w) (Some context')
        /\ is_ENGINE_SUCCESS ret = true
  end.
Proof.
  intros Hctx Hout.
  unfold subdoc_update_allocate, engine_allocate, engine_item_set_cas,
    engine_get_item_info.
  assert (Hfail : forall (w' : World E) (l : list engine_call),
             calls w' = calls w ++ l ->
             c_item (conn w') = c_item (conn w) ->
             option_map out_doc (commandContext (conn w')) = Some NULL ->
             count_calls is_get l = 0 -> count_calls is_store l = 0 ->
             (forall it, it <> NULL -> checked_out l it = 0) ->
             (exists l, calls w' = calls w ++ l
                        /\ count_calls is_get l = 0 /\ count_calls is_store l = 0)
             /\ (forall it, it <> NULL -> balance w' it = balance w it)
             /\ c_item (conn w') = c_item (conn w)
             /\ commandContext (conn w') <> None).
  { intros w' l Hcl Hi Hc Hg Hs Hco.
    split; [exists l; auto|]. split; [|split; [exact Hi|]].
    - intros it Hit. unfold balance. rewrite Hcl.
      rewrite checked_out_app, (Hco it Hit).
      rewrite (held_same (conn w) (conn w') it Hi); [lia|].
      rewrite Hc, Hctx. cbn. rewrite Hout. reflexivity.
    - destruct (commandContext (conn w')); discriminate. }
  assert (Hctx' : option_map out_doc (commandContext (conn w)) = Some NULL)
    by (rewrite Hctx; cbn; rewrite Hout; reflexivity).
  destruct (is_ENGINE_SUCCESS ret) eqn:Hret.
  - destruct (allocate eng (engine w) key new_doc_len 0 0 PROTOCOL_BINARY_DATATYPE_JSON)
      as [[r new_doc] e'].
    destruct r;
      try (eapply Hfail; simpl_world;
           [reflexivity | reflexivity | exact Hctx' | reflexivity | reflexivity
            | intros it Hit; reflexivity]).
    simpl_world.
    destruct (get_item_info eng _ new_doc) as [info|].
    + match goal with
      | |- context [copy_newdoc E eng ?w0 ?p ?f] =>
          destruct (copy_newdoc_effect f w0 p) as [Hc Hn]
      end.
      exists new_doc, info. rewrite Hc, Hn. simpl_world.
      rewrite <- !app_assoc. auto.
    + simpl_world.
      split. { step_calls. count_events. auto. }
      split; [|split; [reflexivity | discriminate]].
      intros it Hit. unfold balance, held. simpl_world.
      rewrite <- !app_assoc, checked_out_app, Hctx, Hout.
      unfold checked_out. count_events.
      destruct (new_doc =? it); destruct (NULL =? it) eqn:Hn; lia.
  - destruct ret; try discriminate;
      (eapply (Hfail _ []); simpl_world;
       [symmetry; apply app_nil_r | reflexivity | exact Hctx' | reflexivity | reflexivity
        | intros it Hit; reflexivity]).
Qed.

(** [subdoc_update] *)
Lemma subdoc_update_effect (CMD : protocol_binary_command) (w : World E)
      (ret : ENGINE_ERROR_CODE) (key : list byte) (vbucket : Z)
      (r : ENGINE_ERROR_CODE) (w' : World E) :
  update CMD w ret key vbucket = Some (r, w') ->
  (exists l, calls w' = calls w ++ l
             /\ count_calls is_get l = 0
             /\ count_calls is_store l <= 1
             /\ (is_mutator (traits CMD) = false -> l = [] /\ r = ENGINE_SUCCESS)
             /\ (0 < count_calls is_store_eexists l ->
                 r = ENGINE_KEY_EEXISTS
                 /\ responses (conn w') = responses (conn w)
                 /\ ends_with_store_eexists l))
  /\ (forall it, it <> NULL -> balance w' it = balance w it)
  /\ c_item (conn w') = c_item (conn w)
  /\ commandContext (conn w') <> None.
Proof.
  unfold update, subdoc_update.
  destruct (commandContext (conn w)) as [context|] eqn:Hctx; [|discriminate].
  destruct (is_mutator (traits CMD)) eqn:Hmut; cbn [negb].
  2:{ intros H. injection H as <- <-. simpl_world.
      split.
      { exists []. rewrite app_nil_r.
        repeat split; try (cbn; lia);
          exfalso; match goal with H : 0 < _ |- _ => cbn in H; lia end. }
      split; [|split; [reflexivity | rewrite Hctx; discriminate]].
      intros it Hit. unfold balance, held. simpl_world. reflexivity. }
  assert (Hstore : forall (w1 : World E) (context1 : SubdocCmdContext) (l1 : list engine_call),
             calls w1 = calls w ++ l1 ->
             count_calls is_get l1 = 0 -> count_calls is_store l1 = 0 ->
             responses (conn w1) = responses (conn w) ->
             c_item (conn w1) = c_item (conn w) ->
             commandContext (conn w1) <> None ->
             (forall it, it <> NULL -> balance w1 it = balance w it) ->
             subdoc_update_store E eng w1 context1 vbucket = (r, w') ->
             (exists l, calls w' = calls w ++ l
                        /\ count_calls is_get l = 0
                        /\ count_calls is_store l <= 1
                        /\ (true = false -> l = [] /\ r = ENGINE_SUCCESS)
                        /\ (0 < count_calls is_store_eexists l ->
                            r = ENGINE_KEY_EEXISTS
                            /\ responses (conn w') = responses (conn w)
                            /\ ends_with_store_eexists l))
             /\ (forall it, it <> NULL -> balance w' it = balance w it)
             /\ c_item (conn w') = c_item (conn w)
             /\ commandContext (conn w') <> None).
  { intros w1 context1 l1 Hc1 Hg1 Hs1 Hr1 Hi1 Hx1 Hb1 Hst.
    pose proof (subdoc_update_store_effect w1 context1 vbucket) as Hse.
    rewrite Hst in Hse. destruct Hse as (new_cas & Hc & Hi & Hx & Hee & Hok).
    split.
    - exists (l1 ++ [CallStore (out_doc context1) OPERATION_REPLACE vbucket r new_cas]).
      rewrite Hc, Hc1, <- app_assoc. split; [reflexivity|].
      pose proof (count_store_eexists_le l1) as Hle.
      pose proof (count_calls_nonneg is_store_eexists l1) as Hnn.
      count_events. rewrite Hg1, Hs1.
      repeat split; try lia; try congruence.
      + destruct r; cbn in *; try lia. reflexivity.
      + destruct r; cbn in *; try lia. rewrite (Hee eq_refl). exact Hr1.
      + destruct r; cbn in *; try lia. unfold ends_with_store_eexists. eauto 10.
    - split; [|split; [congruence | congruence]].
      intros it Hit. rewrite <- (Hb1 it Hit). unfold balance.
      rewrite Hc, checked_out_app.
      rewrite (held_same (conn w1) (conn w') it Hi) by (rewrite Hx; reflexivity).
      unfold checked_out. count_events. lia. }
  destruct (out_doc context =? NULL) eqn:Hout.
  - apply Z.eqb_eq in Hout.
    pose proof (subdoc_update_allocate_effect
                  w context ret key (new_doc_length (newdoc (result context))) Hctx Hout)
      as Ha.
    destruct (subdoc_update_allocate _ _ _ _ _ _ _) as [[r0 w0] | [context1 w1]].
    + intros H. injection H as <- <-.
      destruct Ha as ((l & Hc & Hg & Hs) & Hb & Hi & Hx).
      split; [|auto].
      exists l. pose proof (count_store_eexists_le l).
      repeat split; try lia; try congruence; exfalso; lia.
    + intros H. injection H as H.
      destruct Ha as (new_doc & info & Hc & -> & Hn & _).
      assert (Hb1 : forall it, it <> NULL -> balance w1 it = balance w it).
      { intros it Hit. unfold balance, held. rewrite Hc, Hn. simpl_world.
        rewrite !checked_out_app, checked_out_copies, Hctx, Hout.
        unfold checked_out. count_events.
        destruct (new_doc =? it); destruct (NULL =? it) eqn:Hnull; lia. }
      apply (Hstore w1 (set_out_doc context new_doc) _ Hc); try exact H; try exact Hb1;
        try (rewrite Hn; simpl_world; first [reflexivity | discriminate]);
        count_events; rewrite count_calls_copies by reflexivity; reflexivity.
  - intros H. injection H as H.
    apply (Hstore w context [] (eq_sym (app_nil_r _))); try exact H;
      try reflexivity; try (rewrite Hctx; discriminate).
Qed.

Lemma subdoc_update_no_abort (CMD : protocol_binary_command) (w : World E)
      (ret : ENGINE_ERROR_CODE) (key : list byte) (vbucket : Z) :
  commandContext (conn w) <> None ->
  update CMD w ret key vbucket <> None.
Proof.
  intros Hctx. unfold update, subdoc_update.
  destruct (commandContext (conn w)) as [context|]; [|contradiction].
  destruct (negb (is_mutator (traits CMD))); [discriminate|].
  destruct (out_doc context =? NULL); [|discriminate].
  destruct (subdoc_update_allocate _ _ _ _ _ _ _) as [r | [context1 w1]]; discriminate.
Qed.

(** [subdoc_response] *)
Lemma subdoc_response_effect (CMD : protocol_binary_command) (w w' : World E) :
  respond CMD w = Some w' ->
  calls w' = calls w
  /\ engine w' = engine w
  /\ c_item (conn w') = c_item (conn w)
  /\ commandContext (conn w') = commandContext (conn w)
  /\ responses (conn w') = responses (conn w).
Proof.
  unfold respond, subdoc_response, add_bin_header, set_response_cas.
  destruct (commandContext (conn w)) as [context|] eqn:Hctx; [|discriminate].
  destruct (response_has_value (traits CMD));
    destruct (msghdr_available (conn w));
    intros H; injection H as <-; simpl_world; repeat split; auto.
Qed.

Lemma subdoc_response_no_abort (CMD : protocol_binary_command) (w : World E) :
  commandContext (conn w) <> None ->
  respond CMD w <> None.
Proof.
  intros Hctx. unfold respond, subdoc_response.
  destruct (commandContext (conn w)) as [context|]; [|contradiction].
  destruct (response_has_value (traits CMD));
    destruct (add_bin_header _ _ _ _ _ _); discriminate.
Qed.

End ExecutorSteps.

(** ** One pass of the loop, and the loop *)

Section ExecutorLoop.

Context {P : Protocol}.

Variable E : Type.
Variable eng : ENGINE_HANDLE_V1 E.
Variable snappy_uncompressed_length : list byte -> option Z.
Variable snappy_uncompress : list byte -> Z -> option (list byte).
Variable growDynamicBuffer : DynamicBuffer -> Z -> bool * DynamicBuffer.
Variable op_exec :
  Z -> list byte -> option (list byte) -> list byte -> Subdoc_Error * Subdoc_Result.

Let attempt :=
  subdoc_attempt E eng snappy_uncompressed_length snappy_uncompress growDynamicBuffer
                 op_exec.
Let loop :=
  executor_loop E eng snappy_uncompressed_length snappy_uncompress growDynamicBuffer
                op_exec.
Let executor :=
  subdoc_executor E eng snappy_uncompressed_length snappy_uncompress growDynamicBuffer
                  op_exec.

Ltac simpl_world :=
  cbn [conn calls engine with_conn called
       aiostat c_item commandContext ewouldblock c_state c_cas dynamicBuffer
       write_buf iov responses msghdr_available cmd_set get_hits topkeys
       setAiostat set_item setCommandContext setEwouldblock setState setCAS
       setDynamicBuffer set_write_buf set_iov set_responses set_stats
       write_bin_packet add_iov
       in_doc in_cas result out_doc set_result set_in_doc set_out_doc
       new_SubdocCmdContext fst snd].

Ltac count_events :=
  repeat (rewrite ?count_calls_app, ?count_calls_cons, ?count_calls_nil);
  cbn [is_get is_store is_store_eexists is_allocate is_lookup_call acquires releases].

(** Releasing the held item and destroying the command context: the end of a
    command, and the start of a retry. *)
Lemma reset_cmd_handler_effect (w : World E) :
  let w' := reset_cmd_handler E eng w in
  (exists l, calls w' = calls w ++ l
             /\ count_calls is_get l = 0
             /\ count_calls is_store l = 0
             /\ forall it, it <> NULL -> checked_out l it = - held (conn w) it)
  /\ c_item (conn w') = NULL
  /\ commandContext (conn w') = None
  /\ responses (conn w') = responses (conn w).
Proof.
  unfold reset_cmd_handler, resetCommandContext, SubdocCmdContext_dtor, engine_release.
  destruct (c_item (conn w) =? NULL) eqn:Hitem; cbn [negb]; simpl_world.
  - apply Z.eqb_eq in Hitem.
    destruct (commandContext (conn w)) as [ctx|] eqn:Hctx.
    + destruct (out_doc ctx =? NULL) eqn:Hout; cbn [negb]; simpl_world.
      * split; [|auto]. exists []. rewrite app_nil_r. repeat split.
        intros it Hit. unfold held. rewrite Hitem, Hctx.
        apply Z.eqb_eq in Hout. rewrite Hout.
        destruct (NULL =? it) eqn:Hn; [apply Z.eqb_eq in Hn; congruence|]. reflexivity.
      * split; [|auto]. eexists. split; [reflexivity|]. repeat split.
        intros it Hit. unfold held, checked_out. count_events. rewrite Hitem, Hctx.
        destruct (NULL =? it) eqn:Hn; [apply Z.eqb_eq in Hn; congruence|].
        destruct (out_doc ctx =? it); reflexivity.
    + split; [|auto]. exists []. rewrite app_nil_r. repeat split.
      intros it Hit. unfold held. rewrite Hitem, Hctx.
      destruct (NULL =? it) eqn:Hn; [apply Z.eqb_eq in Hn; congruence|]. reflexivity.
  - destruct (commandContext (conn w)) as [ctx|] eqn:Hctx.
    + destruct (out_doc ctx =? NULL) eqn:Hout; cbn [negb]; simpl_world.
      * split; [|auto]. eexists. split; [reflexivity|]. repeat split.
        intros it Hit. unfold held, checked_out. count_events. rewrite Hctx.
        apply Z.eqb_eq in Hout. rewrite Hout.
        destruct (NULL =? it) eqn:Hn; [apply Z.eqb_eq in Hn; congruence|].
        destruct (c_item (conn w) =? it); reflexivity.
      * split; [|auto]. eexists. split; [rewrite <- app_assoc; reflexivity|]. repeat split.
        intros it Hit. unfold held, checked_out. count_events. rewrite Hctx.
        destruct (c_item (conn w) =? it); destruct (out_doc ctx =? it); reflexivity.
    + split; [|auto]. eexists. split; [reflexivity|]. repeat split.
      intros it Hit. unfold held, checked_out. count_events. rewrite Hctx.
      destruct (c_item (conn w) =? it); reflexivity.
Qed.

Lemma reset_cmd_handler_balance (w : World E) (it : item) :
  it <> NULL ->
  balance (reset_cmd_handler E eng w) it = balance w it.
Proof.
  intros Hit.
  destruct (reset_cmd_handler_effect w) as ((l & Hc & _ & _ & Hco) & Hi & Hx & _).
  cbv zeta in Hc, Hi, Hx.
  assert (Hh : held (conn (reset_cmd_handler E eng w)) it = 0).
  { unfold held. rewrite Hi, Hx.
    destruct (NULL =? it) eqn:Hn; [apply Z.eqb_eq in Hn; congruence|]. reflexivity. }
  unfold balance. rewrite Hc, checked_out_app, (Hco it Hit), Hh. lia.
Qed.

Lemma lookup_only_counts (l : list engine_call) :
  Forall (fun ev => is_lookup_call ev = true) l ->
  count_calls is_store l = 0 /\ count_calls is_store_eexists l = 0.
Proof.
  intros H. split; apply count_lookup_only; try exact H;
    intros ev Hev; destruct ev; try discriminate; reflexivity.
Qed.

(** One pass through the body of the loop. *)
Lemma subdoc_attempt_effect (CMD : protocol_binary_command) (rq : subdoc_request)
      (auto_retry : bool) (ret : ENGINE_ERROR_CODE) (w : World E) (res : attempt_end E) :
  attempt CMD rq auto_retry ret w = Some res ->
  (exists l,
      calls (world_of_end res) = calls w ++ l
      /\ count_calls is_get l <= 1
      /\ count_calls is_store l <= 1
      /\ (is_mutator (traits CMD) = false ->
          Forall (fun ev => is_lookup_call ev = true) l
          /\ res = Returned (world_of_end res))
      /\ (0 < count_calls is_store_eexists l ->
          (auto_retry = true ->
           res = Continue (world_of_end res)
           /\ responses (conn (world_of_end res)) = responses (conn w))
          /\ (auto_retry = false ->
              responses (conn (world_of_end res))
              = responses (conn w)
                ++ [engine_error_2_protocol_error ENGINE_KEY_EEXISTS]
              /\ ends_with_store_eexists l)))
  /\ (forall it, it <> NULL -> balance (world_of_end res) it = balance w it)
  /\ (forall w'', res = Continue w'' ->
                  auto_retry = true
                  /\ c_item (conn w'') = NULL
                  /\ commandContext (conn w'') = None).
Proof.
  unfold attempt, subdoc_attempt.
  destruct (subdoc_fetch E eng w ret (req_key rq) (req_vbucket rq))
    as [[b1 w1]|] eqn:Hf; [|discriminate].
  apply subdoc_fetch_effect in Hf as ((l1 & Hc1 & Hl1 & Hg1) & Hb1 & Hr1 & _).
  destruct (lookup_only_counts l1 Hl1) as [Hs1 He1].
  destruct b1.
  2:{ intros H. injection H as <-. cbn [world_of_end].
      split; [|split; [exact Hb1 | discriminate]].
      exists l1. repeat split; try assumption; try lia; exfalso; lia. }
  destruct (subdoc_operate E eng _ _ _ _ CMD w1 _ _ _ _) as [[b2 w2]|] eqn:Ho;
    [|discriminate].
  apply subdoc_operate_effect in Ho as ((l2 & Hc2 & Hl2 & Hg2) & Hb2 & Hi2 & Hx2 & Hr2).
  destruct (lookup_only_counts l2 Hl2) as [Hs2 He2].
  assert (Hl12 : Forall (fun ev => is_lookup_call ev = true) (l1 ++ l2))
    by (apply Forall_app; auto).
  destruct b2.
  2:{ intros H. injection H as <-. cbn [world_of_end].
      split; [|split; [intros it Hit; rewrite Hb2; auto | discriminate]].
      exists (l1 ++ l2). rewrite Hc2, Hc1, <- app_assoc. count_events.
      repeat split; try assumption; try lia; exfalso; lia. }
  destruct (subdoc_update E eng CMD w2 ret (req_key rq) (req_vbucket rq))
    as [[r3 w3]|] eqn:Hu; [|discriminate].
  apply subdoc_update_effect in Hu
    as ((l3 & Hc3 & Hg3 & Hs3 & Hnm3 & He3) & Hb3 & Hi3 & Hx3).
  pose proof (count_store_eexists_le l3) as Hle3.
  pose proof (count_calls_nonneg is_store_eexists l3) as Hnn3.
  assert (Hc123 : calls w3 = calls w ++ (l1 ++ l2 ++ l3))
    by (rewrite Hc3, Hc2, Hc1, <- !app_assoc; reflexivity).
  assert (Hb123 : forall it, it <> NULL -> balance w3 it = balance w it)
    by (intros it Hit; rewrite Hb3, Hb2; auto).
  assert (Hr12 : responses (conn w2) = responses (conn w))
    by (rewrite Hr2, Hr1; reflexivity).
  destruct (is_ENGINE_KEY_EEXISTS r3) eqn:Hee.
  - assert (Hmut : is_mutator (traits CMD) = false -> False).
    { intros Hm. destruct (Hnm3 Hm) as [_ ->]. discriminate. }
    destruct auto_retry.
    + intros H. injection H as <-. cbn [world_of_end].
      change (resetCommandContext E eng _) with (reset_cmd_handler E eng w3).
      destruct (reset_cmd_handler_effect w3) as ((l4 & Hc4 & Hg4 & Hs4 & _) & Hi4 & Hx4 & Hr4).
      cbv zeta in Hc4, Hi4, Hx4, Hr4.
      split; [|split].
      * exists (l1 ++ l2 ++ l3 ++ l4). rewrite Hc4, Hc123, <- !app_assoc.
        pose proof (count_store_eexists_le l4) as Hle4.
        pose proof (count_calls_nonneg is_store_eexists l4) as Hnn4.
        count_events.
        repeat split; try lia; try (exfalso; auto; fail); try discriminate.
        rewrite Hr4. destruct (He3 ltac:(lia)) as (_ & Hr3 & _). congruence.
      * intros it Hit. rewrite reset_cmd_handler_balance by exact Hit. auto.
      * intros w'' H. injection H as <-. auto.
    + intros H. injection H as <-. cbn [world_of_end]. simpl_world.
      split; [|split; [| discriminate]].
      * exists (l1 ++ l2 ++ l3). split; [exact Hc123|]. count_events.
        repeat split; try lia; try (exfalso; auto; fail); try discriminate.
        -- destruct (He3 ltac:(lia)) as (-> & Hr3 & _). congruence.
        -- destruct (He3 ltac:(lia)) as (_ & _ & (l0 & it & op & vb & cas & ->)).
           exists (l1 ++ l2 ++ l0), it, op, vb, cas. rewrite <- !app_assoc. reflexivity.
      * intros it Hit. rewrite <- (Hb123 it Hit). unfold balance, held. simpl_world.
        reflexivity.
  - assert (Hno : 0 < count_calls is_store_eexists l3 -> False).
    { intros H0. destruct (He3 H0) as (-> & _). discriminate. }
    destruct (negb (is_ENGINE_SUCCESS r3)) eqn:Hok.
    + intros H. injection H as <-. cbn [world_of_end].
      split; [|split; [exact Hb123 | discriminate]].
      exists (l1 ++ l2 ++ l3). split; [exact Hc123|]. count_events.
      repeat split; try lia; try (exfalso; lia).
      exfalso. destruct (Hnm3 H) as [_ ->]. discriminate.
    + destruct (subdoc_response E CMD _) as [w4|] eqn:Hrsp; [|discriminate].
      apply subdoc_response_effect in Hrsp as (Hc4 & _ & Hi4 & Hx4 & Hr4).
      unfold update_stats in *. simpl_world.
      intros H. injection H as <-. cbn [world_of_end].
      split; [|split; [| discriminate]].
      * exists (l1 ++ l2 ++ l3). split; [rewrite Hc4; simpl_world; exact Hc123|].
        count_events.
        repeat split; try lia; try (exfalso; lia).
        destruct (Hnm3 H) as [-> _]. rewrite app_nil_r. exact Hl12.
      * intros it Hit. rewrite <- (Hb123 it Hit). unfold balance.
        rewrite Hc4. simpl_world. f_equal.
        apply held_same; [rewrite Hi4; destruct (is_mutator _); reflexivity|].
        rewrite Hx4. destruct (is_mutator _); reflexivity.
Qed.

Lemma subdoc_attempt_no_abort (CMD : protocol_binary_command) (rq : subdoc_request)
      (auto_retry : bool) (ret : ENGINE_ERROR_CODE) (w : World E) :
  context_matches_item (conn w) ->
  attempt CMD rq auto_retry ret w <> None.
Proof.
  intros [Hwf1 Hwf2]. unfold attempt, subdoc_attempt.
  destruct (subdoc_fetch E eng w ret (req_key rq) (req_vbucket rq))
    as [[b1 w1]|] eqn:Hf.
  2:{ exfalso. revert Hf. apply subdoc_fetch_no_abort. exact Hwf1. }
  apply subdoc_fetch_effect in Hf as (_ & _ & _ & Hx1).
  destruct b1; [|discriminate].
  assert (Hctx1 : commandContext (conn w1) <> None).
  { apply Hx1; [reflexivity|]. intros Hi Hc. apply Hi. apply Hwf2. exact Hc. }
  destruct (subdoc_operate E eng _ _ _ _ CMD w1 _ _ _ _) as [[b2 w2]|] eqn:Ho.
  2:{ exfalso. revert Ho. apply subdoc_operate_no_abort. exact Hctx1. }
  apply subdoc_operate_effect in Ho as (_ & _ & _ & Hx2 & _).
  destruct b2; [|discriminate].
  destruct (subdoc_update E eng CMD w2 ret (req_key rq) (req_vbucket rq))
    as [[r3 w3]|] eqn:Hu.
  2:{ exfalso. revert Hu. apply subdoc_update_no_abort. exact Hx2. }
  apply subdoc_update_effect in Hu as (_ & _ & _ & Hx3).
  destruct (is_ENGINE_KEY_EEXISTS r3); [destruct auto_retry; discriminate|].
  destruct (negb (is_ENGINE_SUCCESS r3)); [discriminate|].
  destruct (subdoc_response E CMD _) as [w4|] eqn:Hrsp; [discriminate|].
  exfalso. revert Hrsp. apply subdoc_response_no_abort.
  unfold update_stats. simpl_world. destruct (is_mutator _); exact Hx3.
Qed.

Lemma subdoc_tmpfail_effect (w : World E) :
  calls (subdoc_tmpfail E w) = calls w
  /\ responses (conn (subdoc_tmpfail E w))
     = responses (conn w) ++ [engine_error_2_protocol_error ENGINE_TMPFAIL]
  /\ forall it, balance (subdoc_tmpfail E w) it = balance w it.
Proof.
  unfold subdoc_tmpfail. simpl_world. repeat split.
Qed.

(** The loop, entered for pass [attempts + 1] with [remaining] passes left. *)
Lemma executor_loop_effect (CMD : protocol_binary_command) (rq : subdoc_request)
      (auto_retry : bool) (remaining : nat) :
  forall (attempts : Z) (ret : ENGINE_ERROR_CODE) (w w' : World E) (n : Z),
    0 <= attempts ->
    attempts + Z.of_nat remaining = MAXIMUM_ATTEMPTS ->
    (0 < remaining)%nat ->
    loop CMD rq auto_retry remaining attempts ret w = Done w' n ->
    attempts < n <= MAXIMUM_ATTEMPTS
    /\ (exists l,
          calls w' = calls w ++ l
          /\ count_calls is_get l <= n - attempts
          /\ count_calls is_store l <= n - attempts
          /\ (auto_retry = true ->
              count_calls is_store_eexists l = n - attempts ->
              n = MAXIMUM_ATTEMPTS
              /\ responses (conn w')
                 = responses (conn w) ++ [engine_error_2_protocol_error ENGINE_TMPFAIL])
          /\ (auto_retry = false ->
              n = attempts + 1
              /\ (0 < count_calls is_store_eexists l ->
                  responses (conn w')
                  = responses (conn w)
                    ++ [engine_error_2_protocol_error ENGINE_KEY_EEXISTS]
                  /\ ends_with_store_eexists l))
          /\ (is_mutator (traits CMD) = false ->
              n = attempts + 1 /\ Forall (fun ev => is_lookup_call ev = true) l))
    /\ (forall it, it <> NULL -> balance w' it = balance w it).
Proof.
  unfold MAXIMUM_ATTEMPTS.
  induction remaining as [|remaining IH]; intros attempts ret w w' n Ha Hsum Hpos Hloop;
    [lia|].
  unfold loop in Hloop. cbn [executor_loop] in Hloop.
  fold loop in Hloop.
  destruct (subdoc_attempt E eng _ _ _ _ CMD rq auto_retry ret w) as [res|] eqn:Hatt;
    [|discriminate].
  apply subdoc_attempt_effect in Hatt
    as ((l1 & Hc1 & Hg1 & Hs1 & Hnm1 & He1) & Hb1 & Hcont1).
  pose proof (count_store_eexists_le l1) as Hle1.
  pose proof (count_calls_nonneg is_store_eexists l1) as Hnn1.
  destruct res as [w1 | w1]; cbn [world_of_end] in *.
  - injection Hloop as <- <-.
    split; [lia|]. split; [|exact Hb1].
    exists l1. split; [exact Hc1|].
    replace (attempts + 1 - attempts) with 1 by lia.
    repeat split; try lia; try (apply Hnm1; assumption).
    + exfalso. destruct (He1 ltac:(lia)) as [Hauto _].
      destruct (Hauto H) as [Hres _]. discriminate.
    + exfalso. destruct (He1 ltac:(lia)) as [Hauto _].
      destruct (Hauto H) as [Hres _]. discriminate.
    + apply He1; assumption.
    + apply He1; assumption.
  - destruct (Hcont1 w1 eq_refl) as (Hauto & Hi1 & Hx1). subst auto_retry.
    assert (Hmut : is_mutator (traits CMD) = false -> False).
    { intros Hm. destruct (Hnm1 Hm) as [_ Hres]. discriminate. }
    cbn [andb] in Hloop. unfold MAXIMUM_ATTEMPTS in Hloop.
    destruct (attempts + 1 <? 100) eqn:Hlt.
    + apply Z.ltb_lt in Hlt.
      apply IH in Hloop as (Hn & (l2 & Hc2 & Hg2 & Hs2 & Hex2 & _ & _) & Hb2);
        [| lia | lia | lia].
      pose proof (count_store_eexists_le l2) as Hle2.
      split; [lia|]. split.
      * exists (l1 ++ l2). rewrite Hc2, Hc1, <- app_assoc. split; [reflexivity|].
        count_events.
        split; [lia|]. split; [lia|]. split; [|split; [discriminate|]].
        -- intros _ Hcount.
           destruct (Hex2 eq_refl ltac:(lia)) as [-> ->].
           destruct (He1 ltac:(lia)) as [Hr1 _].
           destruct (Hr1 eq_refl) as [_ ->]. split; reflexivity.
        -- intros Hm. exfalso. auto.
      * intros it Hit. rewrite Hb2, Hb1; auto.
    + apply Z.ltb_ge in Hlt. injection Hloop as <- <-.
      destruct (subdoc_tmpfail_effect w1) as (Hct & Hrt & Hbt).
      split; [lia|]. split.
      * exists l1. rewrite Hct. split; [exact Hc1|].
        split; [lia|]. split; [lia|]. split; [|split; [discriminate|]].
        -- intros _ Hcount. split; [lia|].
           rewrite Hrt. destruct (He1 ltac:(lia)) as [Hr1 _].
           destruct (Hr1 eq_refl) as [_ ->]. reflexivity.
        -- intros Hm. exfalso. auto.
      * intros it Hit. rewrite Hbt. auto.
Qed.

Lemma executor_loop_no_abort (CMD : protocol_binary_command) (rq : subdoc_request)
      (auto_retry : bool) (remaining : nat) :
  forall (attempts : Z) (ret : ENGINE_ERROR_CODE) (w : World E),
    context_matches_item (conn w) ->
    loop CMD rq auto_retry remaining attempts ret w <> Aborted.
Proof.
  induction remaining as [|remaining IH]; intros attempts ret w Hwf;
    unfold loop; cbn [executor_loop]; [discriminate|].
  fold loop.
  destruct (subdoc_attempt E eng _ _ _ _ CMD rq auto_retry ret w) as [res|] eqn:Hatt.
  2:{ exfalso. revert Hatt. apply subdoc_attempt_no_abort. exact Hwf. }
  destruct res as [w1 | w1]; [discriminate|].
  apply subdoc_attempt_effect in Hatt as (_ & _ & Hcont).
  destruct (Hcont w1 eq_refl) as (_ & Hi & Hx).
  destruct (_ && _); [|discriminate].
  apply IH. split; auto.
Qed.

(** In [do ... while (auto_retry && attempts < MAXIMUM_ATTEMPTS)] the guard
    fails before the bound on the passes does: any larger bound gives the
    same run. *)
Lemma executor_loop_guard (CMD : protocol_binary_command) (rq : subdoc_request)
      (auto_retry : bool) (remaining : nat) :
  forall (extra : nat) (attempts : Z) (ret : ENGINE_ERROR_CODE) (w : World E),
    MAXIMUM_ATTEMPTS <= attempts + Z.of_nat remaining ->
    (0 < remaining)%nat ->
    loop CMD rq auto_retry (remaining + extra) attempts ret w
    = loop CMD rq auto_retry remaining attempts ret w.
Proof.
  induction remaining as [|remaining IH]; intros extra attempts ret w Hsum Hpos; [lia|].
  unfold loop. cbn [executor_loop Nat.add]. fold loop.
  destruct (subdoc_attempt E eng _ _ _ _ CMD rq auto_retry ret w) as [[w1 | w1]|];
    try reflexivity.
  destruct auto_retry; cbn [andb]; [|reflexivity].
  destruct (attempts + 1 <? MAXIMUM_ATTEMPTS) eqn:Hlt; [|reflexivity].
  apply Z.ltb_lt in Hlt. apply IH; lia.
Qed.

End ExecutorLoop.

(** ** The retry loop *)


Import Examples.


(** ** Items checked out of the engine *)

Lemma items_owned_balance {E : Type} (w : World E) :
  items_owned w <-> forall it, it <> NULL -> balance w it = 0.
Proof.
  unfold items_owned, balance. split; intros H it Hit; specialize (H it Hit); lia.
Qed.

(** C9.  From a connection that holds every item checked out of the engine,
    a run of [subdoc_executor] returns and leaves such a connection: every
    item still checked out is [c->item] or the [out_doc] of the command
    context, and once the connection has finished the command (it releases
    [c->item] and destroys the context) no item remains checked out.  The
    destructor of the context releases a non-null [out_doc]; a pass of the loop
    that ends in a retry leaves no item, no context and nothing checked out
    for the next fetch. *)
Theorem subdoc_executor_releases_items {P : Protocol} (E : Type)
        (eng : ENGINE_HANDLE_V1 E)
        (snappy_uncompressed_length : list byte -> option Z)
        (snappy_uncompress : list byte -> Z -> option (list byte))
        (growDynamicBuffer : DynamicBuffer -> Z -> bool * DynamicBuffer)
        (op_exec : Z -> list byte -> option (list byte) -> list byte
                   -> Subdoc_Error * Subdoc_Result)
        (CMD : protocol_binary_command) (w : World E) (packet : list byte) :
  context_matches_item (conn w) ->
  items_owned w ->
  (exists w' attempts,
      subdoc_executor E eng snappy_uncompressed_length snappy_uncompress
                      growDynamicBuffer op_exec CMD w packet = Done w' attempts
      /\ items_owned w'
      /\ forall it, it <> NULL ->
                    checked_out (calls (reset_cmd_handler E eng w')) it = 0)
  /\ (forall (ctx : SubdocCmdContext) (w0 : World E),
         out_doc ctx <> NULL ->
         calls (SubdocCmdContext_dtor E eng ctx w0)
         = calls w0 ++ [CallRelease (out_doc ctx)])
  /\ (forall (rq : subdoc_request) (auto_retry : bool) (ret : ENGINE_ERROR_CODE)
             (w0 w1 : World E),
         items_owned w0 ->
         subdoc_attempt E eng snappy_uncompressed_length snappy_uncompress
                        growDynamicBuffer op_exec CMD rq auto_retry ret w0
         = Some (Continue w1) ->
         c_item (conn w1) = NULL
         /\ commandContext (conn w1) = None
         /\ forall it, it <> NULL -> checked_out (calls w1) it = 0).
Proof.
  intros Hwf Hown. split; [|split].
  - unfold subdoc_executor.
    set (w0 := with_conn w (setAiostat (conn w) ENGINE_SUCCESS)).
    destruct (executor_loop E eng _ _ _ _ CMD (parse_request packet)
                            (req_cas (parse_request packet) =? 0)
                            (Z.to_nat MAXIMUM_ATTEMPTS) 0 (aiostat (conn w)) w0)
      as [w' n|] eqn:Hloop.
    + exists w', n. split; [reflexivity|].
      apply executor_loop_effect in Hloop as (_ & _ & Hb);
        [| lia | reflexivity | unfold MAXIMUM_ATTEMPTS; cbn; lia].
      assert (Hown' : forall it, it <> NULL -> balance w' it = 0).
      { intros it Hit. rewrite (Hb it Hit).
        apply (proj1 (items_owned_balance w) Hown it Hit). }
      split; [apply items_owned_balance; exact Hown'|].
      intros it Hit.
      pose proof (reset_cmd_handler_balance E eng w' it Hit) as Hr.
      destruct (reset_cmd_handler_effect E eng w') as (_ & Hi & Hx & _).
      cbv zeta in Hi, Hx.
      unfold balance at 1 in Hr. unfold held in Hr. rewrite Hi, Hx in Hr.
      rewrite (Hown' it Hit) in Hr.
      destruct (NULL =? it) eqn:Hn; [apply Z.eqb_eq in Hn; congruence|]. lia.
    + exfalso. revert Hloop. apply executor_loop_no_abort. exact Hwf.
  - intros ctx w0 Hout. unfold SubdocCmdContext_dtor, engine_release.
    apply Z.eqb_neq in Hout. rewrite Hout. reflexivity.
  - intros rq auto_retry ret w0 w1 Hown0 Hatt.
    apply subdoc_attempt_effect in Hatt as (_ & Hb & Hcont).
    destruct (Hcont w1 eq_refl) as (_ & Hi & Hx).
    split; [exact Hi|]. split; [exact Hx|].
    intros it Hit. cbn [world_of_end] in Hb.
    pose proof (Hb it Hit) as Hbal.
    rewrite (proj1 (items_owned_balance w0) Hown0 it Hit) in Hbal.
    unfold balance, held in Hbal. rewrite Hi, Hx in Hbal.
    destruct (NULL =? it) eqn:Hn; [apply Z.eqb_eq in Hn; congruence|]. lia.
Qed.

Lemma subdoc_executor_releases_items_witness :
  exists w' attempts,
    run PROTOCOL_BINARY_CMD_SUBDOC_DICT_ADD
        (world_of (engine_with (doc_info 7 Byte.x01 one_segment) (ENGINE_SUCCESS, 8)))
        (dict_add_request 0) = Done w' attempts
    /\ items_owned w'
    /\ forall it, it <> NULL ->
                  checked_out
                    (calls (reset_cmd_handler ScriptEngine.state ScriptEngine.handle w'))
                    it = 0.
Proof.
  apply (subdoc_executor_releases_items
           (P := Mcbp.protocol) ScriptEngine.state ScriptEngine.handle
           copy_uncompressed_length copy_uncompress grow_always append_op
           PROTOCOL_BINARY_CMD_SUBDOC_DICT_ADD
           (world_of (engine_with (doc_info 7 Byte.x01 one_segment) (ENGINE_SUCCESS, 8)))
           (dict_add_request 0)).
  - vm_compute. split; reflexivity.
  - intros it Hit. unfold checked_out, held.
    change (calls (world_of (engine_with (doc_info 7 Byte.x01 one_segment)
                                         (ENGINE_SUCCESS, 8))))
      with (@nil engine_call).
    change (conn (world_of (engine_with (doc_info 7 Byte.x01 one_segment)
                                        (ENGINE_SUCCESS, 8))))
      with idle_connection.
    change (c_item idle_connection) with NULL.
    change (commandContext idle_connection) with (@None SubdocCmdContext).
    destruct (NULL =? it) eqn:Hn; [apply Z.eqb_eq in Hn; congruence | reflexivity].
Defined.

(** ** The update step *)

Lemma new_doc_length_total (frags : list (list byte)) :
  new_doc_length frags = total_length frags.
Proof.
  unfold new_doc_length, total_length.
  enough (H : forall acc, fold_left (fun n (loc : list byte) => n + zlen loc) frags acc
                          = acc + fold_right Z.add 0 (map zlen frags))
    by (rewrite H; lia).
  induction frags as [|loc frags IH]; intros acc; cbn [fold_left fold_right map]; [lia|].
  rewrite IH. lia.
Qed.

Lemma total_length_concat (frags : list (list byte)) :
  total_length frags = zlen (concat frags).
Proof.
  unfold total_length.
  induction frags as [|loc frags IH]; cbn [fold_right map concat]; [reflexivity|].
  rewrite zlen_app, IH. reflexivity.
Qed.

(** The copies of [copy_newdoc], replayed on a buffer with room for the
    fragments, leave their concatenation in order. *)
Lemma replay_newdoc_copies (base : Z) (frags : list (list byte)) :
  forall done rest : list byte,
    (length (concat frags) <= length rest)%nat ->
    replay_memcpy base (done ++ rest) (newdoc_copies (base + zlen done) frags)
    = done ++ concat frags ++ skipn (length (concat frags)) rest.
Proof.
  induction frags as [|loc frags IH]; intros done rest Hroom;
    cbn [newdoc_copies replay_memcpy concat].
  - reflexivity.
  - cbn [concat] in Hroom. rewrite length_app in Hroom.
    unfold apply_memcpy.
    replace (Z.to_nat (base + zlen done - base)) with (length done)
      by (unfold zlen; lia).
    rewrite firstn_app, firstn_all, Nat.sub_diag, firstn_O, app_nil_r.
    rewrite skipn_app, (skipn_all2 done) by lia.
    replace (length done + length loc - length done)%nat with (length loc) by lia.
    cbn [app].
    replace (base + zlen done + zlen loc) with (base + zlen (done ++ loc))
      by (rewrite zlen_app; lia).
    rewrite (app_assoc done loc), IH by (rewrite length_skipn; lia).
    rewrite skipn_skipn, <- !app_assoc, length_app.
    rewrite (Nat.add_comm (length (concat frags)) (length loc)). reflexivity.
Qed.

Section UpdateStep.

Context {P : Protocol}.

Variable E : Type.
Variable eng : ENGINE_HANDLE_V1 E.

Ltac simpl_world :=
  cbn [conn calls engine with_conn called
       aiostat c_item commandContext ewouldblock c_state c_cas dynamicBuffer
       write_buf iov responses msghdr_available cmd_set get_hits topkeys
       setAiostat set_item setCommandContext setEwouldblock setState setCAS
       setDynamicBuffer set_write_buf set_iov set_responses set_stats
       write_bin_packet add_iov
       in_doc in_cas result out_doc set_result set_in_doc set_out_doc
       new_SubdocCmdContext fst snd].

Lemma update_call_ok_copies (key : list byte) (nbytes cas vbucket p : Z)
      (frags : list (list byte)) :
  Forall (update_call_ok key nbytes cas vbucket) (newdoc_copies p frags).
Proof.
  revert p. induction frags as [|loc frags IH]; intros p; cbn [newdoc_copies];
    constructor; [exact I | apply IH].
Qed.

(** Every call of [subdoc_update] is one of those the update of a document
    may make. *)
Lemma subdoc_update_calls (CMD : protocol_binary_command) (w : World E)
      (ret : ENGINE_ERROR_CODE) (key : list byte) (vbucket : Z)
      (ctx : SubdocCmdContext) (r : ENGINE_ERROR_CODE) (w' : World E) :
  commandContext (conn w) = Some ctx ->
  subdoc_update E eng CMD w ret key vbucket = Some (r, w') ->
  exists l,
    calls w' = calls w ++ l
    /\ Forall (update_call_ok key (total_length (newdoc (result ctx))) (in_cas ctx)
                              vbucket) l.
Proof.
  intros Hctx. unfold subdoc_update. rewrite Hctx.
  rewrite new_doc_length_total.
  set (nbytes := total_length (newdoc (result ctx))).
  assert (Hstore : forall (w1 : World E) (ctx1 : SubdocCmdContext) (l1 : list engine_call),
             calls w1 = calls w ++ l1 ->
             Forall (update_call_ok key nbytes (in_cas ctx) vbucket) l1 ->
             subdoc_update_store E eng w1 ctx1 vbucket = (r, w') ->
             exists l, calls w' = calls w ++ l
                       /\ Forall (update_call_ok key nbytes (in_cas ctx) vbucket) l).
  { intros w1 ctx1 l1 Hc1 Hl1 Hst.
    pose proof (subdoc_update_store_effect E eng w1 ctx1 vbucket) as Hse.
    rewrite Hst in Hse. destruct Hse as (new_cas & Hc & _).
    eexists. rewrite Hc, Hc1, <- app_assoc. split; [reflexivity|].
    apply Forall_app. split; [exact Hl1|]. repeat constructor. }
  destruct (negb (is_mutator (traits CMD))).
  { intros H. injection H as <- <-. exists []. simpl_world.
    rewrite app_nil_r. split; [reflexivity | constructor]. }
  destruct (out_doc ctx =? NULL).
  - unfold subdoc_update_allocate, engine_allocate, engine_item_set_cas,
      engine_get_item_info.
    destruct (is_ENGINE_SUCCESS ret) eqn:Hret.
    + destruct (allocate eng (engine w) key nbytes 0 0 PROTOCOL_BINARY_DATATYPE_JSON)
        as [[r0 new_doc] e'].
      destruct r0; simpl_world;
        try (intros H; injection H as <- <-; simpl_world;
             eexists; split; [reflexivity|]; repeat constructor).
      destruct (get_item_info eng _ new_doc) as [info|]; simpl_world.
      * match goal with
        | |- context [copy_newdoc E eng ?w0 ?p ?f] =>
            destruct (copy_newdoc_effect E eng f w0 p) as [Hc Hn]
        end.
        intros H. injection H as H.
        eapply Hstore; [| | exact H].
        -- rewrite Hc. simpl_world. rewrite <- !app_assoc. reflexivity.
        -- repeat (apply Forall_cons; [cbn; auto|]).
           apply update_call_ok_copies.
      * intros H. injection H as <- <-. simpl_world.
        eexists. rewrite <- !app_assoc. split; [reflexivity|].
        repeat (apply Forall_cons; [cbn; auto|]). constructor.
    + destruct ret; try discriminate; simpl_world;
        intros H; injection H as <- <-; simpl_world;
        exists []; rewrite app_nil_r; (split; [reflexivity | constructor]).
  - intros H. injection H as H.
    apply (Hstore w ctx []); [symmetry; apply app_nil_r | constructor | exact H].
Qed.

(** The engine calls of the update step.  For a mutator, each of them is one
    of: an allocation for the key of as many bytes as the fragments of
    [newdoc] have together, with datatype JSON; [item_set_cas] with the CAS observed at
    fetch; copies; a [store] with [OPERATION_REPLACE] under the request's
    vbucket.  When the step is entered without an output item and the engine
    grants the allocation and the item info, the calls are exactly: that
    allocation, [item_set_cas] of the new item to the fetched CAS, the copies
    of the fragments one after the other from the start of the item's buffer
    (which leave in a buffer of that size their concatenation in order), and
    the [store] of that item; on ENGINE_SUCCESS the connection's CAS is the one
    the engine returned. *)
Theorem subdoc_update_stores_new_document (CMD : protocol_binary_command)
        (w : World E) (key : list byte) (vbucket : Z) (ctx : SubdocCmdContext) :
  is_mutator (traits CMD) = true ->
  commandContext (conn w) = Some ctx ->
  let frags := newdoc (result ctx) in
  (forall ret r w',
      subdoc_update E eng CMD w ret key vbucket = Some (r, w') ->
      exists l,
        calls w' = calls w ++ l
        /\ Forall (update_call_ok key (total_length frags) (in_cas ctx) vbucket) l)
  /\ (forall new_doc e1 info,
         out_doc ctx = NULL ->
         allocate eng (engine w) key (total_length frags) 0 0
                  PROTOCOL_BINARY_DATATYPE_JSON
         = (ENGINE_SUCCESS, new_doc, e1) ->
         get_item_info eng (item_set_cas eng e1 new_doc (in_cas ctx)) new_doc
         = Some info ->
         exists r new_cas w',
           subdoc_update E eng CMD w ENGINE_SUCCESS key vbucket = Some (r, w')
           /\ calls w'
              = calls w
                ++ [CallAllocate key (total_length frags) 0 0
                                 PROTOCOL_BINARY_DATATYPE_JSON ENGINE_SUCCESS new_doc;
                    CallItemSetCas new_doc (in_cas ctx);
                    CallGetItemInfo new_doc true]
                ++ newdoc_copies (iov_base (info_value0 info)) frags
                ++ [CallStore new_doc OPERATION_REPLACE vbucket r new_cas]
           /\ (forall data : list byte,
                  zlen data = total_length frags ->
                  replay_memcpy (iov_base (info_value0 info)) data
                                (newdoc_copies (iov_base (info_value0 info)) frags)
                  = concat frags)
           /\ (r = ENGINE_SUCCESS -> c_cas (conn w') = new_cas)).
Proof.
  intros Hmut Hctx frags. split.
  - intros ret r w' Hu. eapply subdoc_update_calls; eassumption.
  - intros new_doc e1 info Hout Halloc Hinfo.
    unfold subdoc_update. rewrite Hctx, Hmut. cbn [negb].
    apply Z.eqb_eq in Hout. rewrite Hout.
    unfold subdoc_update_allocate, engine_allocate, engine_item_set_cas,
      engine_get_item_info.
    cbn [is_ENGINE_SUCCESS]. rewrite new_doc_length_total. fold frags.
    rewrite Halloc. simpl_world. rewrite Hinfo.
    match goal with
    | |- context [copy_newdoc E eng ?w0 ?p ?f] =>
        destruct (copy_newdoc_effect E eng f w0 p) as [Hc Hn];
        set (w2 := copy_newdoc E eng w0 p f) in *
    end.
    pose proof (subdoc_update_store_effect E eng w2 (set_out_doc ctx new_doc) vbucket)
      as Hse.
    destruct (subdoc_update_store E eng w2 (set_out_doc ctx new_doc) vbucket)
      as [r w'].
    destruct Hse as (new_cas & Hcs & _ & _ & _ & Hok).
    exists r, new_cas, w'. split; [reflexivity|]. split; [|split].
    + rewrite Hcs, Hc. simpl_world. rewrite <- !app_assoc. reflexivity.
    + intros data Hlen.
      pose proof (replay_newdoc_copies (iov_base (info_value0 info)) frags [] data) as Hr.
      rewrite zlen_nil, Z.add_0_r in Hr. cbn [app] in Hr.
      rewrite Hr.
      * rewrite skipn_all2, app_nil_r; [reflexivity|].
        rewrite total_length_concat in Hlen. unfold zlen in Hlen. lia.
      * rewrite total_length_concat in Hlen. unfold zlen in Hlen. lia.
    + intros Hr. apply Hok. exact Hr.
Qed.

End UpdateStep.

Lemma subdoc_update_stores_new_document_witness :
  exists r new_cas w',
    subdoc_update (P := Mcbp.protocol) ScriptEngine.state ScriptEngine.handle
                  PROTOCOL_BINARY_CMD_SUBDOC_DICT_ADD
                  (operated_world (ENGINE_SUCCESS, 9)) ENGINE_SUCCESS key_k 0
    = Some (r, w')
    /\ calls w'
       = [CallAllocate key_k 8 0 0 Byte.x01 ENGINE_SUCCESS 2;
          CallItemSetCas 2 7;
          CallGetItemInfo 2 true;
          CallMemcpy 131072 doc_a1;
          CallMemcpy 131079 value_1;
          CallStore 2 OPERATION_REPLACE 0 r new_cas]
    /\ replay_memcpy 131072 (repeat Byte.x00 8)
                     [CallMemcpy 131072 doc_a1; CallMemcpy 131079 value_1]
       = doc_a1 ++ value_1
    /\ (r = ENGINE_SUCCESS -> c_cas (conn w') = new_cas).
Proof.
  destruct (subdoc_update_stores_new_document
              (P := Mcbp.protocol) ScriptEngine.state ScriptEngine.handle
              PROTOCOL_BINARY_CMD_SUBDOC_DICT_ADD
              (operated_world (ENGINE_SUCCESS, 9)) key_k 0 operated_context
              eq_refl eq_refl) as [_ H].
  destruct (H 2 _ _ eq_refl eq_refl eq_refl) as (r & new_cas & w' & Hu & Hc & Hm & Hcas).
  exists r, new_cas, w'. split; [exact Hu|]. split; [exact Hc|].
  split; [apply (Hm (repeat Byte.x00 8)); reflexivity | exact Hcas].
Defined.

(** With chunks that hold the whole new document, the item that the update
    step stores is the concatenation of the fragments. *)
Lemma subdoc_update_fills_single_segment :
  exists w',
    ChunkedEngine.run PROTOCOL_BINARY_CMD_SUBDOC_DICT_ADD (ChunkedEngine.world 64)
                      (dict_add_request 0) = Done w' 1
    /\ option_map info_value (ChunkedEngine.chunked_get_item_info (engine w') 2)
       = Some [ {| iov_base := 131072; iov_data := doc_a1 ++ value_1 |} ]
    /\ ChunkedEngine.stored (engine w') = [(2, concat [doc_a1; value_1])].
Proof.
  eexists. split; [vm_compute; reflexivity|]. split; vm_compute; reflexivity.
Qed.

(** C2.  The update step copies the fragments of the new document to
    [value[0].iov_base] of the new item without looking at [nvalue] or
    [iov_len] of its item info.  On an engine that keeps values in chunks of
    7 bytes, a DICT_ADD that makes the 8-byte document [{"a":1}1] out of the
    stored 7-byte document gets a new item of two segments (7 bytes at
    131072, 1 byte at 135168): the executor copies 7 and then 1 byte from
    131072 on, so that the last byte lands at 131079, past the first segment
    and outside the item; the second segment is never written.  The [store]
    succeeds and the client is answered with a response header of status 0,
    but the value of the stored item is not the concatenation of the
    fragments. *)
Theorem subdoc_update_overruns_first_segment :
  exists w' h,
    ChunkedEngine.run PROTOCOL_BINARY_CMD_SUBDOC_DICT_ADD (ChunkedEngine.world 7)
                      (dict_add_request 0) = Done w' 1
    /\ calls w'
       = [CallGet key_k 0 ENGINE_SUCCESS 1;
          CallGetItemInfo 1 true;
          CallAllocate key_k 8 0 0 Byte.x01 ENGINE_SUCCESS 2;
          CallItemSetCas 2 7;
          CallGetItemInfo 2 true;
          CallMemcpy 131072 doc_a1;
          CallMemcpy 131079 value_1;
          CallStore 2 OPERATION_REPLACE 0 ENGINE_SUCCESS 8]
    /\ option_map info_value (ChunkedEngine.chunked_get_item_info (engine w') 2)
       = Some [ {| iov_base := 131072; iov_data := doc_a1 |};
                {| iov_base := 135168; iov_data := [Byte.x00] |} ]
    /\ ChunkedEngine.peek (ChunkedEngine.memory (engine w')) 131079 = Byte.x31
    /\ option_map (fun ctx => newdoc (result ctx)) (commandContext (conn w'))
       = Some [doc_a1; value_1]
    /\ ChunkedEngine.stored (engine w') = [(2, doc_a1 ++ [Byte.x00])]
    /\ doc_a1 ++ [Byte.x00] <> concat [doc_a1; value_1]
    /\ responses (conn w') = []
    /\ write_buf (conn w') = Some h
    /\ rsp_status h = 0
    /\ c_cas (conn w') = 8.
Proof.
  eexists. eexists. split; [vm_compute; reflexivity|].
  repeat split; try (vm_compute; reflexivity).
  vm_compute. discriminate.
Qed.

(** ** The response *)

Lemma byte_of_Z_mod (a b : Z) : a mod 256 = b mod 256 -> byte_of_Z a = byte_of_Z b.
Proof. intros H. unfold byte_of_Z. rewrite H. reflexivity. Qed.

Lemma div_mod_low (v k m : Z) :
  0 < k -> 0 < m -> ((v mod (k * 256 * m)) / k) mod 256 = (v / k) mod 256.
Proof.
  intros Hk Hm.
  rewrite (Z.div_mod v (k * 256 * m)) at 2 by lia.
  replace (k * 256 * m * (v / (k * 256 * m)) + v mod (k * 256 * m))
    with (v mod (k * 256 * m) + (256 * m * (v / (k * 256 * m))) * k) by ring.
  rewrite Z.div_add by lia.
  replace (256 * m * (v / (k * 256 * m))) with (m * (v / (k * 256 * m)) * 256) by ring.
  rewrite Z_mod_plus_full. reflexivity.
Qed.

Lemma enc_be32_wrap (v : Z) : enc_be32 (v mod 2 ^ 32) = enc_be32 v.
Proof.
  unfold enc_be32.
  change (2 ^ 32) with 4294967296. change (2 ^ 24) with 16777216.
  change (2 ^ 16) with 65536. change (2 ^ 8) with 256.
  assert (H0 : (v mod 4294967296) mod 256 = v mod 256).
  { pose proof (div_mod_low v 1 16777216 ltac:(lia) ltac:(lia)) as H.
    rewrite !Z.div_1_r in H. exact H. }
  rewrite (byte_of_Z_mod _ _ H0).
  apply (f_equal2 (@cons byte));
    [apply byte_of_Z_mod, (div_mod_low v 16777216 1); lia|].
  apply (f_equal2 (@cons byte));
    [apply byte_of_Z_mod, (div_mod_low v 65536 256); lia|].
  apply (f_equal2 (@cons byte));
    [apply byte_of_Z_mod, (div_mod_low v 256 65536); lia | reflexivity].
Qed.

Lemma be32_app_r (pre l : list byte) (i : Z) :
  0 <= i -> be32 (pre ++ l) (zlen pre + i) = be32 l i.
Proof.
  intros Hi. unfold be32, u8.
  rewrite <- !Z.add_assoc, !byte_at_app_r by lia. reflexivity.
Qed.

(** [ntohll] reads back what [htonll] wrote. *)
Lemma be64_enc (v : Z) : 0 <= v < 2 ^ 64 -> be64 (enc_be64 v) 0 = v.
Proof.
  intros Hv. unfold be64, enc_be64.
  assert (Hhi : 0 <= v / 2 ^ 32 < 2 ^ 32).
  { split; [apply Z.div_pos; lia|].
    apply Z.div_lt_upper_bound; [lia|]. change (2 ^ 32 * 2 ^ 32) with (2 ^ 64). lia. }
  rewrite be32_enc by exact Hhi.
  change (0 + 4) with (zlen (enc_be32 (v / 2 ^ 32)) + 0).
  rewrite be32_app_r by lia.
  rewrite <- (enc_be32_wrap v), <- (app_nil_r (enc_be32 _)).
  rewrite be32_enc by (apply Z.mod_pos_bound; lia).
  rewrite (Z.div_mod v (2 ^ 32)) at 3 by lia. ring.
Qed.

Section Responses.

Context {P : Protocol}.

Variable E : Type.
Variable eng : ENGINE_HANDLE_V1 E.
Variable snappy_uncompressed_length : list byte -> option Z.
Variable snappy_uncompress : list byte -> Z -> option (list byte).
Variable growDynamicBuffer : DynamicBuffer -> Z -> bool * DynamicBuffer.
Variable op_exec :
  Z -> list byte -> option (list byte) -> list byte -> Subdoc_Error * Subdoc_Result.

Ltac simpl_world :=
  cbn [conn calls engine with_conn called
       aiostat c_item commandContext ewouldblock c_state c_cas dynamicBuffer
       write_buf iov responses msghdr_available cmd_set get_hits topkeys
       setAiostat set_item setCommandContext setEwouldblock setState setCAS
       setDynamicBuffer set_write_buf set_iov set_responses set_stats
       write_bin_packet add_iov
       in_doc in_cas result out_doc set_result set_in_doc set_out_doc
       new_SubdocCmdContext fst snd].

(** A successful materialisation went past the three checks and reports the
    item's CAS. *)
Lemma materialise_success (w w' : World E) (it : item) (in_cas cas : Z)
      (doc : sized_buffer) :
  get_document_for_searching E eng snappy_uncompressed_length snappy_uncompress
                             growDynamicBuffer w it in_cas
  = (PROTOCOL_BINARY_RESPONSE_SUCCESS, doc, cas, w') ->
  exists info,
    get_item_info eng (engine w) it = Some info
    /\ info_nvalue info = 1
    /\ (in_cas = 0 \/ in_cas = info_cas info)
    /\ cas = info_cas info.
Proof.
  unfold get_document_for_searching, engine_get_item_info.
  destruct (get_item_info eng (engine w) it) as [info|]; [|discriminate].
  destruct (info_nvalue info =? 1) eqn:Hn; cbn [negb]; [|discriminate].
  destruct (in_cas =? 0) eqn:H0; cbn [negb andb].
  - intros H. exists info. apply Z.eqb_eq in Hn, H0.
    split; [reflexivity|]. split; [exact Hn|]. split; [left; exact H0|].
    revert H.
    destruct (Byte.eqb _ _); [intros H; injection H as _ <- _; reflexivity|].
    destruct (Byte.eqb _ _).
    + destruct (snappy_uncompressed_length _); [|discriminate].
      destruct (growDynamicBuffer _ _) as [[|] dbuf]; cbn [negb]; [|discriminate].
      destruct (snappy_uncompress _ _); [|discriminate].
      intros H; injection H as _ <- _; reflexivity.
    + destruct (_ || _); discriminate.
  - destruct (in_cas =? info_cas info) eqn:Hc; cbn [negb]; [|discriminate].
    intros H. exists info. apply Z.eqb_eq in Hn, Hc.
    split; [reflexivity|]. split; [exact Hn|]. split; [right; exact Hc|].
    revert H.
    destruct (Byte.eqb _ _); [intros H; injection H as _ <- _; reflexivity|].
    destruct (Byte.eqb _ _).
    + destruct (snappy_uncompressed_length _); [|discriminate].
      destruct (growDynamicBuffer _ _) as [[|] dbuf]; cbn [negb]; [|discriminate].
      destruct (snappy_uncompress _ _); [|discriminate].
      intros H; injection H as _ <- _; reflexivity.
    + destruct (_ || _); discriminate.
Qed.

(** When [subdoc_operate] materialises the document and the operation
    succeeds, the context holds the CAS of the fetched item. *)
Lemma subdoc_operate_records_cas (CMD : protocol_binary_command) (w w' : World E)
      (path value : list byte) (flags in_cas0 : Z) (ctx : SubdocCmdContext) :
  commandContext (conn w) = Some ctx ->
  buf (in_doc ctx) = NULL ->
  subdoc_operate E eng snappy_uncompressed_length snappy_uncompress growDynamicBuffer
                 op_exec CMD w path value flags in_cas0 = Some (true, w') ->
  exists info ctx',
    get_item_info eng (engine w) (c_item (conn w)) = Some info
    /\ info_nvalue info = 1
    /\ (in_cas0 = 0 \/ in_cas0 = info_cas info)
    /\ commandContext (conn w') = Some ctx'
    /\ in_cas ctx' = info_cas info
    /\ out_doc ctx' = out_doc ctx
    /\ msghdr_available (conn w') = msghdr_available (conn w)
    /\ c_item (conn w') = c_item (conn w).
Proof.
  intros Hctx Hbuf. unfold subdoc_operate. rewrite Hctx.
  apply Z.eqb_eq in Hbuf. rewrite Hbuf.
  pose proof (materialise_frame E eng snappy_uncompressed_length snappy_uncompress
                                growDynamicBuffer w (c_item (conn w)) in_cas0) as Hm.
  destruct (get_document_for_searching _ _ _ _ _ _ _ _)
    as [[[status doc] doc_cas] w1] eqn:Hmat.
  destruct Hm as (_ & _ & Hconn).
  destruct status; cbn [is_RESPONSE_SUCCESS negb]; try discriminate.
  apply materialise_success in Hmat as (info & Hinfo & Hn & Hcas & ->).
  destruct (op_exec _ _ _ _) as [subdoc_res res].
  destruct (subdoc_error_response subdoc_res); [discriminate|].
  intros H. injection H as <-.
  exists info. eexists. simpl_world.
  repeat (split; [first [eassumption | reflexivity]|]).
  rewrite Hconn. simpl_world. split; reflexivity.
Qed.

(** C10.  With a command context and room for a header, [subdoc_response]
    leaves in the write buffer a header with status 0, extras length 0, key
    length 0 and datatype RAW_BYTES - which is not the JSON datatype - whose CAS
    field holds the connection's CAS in network byte order (read back by
    [ntohll] it is that CAS); the body length is that of the match location
    when the command's traits say [response_has_value] and 0 otherwise, and
    the match location is appended to the iovecs exactly in the first case.
    No status-only packet is written and the connection goes to
    [conn_mwrite]. *)
Theorem subdoc_response_header (CMD : protocol_binary_command) (w : World E)
        (ctx : SubdocCmdContext) :
  commandContext (conn w) = Some ctx ->
  msghdr_available (conn w) = true ->
  exists w' h,
    subdoc_response E CMD w = Some w'
    /\ write_buf (conn w') = Some h
    /\ rsp_status h = 0
    /\ rsp_extlen h = 0
    /\ rsp_keylen h = 0
    /\ rsp_datatype h = PROTOCOL_BINARY_RAW_BYTES
    /\ rsp_datatype h <> PROTOCOL_BINARY_DATATYPE_JSON
    /\ rsp_cas h = enc_be64 (c_cas (conn w))
    /\ (0 <= c_cas (conn w) < 2 ^ 64 -> be64 (rsp_cas h) 0 = c_cas (conn w))
    /\ rsp_bodylen h
       = (if response_has_value (traits CMD) then zlen (matchloc (result ctx)) else 0)
    /\ iov (conn w')
       = (if response_has_value (traits CMD)
          then iov (conn w) ++ [matchloc (result ctx)]
          else iov (conn w))
    /\ responses (conn w') = responses (conn w)
    /\ c_state (conn w') = conn_mwrite.
Proof.
  intros Hctx Hroom.
  unfold subdoc_response, add_bin_header, set_response_cas. rewrite Hctx.
  destruct (response_has_value (traits CMD)); rewrite Hroom; simpl_world;
    eexists; eexists; (split; [reflexivity|]); simpl_world;
    (split; [reflexivity|]); cbn [rsp_status rsp_extlen rsp_keylen rsp_datatype
                                   rsp_cas rsp_bodylen];
    repeat (split; [first [reflexivity | apply datatype_RAW_not_JSON
                          | intros Hc; apply be64_enc; exact Hc]|]);
    reflexivity.
Qed.

End Responses.

Lemma subdoc_response_header_witness :
  exists w' h,
    subdoc_response (P := Mcbp.protocol) ScriptEngine.state
                    PROTOCOL_BINARY_CMD_SUBDOC_GET
                    (with_conn (operated_world (ENGINE_SUCCESS, 9))
                               (setCAS (conn (operated_world (ENGINE_SUCCESS, 9))) 7))
    = Some w'
    /\ write_buf (conn w') = Some h
    /\ rsp_extlen h = 0
    /\ rsp_keylen h = 0
    /\ rsp_datatype h = Byte.x00
    /\ be64 (rsp_cas h) 0 = 7
    /\ iov (conn w') = [doc_a1].
Proof.
  destruct (subdoc_response_header
              (P := Mcbp.protocol) ScriptEngine.state
              PROTOCOL_BINARY_CMD_SUBDOC_GET
              (with_conn (operated_world (ENGINE_SUCCESS, 9))
                         (setCAS (conn (operated_world (ENGINE_SUCCESS, 9))) 7))
              operated_context eq_refl eq_refl)
    as (w' & h & Hr & Hh & _ & He & Hk & Hd & _ & _ & Hcas & _ & Hiov & _).
  exists w', h. repeat (split; [assumption|]).
  split; [apply Hcas; vm_compute; split; [discriminate | reflexivity] | exact Hiov].
Defined.

(** ** Lookups *)

Section Lookups.

Context {P : Protocol}.

Variable E : Type.
Variable eng : ENGINE_HANDLE_V1 E.
Variable snappy_uncompressed_length : list byte -> option Z.
Variable snappy_uncompress : list byte -> Z -> option (list byte).
Variable growDynamicBuffer : DynamicBuffer -> Z -> bool * DynamicBuffer.
Variable op_exec :
  Z -> list byte -> option (list byte) -> list byte -> Subdoc_Error * Subdoc_Result.

Ltac simpl_world :=
  cbn [conn calls engine with_conn called
       aiostat c_item commandContext ewouldblock c_state c_cas dynamicBuffer
       write_buf iov responses msghdr_available cmd_set get_hits topkeys
       setAiostat set_item setCommandContext setEwouldblock setState setCAS
       setDynamicBuffer set_write_buf set_iov set_responses set_stats
       write_bin_packet add_iov
       in_doc in_cas result out_doc set_result set_in_doc set_out_doc
       new_SubdocCmdContext fst snd].

(** C8.  For a command whose traits say it is no mutator: the update step
    asks nothing of the engine and only copies the CAS recorded at fetch into
    the connection; a whole run of the executor makes one pass whose engine
    calls are [get] and [get_item_info] only (no [allocate], no [store]); and
    when [subdoc_operate] has materialised the fetched item, the response
    written after the update step carries that item's CAS. *)
Theorem lookup_commands_leave_document (CMD : protocol_binary_command) :
  is_mutator (traits CMD) = false ->
  (forall (w : World E) ret key vbucket ctx,
      commandContext (conn w) = Some ctx ->
      subdoc_update E eng CMD w ret key vbucket
      = Some (ENGINE_SUCCESS, with_conn w (setCAS (conn w) (in_cas ctx))))
  /\ (forall (w w' : World E) packet attempts,
         subdoc_executor E eng snappy_uncompressed_length snappy_uncompress
                         growDynamicBuffer op_exec CMD w packet = Done w' attempts ->
         attempts = 1
         /\ exists l,
             calls w' = calls w ++ l
             /\ Forall (fun ev => is_lookup_call ev = true) l
             /\ count_calls is_allocate l = 0
             /\ count_calls is_store l = 0)
  /\ (forall (w0 w : World E) ctx0 path value flags req_cas ret key vbucket,
         commandContext (conn w0) = Some ctx0 ->
         buf (in_doc ctx0) = NULL ->
         msghdr_available (conn w0) = true ->
         subdoc_operate E eng snappy_uncompressed_length snappy_uncompress
                        growDynamicBuffer op_exec CMD w0 path value flags req_cas
         = Some (true, w) ->
         exists info w1 w2 h,
           get_item_info eng (engine w0) (c_item (conn w0)) = Some info
           /\ subdoc_update E eng CMD w ret key vbucket = Some (ENGINE_SUCCESS, w1)
           /\ subdoc_response E CMD (update_stats E CMD w1 key) = Some w2
           /\ calls w2 = calls w
           /\ engine w2 = engine w
           /\ c_cas (conn w2) = info_cas info
           /\ write_buf (conn w2) = Some h
           /\ rsp_cas h = enc_be64 (info_cas info)
           /\ (0 <= info_cas info < 2 ^ 64 -> be64 (rsp_cas h) 0 = info_cas info)).
Proof.
  intros Hnm. split; [|split].
  - intros w ret key vbucket ctx Hctx. unfold subdoc_update.
    rewrite Hctx, Hnm. reflexivity.
  - intros w w' packet attempts Hrun. unfold subdoc_executor in Hrun.
    apply executor_loop_effect in Hrun
      as (_ & (l & Hc & _ & _ & _ & _ & Hlook) & _);
      [| lia | reflexivity | unfold MAXIMUM_ATTEMPTS; cbn; lia].
    destruct (Hlook Hnm) as [Hn Hl].
    split; [lia|]. exists l. split; [exact Hc|]. split; [exact Hl|].
    split; apply count_lookup_only; try exact Hl;
      intros ev Hev; destruct ev; try discriminate; reflexivity.
  - intros w0 w ctx0 path value flags req_cas ret key vbucket Hctx0 Hbuf Hroom Hop.
    destruct (subdoc_operate_records_cas E eng _ _ _ _ CMD w0 w path value flags req_cas
                ctx0 Hctx0 Hbuf Hop)
      as (info & ctx & Hinfo & _ & _ & Hctx & Hcas & _ & Hmsg & _).
    exists info, (with_conn w (setCAS (conn w) (in_cas ctx))).
    unfold subdoc_update. rewrite Hctx, Hnm. cbn [negb].
    unfold subdoc_response, update_stats, add_bin_header, set_response_cas.
    rewrite Hnm. simpl_world. rewrite Hctx, Hmsg, Hroom. simpl_world.
    destruct (response_has_value (traits CMD)); simpl_world;
      eexists; eexists; (split; [exact Hinfo|]); (split; [reflexivity|]);
      (split; [reflexivity|]); simpl_world;
      repeat (split; [first [reflexivity | exact Hcas]|]);
      cbn [rsp_cas]; rewrite Hcas;
      (split; [reflexivity | intros Hr; apply be64_enc; exact Hr]).
Qed.

End Lookups.

Lemma lookup_commands_leave_document_witness :
  exists w',
    run PROTOCOL_BINARY_CMD_SUBDOC_GET
        (world_of (engine_with (doc_info 7 Byte.x01 one_segment) (ENGINE_SUCCESS, 8)))
        (get_request 0) = Done w' 1
    /\ count_calls is_allocate (calls w') = 0
    /\ count_calls is_store (calls w') = 0
    /\ option_map rsp_cas (write_buf (conn w')) = Some (enc_be64 7).
Proof.
  destruct (lookup_commands_leave_document
              (P := Mcbp.protocol) ScriptEngine.state ScriptEngine.handle
              copy_uncompressed_length copy_uncompress grow_always append_op
              PROTOCOL_BINARY_CMD_SUBDOC_GET eq_refl) as (_ & Hrun & _).
  destruct (run PROTOCOL_BINARY_CMD_SUBDOC_GET
                (world_of (engine_with (doc_info 7 Byte.x01 one_segment)
                                       (ENGINE_SUCCESS, 8)))
                (get_request 0)) as [w' n|] eqn:Hr; [|vm_compute in Hr; discriminate].
  destruct (Hrun _ _ _ _ Hr) as (-> & l & Hc & _ & Ha & Hs).
  exists w'. split; [reflexivity|].
  cbn [calls world_of app] in Hc. rewrite Hc.
  split; [exact Ha|]. split; [exact Hs|].
  vm_compute in Hr. injection Hr as <-. reflexivity.
Defined.

(** ** Materialisation: the CAS check and the datatype *)

Section MaterialisationResults.

Context {P : Protocol}.

Variable E : Type.
Variable eng : ENGINE_HANDLE_V1 E.
Variable snappy_uncompressed_length : list byte -> option Z.
Variable snappy_uncompress : list byte -> Z -> option (list byte).
Variable growDynamicBuffer : DynamicBuffer -> Z -> bool * DynamicBuffer.
Variable op_exec :
  Z -> list byte -> option (list byte) -> list byte -> Subdoc_Error * Subdoc_Result.

Let materialise :=
  get_document_for_searching E eng snappy_uncompressed_length snappy_uncompress
                             growDynamicBuffer.

(** C6, amended.  For an item whose info the engine provides: with a number of
    value segments other than one, materialisation answers EINTERNAL whatever
    the CAS.  With a single segment: when the client's CAS is non-zero and
    differs from the item's, materialisation answers KEY_EEXISTS having done
    nothing but ask for the item info - the connection, its dynamic buffer
    included, is as before, whatever the decompressor would do; otherwise it
    reports the item's CAS, and whenever [subdoc_operate] then lets the
    command continue, the command context holds that CAS. *)
Theorem materialise_checks_cas (w : World E) (it : item) (in_cas0 : Z)
        (info : item_info) :
  get_item_info eng (engine w) it = Some info ->
  (info_nvalue info <> 1 ->
   fst (fst (fst (materialise w it in_cas0))) = PROTOCOL_BINARY_RESPONSE_EINTERNAL)
  /\ (info_nvalue info = 1 ->
      (in_cas0 <> 0 -> in_cas0 <> info_cas info ->
       materialise w it in_cas0
       = (PROTOCOL_BINARY_RESPONSE_KEY_EEXISTS, unassigned_document, 0,
          called w (engine w) (CallGetItemInfo it true)))
      /\ (in_cas0 = 0 \/ in_cas0 = info_cas info ->
          snd (fst (materialise w it in_cas0)) = info_cas info
          /\ forall CMD path value flags ctx w',
              it = c_item (conn w) ->
              commandContext (conn w) = Some ctx ->
              buf (in_doc ctx) = NULL ->
              subdoc_operate E eng snappy_uncompressed_length snappy_uncompress
                             growDynamicBuffer op_exec CMD w path value flags in_cas0
              = Some (true, w') ->
              exists ctx',
                commandContext (conn w') = Some ctx' /\ in_cas ctx' = info_cas info)).
Proof.
  intros Hinfo. split.
  { intros Hn.
    apply (materialise_segments E eng _ _ _ w it in_cas0 info Hinfo Hn). }
  intros Hn. split.
  - intros H0 Hc. unfold materialise, get_document_for_searching, engine_get_item_info.
    rewrite Hinfo. apply Z.eqb_eq in Hn. apply Z.eqb_neq in H0, Hc.
    rewrite Hn, H0, Hc. reflexivity.
  - intros Hc. split.
    + apply (materialise_cas_out E eng _ _ _ w it in_cas0 info Hinfo Hn Hc).
    + intros CMD path value flags ctx w' Hit Hctx Hbuf Hop.
      destruct (subdoc_operate_records_cas E eng _ _ _ _ CMD w w' path value flags
                  in_cas0 ctx Hctx Hbuf Hop)
        as (info' & ctx' & Hinfo' & _ & _ & Hctx' & Hcas & _).
      exists ctx'. split; [exact Hctx'|].
      rewrite <- Hit, Hinfo in Hinfo'. injection Hinfo' as <-. exact Hcas.
Qed.

(** C7, amended.  For an item whose info the engine provides, and a client CAS
    that is 0 or the item's: with a number of value segments other than one
    the answer is EINTERNAL whatever the datatype; with one segment the
    datatype decides.  JSON: the segment itself, the connection untouched.
    COMPRESSED_JSON: EINTERNAL when the uncompressed length is unknown, E2BIG
    when the dynamic buffer does not grow, EINTERNAL when decompression fails,
    else the document decompressed at the current position of the dynamic
    buffer, which advances by its length.  RAW or COMPRESSED:
    SUBDOC_DOC_NOTJSON.  Any other datatype: EINTERNAL. *)
Theorem materialise_by_datatype (w : World E) (it : item) (in_cas0 : Z)
        (info : item_info) :
  get_item_info eng (engine w) it = Some info ->
  in_cas0 = 0 \/ in_cas0 = info_cas info ->
  let r := materialise w it in_cas0 in
  let status := fst (fst (fst r)) in
  let document := snd (fst (fst r)) in
  let segment := info_value0 info in
  (info_nvalue info <> 1 ->
   status = PROTOCOL_BINARY_RESPONSE_EINTERNAL /\ conn (snd r) = conn w)
  /\ (info_nvalue info = 1 ->
      (info_datatype info = PROTOCOL_BINARY_DATATYPE_JSON ->
       status = PROTOCOL_BINARY_RESPONSE_SUCCESS
       /\ document = {| buf := iov_base segment; buf_data := iov_data segment |}
       /\ conn (snd r) = conn w)
      /\ (info_datatype info = PROTOCOL_BINARY_DATATYPE_COMPRESSED_JSON ->
          match snappy_uncompressed_length (iov_data segment) with
          | None => status = PROTOCOL_BINARY_RESPONSE_EINTERNAL
          | Some n =>
              let grown := growDynamicBuffer (dynamicBuffer (conn w)) n in
              if fst grown
              then
                match snappy_uncompress (iov_data segment) n with
                | None => status = PROTOCOL_BINARY_RESPONSE_EINTERNAL
                | Some out =>
                    status = PROTOCOL_BINARY_RESPONSE_SUCCESS
                    /\ document = {| buf := getCurrent (snd grown); buf_data := out |}
                    /\ dynamicBuffer (conn (snd r))
                       = moveOffset (writeCurrent (snd grown) out) (zlen out)
                end
              else status = PROTOCOL_BINARY_RESPONSE_E2BIG
          end)
      /\ (info_datatype info = PROTOCOL_BINARY_RAW_BYTES
          \/ info_datatype info = PROTOCOL_BINARY_DATATYPE_COMPRESSED ->
          status = PROTOCOL_BINARY_RESPONSE_SUBDOC_DOC_NOTJSON
          /\ conn (snd r) = conn w)
      /\ (info_datatype info <> PROTOCOL_BINARY_DATATYPE_JSON ->
          info_datatype info <> PROTOCOL_BINARY_DATATYPE_COMPRESSED_JSON ->
          info_datatype info <> PROTOCOL_BINARY_RAW_BYTES ->
          info_datatype info <> PROTOCOL_BINARY_DATATYPE_COMPRESSED ->
          status = PROTOCOL_BINARY_RESPONSE_EINTERNAL /\ conn (snd r) = conn w)).
Proof.
  intros Hinfo Hcas r status document segment. split.
  - intros Hn.
    apply (materialise_segments E eng _ _ _ w it in_cas0 info Hinfo Hn).
  - intros Hn.
    pose proof (materialise_switch E eng snappy_uncompressed_length snappy_uncompress
                                   growDynamicBuffer w it in_cas0 info Hinfo Hn Hcas)
      as Hsw.
    fold materialise in Hsw. fold r in Hsw. cbv zeta in Hsw.
    subst status document segment.
    split; [|split; [|split]].
    + intros Hd. rewrite Hsw, Hd, byte_eqb_refl. cbn. auto.
    + intros Hd. rewrite Hsw, Hd, byte_eqb_refl.
      replace (Byte.eqb PROTOCOL_BINARY_DATATYPE_COMPRESSED_JSON
                        PROTOCOL_BINARY_DATATYPE_JSON) with false
        by (symmetry; apply byte_eqb_neq; intros Heq;
            apply datatype_JSON_not_COMPRESSED_JSON; congruence).
      destruct (snappy_uncompressed_length _) as [n|]; [|reflexivity].
      cbv zeta.
      destruct (growDynamicBuffer _ _) as [[|] dbuf]; cbn [fst snd]; [|reflexivity].
      destruct (snappy_uncompress _ _) as [out|]; [|reflexivity].
      cbn. auto.
    + intros Hd.
      assert (Hj : Byte.eqb (info_datatype info) PROTOCOL_BINARY_DATATYPE_JSON = false).
      { apply byte_eqb_neq. destruct Hd as [-> | ->];
          [apply datatype_RAW_not_JSON | apply datatype_COMPRESSED_not_JSON]. }
      assert (Hcj : Byte.eqb (info_datatype info)
                             PROTOCOL_BINARY_DATATYPE_COMPRESSED_JSON = false).
      { apply byte_eqb_neq. destruct Hd as [-> | ->];
          [apply datatype_RAW_not_COMPRESSED_JSON
          | apply datatype_COMPRESSED_not_COMPRESSED_JSON]. }
      rewrite Hsw, Hj, Hcj.
      replace (Byte.eqb (info_datatype info) PROTOCOL_BINARY_RAW_BYTES
               || Byte.eqb (info_datatype info) PROTOCOL_BINARY_DATATYPE_COMPRESSED)
        with true
        by (symmetry; apply orb_true_iff;
            destruct Hd as [-> | ->]; [left | right]; apply byte_eqb_refl).
      cbn. auto.
    + intros H1 H2 H3 H4. apply byte_eqb_neq in H1, H2, H3, H4.
      rewrite Hsw, H1, H2, H3, H4. cbn. auto.
Qed.

End MaterialisationResults.

Lemma materialise_checks_cas_witness :
  materialize (fetched_world (doc_info 7 Byte.x01 one_segment)) 1 5
  = (PROTOCOL_BINARY_RESPONSE_KEY_EEXISTS, unassigned_document, 0,
     called (fetched_world (doc_info 7 Byte.x01 one_segment))
            (engine (fetched_world (doc_info 7 Byte.x01 one_segment)))
            (CallGetItemInfo 1 true)).
Proof.
  apply (materialise_checks_cas
           (P := Mcbp.protocol) ScriptEngine.state ScriptEngine.handle
           copy_uncompressed_length copy_uncompress grow_always append_op
           (fetched_world (doc_info 7 Byte.x01 one_segment)) 1 5
           (doc_info 7 Byte.x01 one_segment) eq_refl);
    [reflexivity | discriminate | discriminate].
Defined.

(** C6 as stated fails: an item of two segments whose CAS (7) differs from the
    client's (5) is answered EINTERNAL, not KEY_EEXISTS; and when the JSON
    operation fails the context does not hold the CAS (7) of the item. *)
Lemma materialise_cas_mismatch_two_segments :
  ScriptEngine.script_get_item_info
    (engine (fetched_world (doc_info 7 Byte.x01 two_segments))) 1
  = Some (doc_info 7 Byte.x01 two_segments)
  /\ 5 <> 0
  /\ 5 <> info_cas (doc_info 7 Byte.x01 two_segments)
  /\ fst (fst (fst (materialize (fetched_world (doc_info 7 Byte.x01 two_segments)) 1 5)))
     = PROTOCOL_BINARY_RESPONSE_EINTERNAL
  /\ fst (fst (fst (materialize (fetched_world (doc_info 7 Byte.x01 two_segments)) 1 5)))
     <> PROTOCOL_BINARY_RESPONSE_KEY_EEXISTS
  /\ exists w' ctx',
      subdoc_operate (P := Mcbp.protocol) ScriptEngine.state ScriptEngine.handle
                     copy_uncompressed_length copy_uncompress grow_always enoent_op
                     PROTOCOL_BINARY_CMD_SUBDOC_GET
                     (fetched_world (doc_info 7 Byte.x01 one_segment))
                     path_a [] 0 0
      = Some (false, w')
      /\ commandContext (conn w') = Some ctx'
      /\ in_cas ctx' = 0
      /\ in_cas ctx' <> info_cas (doc_info 7 Byte.x01 one_segment).
Proof.
  split; [reflexivity|]. split; [discriminate|]. split; [discriminate|].
  split; [reflexivity|]. split; [discriminate|].
  eexists. eexists. split; [vm_compute; reflexivity|].
  split; [reflexivity|]. split; [reflexivity | discriminate].
Qed.

Lemma materialise_by_datatype_witness :
  fst (fst (fst (materialize (fetched_world (doc_info 7 Byte.x00 one_segment)) 1 0)))
  = PROTOCOL_BINARY_RESPONSE_SUBDOC_DOC_NOTJSON
  /\ conn (snd (materialize (fetched_world (doc_info 7 Byte.x00 one_segment)) 1 0))
     = conn (fetched_world (doc_info 7 Byte.x00 one_segment)).
Proof.
  apply (materialise_by_datatype
           (P := Mcbp.protocol) ScriptEngine.state ScriptEngine.handle
           copy_uncompressed_length copy_uncompress grow_always
           (fetched_world (doc_info 7 Byte.x00 one_segment)) 1 0
           (doc_info 7 Byte.x00 one_segment) eq_refl (or_introl eq_refl));
    [reflexivity | left; reflexivity].
Defined.

(** C7 as stated fails: a RAW item of two segments is answered EINTERNAL, not
    SUBDOC_DOC_NOTJSON. *)
Lemma materialise_raw_two_segments :
  info_datatype (doc_info 7 Byte.x00 two_segments)
  = PROTOCOL_BINARY_RAW_BYTES (Protocol := Mcbp.protocol)
  /\ ScriptEngine.script_get_item_info
       (engine (fetched_world (doc_info 7 Byte.x00 two_segments))) 1
     = Some (doc_info 7 Byte.x00 two_segments)
  /\ fst (fst (fst (materialize (fetched_world (doc_info 7 Byte.x00 two_segments)) 1 0)))
     = PROTOCOL_BINARY_RESPONSE_EINTERNAL
  /\ fst (fst (fst (materialize (fetched_world (doc_info 7 Byte.x00 two_segments)) 1 0)))
     <> PROTOCOL_BINARY_RESPONSE_SUBDOC_DOC_NOTJSON.
Proof.
  split; [reflexivity|]. split; [reflexivity|]. split; [reflexivity | discriminate].
Qed.

(** ** The single-path validator *)

Section SinglePathValidator.

Context {P : Protocol}.

(** What [subdoc_validator] accepts, field by field; the length of the value
    is the 32-bit difference the code computes. *)
Lemma subdoc_validator_accepts (CMD : protocol_binary_command) (packet : list byte) :
  subdoc_validator CMD packet = 0
  <-> byte_at packet off_magic = PROTOCOL_BINARY_REQ
      /\ be16 packet off_keylen <> 0
      /\ u8 packet off_extlen = 3
      /\ be16 packet off_extras_pathlen <= SUBDOC_PATH_MAX_LENGTH
      /\ byte_at packet off_datatype = PROTOCOL_BINARY_RAW_BYTES
      /\ (request_has_value (traits CMD) = true
          <-> wrap32 (be32 packet off_bodylen - be16 packet off_keylen
                      - u8 packet off_extlen - be16 packet off_extras_pathlen) <> 0)
      /\ Z.land (u8 packet off_extras_subdoc_flags)
                (Z.lnot (valid_flags (traits CMD))) = 0
      /\ (allow_empty_path (traits CMD) = false ->
          be16 packet off_extras_pathlen <> 0).
Proof.
  unfold subdoc_validator, byte_neq.
  set (valuelen := wrap32 _).
  destruct (Byte.eqb (byte_at packet off_magic) PROTOCOL_BINARY_REQ) eqn:Hm;
    [apply byte_eqb_eq in Hm | apply byte_eqb_neq in Hm];
    cbn [negb orb]; [|split; [discriminate | tauto]].
  destruct (be16 packet off_keylen =? 0) eqn:Hk;
    [apply Z.eqb_eq in Hk | apply Z.eqb_neq in Hk];
    cbn [negb orb]; [split; [discriminate | tauto]|].
  change (2 + 1) with 3.
  destruct (u8 packet off_extlen =? 3) eqn:He;
    [apply Z.eqb_eq in He | apply Z.eqb_neq in He];
    cbn [negb orb]; [|split; [discriminate | tauto]].
  destruct (be16 packet off_extras_pathlen >? SUBDOC_PATH_MAX_LENGTH) eqn:Hp;
    [apply Z.gtb_lt in Hp | rewrite Z.gtb_ltb in Hp; apply Z.ltb_ge in Hp];
    cbn [negb orb]; [split; [discriminate | lia]|].
  destruct (Byte.eqb (byte_at packet off_datatype) PROTOCOL_BINARY_RAW_BYTES) eqn:Hd;
    [apply byte_eqb_eq in Hd | apply byte_eqb_neq in Hd];
    cbn [negb orb]; [|split; [discriminate | tauto]].
  destruct (valuelen =? 0) eqn:Hv;
    [apply Z.eqb_eq in Hv | apply Z.eqb_neq in Hv];
    destruct (request_has_value (traits CMD)); cbn [negb];
    try (split; [discriminate | intros (_ & _ & _ & _ & _ & [H1 H2] & _)];
         first [now apply H1 in Hv | now specialize (H2 Hv)]).
  all: destruct (Z.land _ _ =? 0) eqn:Hf;
    [apply Z.eqb_eq in Hf | apply Z.eqb_neq in Hf];
    cbn [negb]; [|split; [discriminate | tauto]].
  all: destruct (allow_empty_path (traits CMD)); cbn [negb andb].
  all: try (destruct (be16 packet off_extras_pathlen =? 0) eqn:Hz;
            [apply Z.eqb_eq in Hz | apply Z.eqb_neq in Hz]).
  all: (split; [intros H; try discriminate H | intros H; try reflexivity]).
  all: try (repeat split; try assumption; try discriminate; try tauto; fail).
  all: try (exfalso; destruct H as (_ & _ & _ & _ & _ & _ & _ & H); now apply H).
Qed.

End SinglePathValidator.

(** C3, at a request the validator should refuse.  The DICT_ADD request
    [short_body_packet] declares a body of 5 bytes, a key of 1 byte, 3 bytes of
    extras and a path of 1000 bytes; every other field is in order.  The
    body does not account for key, extras and path (5 < 1004), and
    [subdoc_validator] accepts it: the 32-bit difference wraps to a non-zero
    length of value. *)
Theorem subdoc_validator_accepts_short_body :
  be32 short_body_packet off_bodylen = 5
  /\ be16 short_body_packet off_keylen = 1
  /\ u8 short_body_packet off_extlen = 3
  /\ be16 short_body_packet off_extras_pathlen = 1000
  /\ be32 short_body_packet off_bodylen
     < be16 short_body_packet off_keylen + u8 short_body_packet off_extlen
       + be16 short_body_packet off_extras_pathlen
  /\ wrap32 (be32 short_body_packet off_bodylen - be16 short_body_packet off_keylen
             - u8 short_body_packet off_extlen
             - be16 short_body_packet off_extras_pathlen) = 4294966297
  /\ subdoc_validator (P := Mcbp.protocol) PROTOCOL_BINARY_CMD_SUBDOC_DICT_ADD
                      short_body_packet = 0.
Proof.
  repeat split; vm_compute; reflexivity.
Qed.

(** * Further properties *)

(** ** The validators and the parser of the executor *)

(** A body length that a request of 1 to 16 specs can have is at least the
    minimum in either byte order. *)
Lemma raw_bodylen_minimum (p : list byte) (i : Z) :
  sizeof_multi_lookup_spec + 1 <= be32 p i < 2 ^ 24 ->
  sizeof_multi_lookup_spec + 1 <= le32 p i.
Proof.
  unfold be32, le32, sizeof_multi_lookup_spec. change (2 ^ 24) with 16777216.
  pose proof (u8_range p i). pose proof (u8_range p (i + 1)).
  pose proof (u8_range p (i + 2)). pose proof (u8_range p (i + 3)).
  lia.
Qed.

Section HostOrder.

Context {P : Protocol}.

(** When the walk over the specs ends as acceptance needs it, the test of the
    unconverted body length was passed, whatever the host. *)
Lemma walked_bodylen_minimum (packet : list byte) (path_index body_validated : Z) :
  lookup_specs_loop PROTOCOL_BINARY_SUBDOC_MULTI_MAX_PATHS packet
                    (be32 packet off_bodylen) 0 (be16 packet off_keylen)
  = Some (path_index, body_validated) ->
  path_index > 0 ->
  body_validated = be32 packet off_bodylen ->
  sizeof_multi_lookup_spec + 1 <= be32 packet off_bodylen < 2 ^ 24.
Proof.
  intros Hloop Hpi Hbv.
  pose proof (be16_range packet off_keylen) as Hk.
  apply lookup_specs_loop_decode in Hloop
    as (specs & Hidx & Hlen & Hall & Hbv' & _); [|lia].
  pose proof (encoded_specs_size specs Hall) as [Hlo Hhi].
  unfold PROTOCOL_BINARY_SUBDOC_MULTI_MAX_PATHS in Hlen.
  assert (Hn : 1 <= zlen specs <= 16) by (unfold zlen in *; lia).
  unfold sizeof_multi_lookup_spec, SUBDOC_PATH_MAX_LENGTH in *.
  change (2 ^ 16) with 65536 in Hk. change (2 ^ 24) with 16777216.
  rewrite <- Hbv, Hbv'. nia.
Qed.

End HostOrder.

(** X4.  The verdict of [subdoc_multi_lookup_validator] is the same on a
    little-endian and on a big-endian host, although the code compares the key
    length and the body length of the header without converting them: a key
    length is zero in one byte order exactly when it is in the other, and
    every body length that the walk over the specs can reach passes the
    minimum test in both orders. *)
Theorem multi_lookup_validator_host_order (P : Protocol) (little : bool)
        (packet : list byte) :
  @subdoc_multi_lookup_validator (with_host_order P little) packet
  = @subdoc_multi_lookup_validator P packet.
Proof.
  unfold subdoc_multi_lookup_validator.
  rewrite (@host16_zero (with_host_order P little)), (@host16_zero P).
  change (@PROTOCOL_BINARY_REQ (with_host_order P little))
    with (@PROTOCOL_BINARY_REQ P).
  change (@PROTOCOL_BINARY_RAW_BYTES (with_host_order P little))
    with (@PROTOCOL_BINARY_RAW_BYTES P).
  change (@lookup_specs_loop (with_host_order P little))
    with (@lookup_specs_loop P).
  destruct (byte_neq (byte_at packet off_magic) PROTOCOL_BINARY_REQ); [reflexivity|].
  destruct (be16 packet off_keylen =? 0); [reflexivity|].
  destruct (negb (u8 packet off_extlen =? 0)); [reflexivity|].
  cbn [orb].
  destruct (byte_neq (byte_at packet off_datatype) PROTOCOL_BINARY_RAW_BYTES);
    [rewrite !orb_true_r; reflexivity|].
  rewrite !orb_false_r.
  destruct (lookup_specs_loop PROTOCOL_BINARY_SUBDOC_MULTI_MAX_PATHS packet
                              (be32 packet off_bodylen) 0 (be16 packet off_keylen))
    as [[path_index body_validated]|] eqn:Hloop.
  2:{ destruct (_ <? _); destruct (_ <? _); reflexivity. }
  destruct ((path_index >? 0)
            && (path_index <=? Z.of_nat PROTOCOL_BINARY_SUBDOC_MULTI_MAX_PATHS)
            && (body_validated =? be32 packet off_bodylen)) eqn:Hend.
  2:{ destruct (_ <? _); destruct (_ <? _); reflexivity. }
  apply andb_prop in Hend as [Hend Hbv]. apply andb_prop in Hend as [Hpi _].
  apply Z.eqb_eq in Hbv. rewrite Z.gtb_ltb in Hpi. apply Z.ltb_lt in Hpi.
  pose proof (walked_bodylen_minimum packet path_index body_validated Hloop
                                     ltac:(lia) Hbv) as Hmin.
  pose proof (raw_bodylen_minimum packet off_bodylen Hmin) as Hraw.
  assert (H1 : (@host32 (with_host_order P little) packet off_bodylen
                <? sizeof_multi_lookup_spec + 1) = false).
  { apply Z.ltb_ge. unfold host32. cbn [host_little_endian with_host_order].
    destruct little; lia. }
  assert (H2 : (@host32 P packet off_bodylen <? sizeof_multi_lookup_spec + 1) = false).
  { apply Z.ltb_ge. unfold host32. destruct host_little_endian; lia. }
  rewrite H1, H2. reflexivity.
Qed.

Lemma slice_skip (pre l : list byte) (off n : Z) :
  0 <= off -> slice (pre ++ l) (zlen pre + off) n = slice l off n.
Proof.
  intros Hoff. unfold slice. apply map_ext. intros k.
  rewrite <- Z.add_assoc. apply byte_at_app_r. lia.
Qed.

Lemma slice_prefix (l rest : list byte) : slice (l ++ rest) 0 (zlen l) = l.
Proof.
  pose proof (slice_middle l [] rest) as H. cbn [app] in H.
  rewrite zlen_nil in H. exact H.
Qed.

Section SinglePathRequests.

Context {P : Protocol}.

(** The header fields and the extras of an encoded single-path request. *)
Lemma encoded_request_fields (CMD : protocol_binary_command) (t : request_tags)
      (key path value rest : list byte) (flags : byte) :
  zlen key < 2 ^ 16 ->
  zlen path < 2 ^ 16 ->
  sizeof_subdoc_extras + zlen key + zlen path + zlen value < 2 ^ 32 ->
  let p := encode_subdoc_request CMD t key path value flags ++ rest in
  byte_at p off_magic = PROTOCOL_BINARY_REQ
  /\ be16 p off_keylen = zlen key
  /\ u8 p off_extlen = 3
  /\ byte_at p off_datatype = PROTOCOL_BINARY_RAW_BYTES
  /\ be32 p off_bodylen = sizeof_subdoc_extras + zlen key + zlen path + zlen value
  /\ be16 p off_extras_pathlen = zlen path
  /\ u8 p off_extras_subdoc_flags = byte_val flags
  /\ be16 p off_vbucket = be16 (enc_be16 (tag_vbucket t)) 0
  /\ be64 p off_cas = be64 (enc_be64 (tag_cas t)) 0
  /\ forall off n, 0 <= off ->
       slice p (sizeof_header + sizeof_subdoc_extras + off) n
       = slice (key ++ path ++ value ++ rest) off n.
Proof.
  intros Hk Hp Hb p.
  pose proof (zlen_nonneg key) as Hk0. pose proof (zlen_nonneg path) as Hp0.
  pose proof (zlen_nonneg value) as Hv0.
  unfold encode_subdoc_request in p.
  set (h := encode_header _ _ _ _ _ _ _ _ _) in p.
  set (body := enc_be16 (zlen path) ++ [flags] ++ key ++ path ++ value) in p.
  assert (Hp' : p = h ++ (body ++ rest))
    by (subst p body; rewrite <- !app_assoc; reflexivity).
  pose proof (encode_header_fields
                PROTOCOL_BINARY_REQ (cmd_opcode CMD) (zlen key) sizeof_subdoc_extras
                PROTOCOL_BINARY_RAW_BYTES (tag_vbucket t)
                (sizeof_subdoc_extras + zlen key + zlen path + zlen value)
                (tag_opaque t) (tag_cas t) (body ++ rest))
    as (Hm & _ & Hkl & _ & Hel & Hdt & Hvb & Hbl & _ & Hcas & Hsz).
  cbv zeta in Hm, Hkl, Hel, Hdt, Hvb, Hbl, Hcas. fold h in Hm, Hkl, Hel, Hdt, Hvb, Hbl, Hcas, Hsz.
  rewrite <- Hp' in Hm, Hkl, Hel, Hdt, Hvb, Hbl, Hcas.
  pose proof (be16_enc (zlen key) [] ltac:(lia)) as Hkv. rewrite app_nil_r in Hkv.
  pose proof (be32_enc (sizeof_subdoc_extras + zlen key + zlen path + zlen value) []
                       ltac:(unfold sizeof_subdoc_extras in *; lia)) as Hbv.
  rewrite app_nil_r in Hbv.
  split; [exact Hm|]. split; [rewrite Hkl; exact Hkv|].
  split; [rewrite Hel; reflexivity|]. split; [exact Hdt|].
  split; [rewrite Hbl; exact Hbv|].
  assert (Hbody : body ++ rest
                  = enc_be16 (zlen path) ++ ([flags] ++ key ++ path ++ value ++ rest))
    by (subst body; rewrite <- !app_assoc; reflexivity).
  split.
  { rewrite Hp', Hbody.
    change off_extras_pathlen with (sizeof_header + 0). rewrite <- Hsz.
    rewrite be16_app_r by lia. apply be16_enc. lia. }
  split.
  { rewrite Hp'. unfold u8.
    change off_extras_subdoc_flags with (sizeof_header + 2). rewrite <- Hsz.
    rewrite byte_at_app_r by lia. rewrite Hbody.
    change 2 with (zlen (enc_be16 (zlen path)) + 0).
    rewrite byte_at_app_r by lia. reflexivity. }
  split; [exact Hvb|]. split; [exact Hcas|].
  intros off n Hoff. rewrite Hp'. rewrite <- Hsz, <- Z.add_assoc.
  rewrite slice_skip by (unfold sizeof_subdoc_extras; lia).
  assert (Hb3 : body ++ rest
                = (enc_be16 (zlen path) ++ [flags]) ++ (key ++ path ++ value ++ rest))
    by (subst body; rewrite <- !app_assoc; reflexivity).
  rewrite Hb3.
  change sizeof_subdoc_extras with (zlen (enc_be16 (zlen path) ++ [flags])).
  apply slice_skip. exact Hoff.
Qed.

(** X2.  What [subdoc_executor] parses out of an encoded single-path request
    is what was encoded: key, path, value, flags, vbucket and CAS, whatever
    follows the request in memory. *)
Theorem parse_encoded_request (CMD : protocol_binary_command) (t : request_tags)
        (key path value rest : list byte) (flags : byte) :
  zlen key < 2 ^ 16 ->
  zlen path < 2 ^ 16 ->
  sizeof_subdoc_extras + zlen key + zlen path + zlen value < 2 ^ 32 ->
  0 <= tag_vbucket t < 2 ^ 16 ->
  0 <= tag_cas t < 2 ^ 64 ->
  parse_request (encode_subdoc_request CMD t key path value flags ++ rest)
  = {| req_key := key; req_path := path; req_value := value;
       req_flags := byte_val flags; req_vbucket := tag_vbucket t;
       req_cas := tag_cas t |}.
Proof.
  intros Hk Hp Hb Hvb Hcas.
  pose proof (zlen_nonneg key) as Hk0. pose proof (zlen_nonneg path) as Hp0.
  pose proof (zlen_nonneg value) as Hv0.
  destruct (encoded_request_fields CMD t key path value rest flags Hk Hp Hb)
    as (_ & Hkl & Hel & _ & Hbl & Hpl & Hfl & Hv & Hc & Hslice).
  unfold parse_request. rewrite Hkl, Hel, Hbl, Hpl, Hfl, Hv, Hc.
  pose proof (be16_enc (tag_vbucket t) [] Hvb) as Hvv. rewrite app_nil_r in Hvv.
  rewrite Hvv, (be64_enc (tag_cas t) Hcas).
  replace (wrap32 (sizeof_subdoc_extras + zlen key + zlen path + zlen value
                   - zlen key - 3 - zlen path)) with (zlen value)
    by (unfold wrap32, sizeof_subdoc_extras in *; rewrite Z.mod_small; lia).
  change 3 with sizeof_subdoc_extras.
  replace (sizeof_header + sizeof_subdoc_extras + zlen key + zlen path)
    with (sizeof_header + sizeof_subdoc_extras + (zlen key + zlen path)) by lia.
  rewrite <- (Z.add_0_r (sizeof_header + sizeof_subdoc_extras)) at 1.
  rewrite !Hslice by lia.
  f_equal.
  - apply slice_prefix.
  - apply (slice_middle path key (value ++ rest)).
  - pose proof (slice_middle value (key ++ path) rest) as H.
    rewrite zlen_app, <- app_assoc in H. exact H.
Qed.

Lemma zlen_zero_nil {A : Type} (l : list A) : zlen l = 0 <-> l = [].
Proof.
  unfold zlen. destruct l; cbn [length]; split; intros H;
    try reflexivity; try discriminate; lia.
Qed.

(** X3.  On an encoded single-path request the validator decides exactly what
    its rules say: it accepts when, and only when, the key is not empty, the
    path has at most 1024 bytes and is not empty unless the traits of the
    command allow it, a value is present exactly when the traits say
    [request_has_value], and the flags are among the valid flags. *)
Theorem validator_encoded_request (CMD : protocol_binary_command) (t : request_tags)
        (key path value rest : list byte) (flags : byte) :
  zlen key < 2 ^ 16 ->
  zlen path < 2 ^ 16 ->
  sizeof_subdoc_extras + zlen key + zlen path + zlen value < 2 ^ 32 ->
  (subdoc_validator CMD (encode_subdoc_request CMD t key path value flags ++ rest) = 0
   <-> key <> []
       /\ zlen path <= SUBDOC_PATH_MAX_LENGTH
       /\ (request_has_value (traits CMD) = true <-> value <> [])
       /\ flags_allowed CMD flags = true
       /\ (allow_empty_path (traits CMD) = false -> path <> [])).
Proof.
  intros Hk Hp Hb.
  pose proof (zlen_nonneg key) as Hk0. pose proof (zlen_nonneg path) as Hp0.
  pose proof (zlen_nonneg value) as Hv0.
  destruct (encoded_request_fields CMD t key path value rest flags Hk Hp Hb)
    as (Hm & Hkl & Hel & Hdt & Hbl & Hpl & Hfl & _).
  rewrite subdoc_validator_accepts, Hkl, Hel, Hbl, Hpl, Hfl.
  replace (wrap32 (sizeof_subdoc_extras + zlen key + zlen path + zlen value
                   - zlen key - 3 - zlen path)) with (zlen value)
    by (unfold wrap32, sizeof_subdoc_extras in *; rewrite Z.mod_small; lia).
  unfold flags_allowed. rewrite Z.eqb_eq.
  rewrite <- (zlen_zero_nil key), <- (zlen_zero_nil path), <- (zlen_zero_nil value).
  tauto.
Qed.

(** X1.  In a request that [subdoc_validator] accepts and whose declared body
    is not shorter than key, extras and path - which acceptance itself
    guarantees for a command without request value - the key, path and value
    that [subdoc_executor] reads lie one after the other in the declared body
    and fill it: nothing is read beyond it.  The key has at least one byte,
    the path at most 1024, and the value is empty exactly for the commands
    without request value. *)
Theorem validated_request_regions (CMD : protocol_binary_command) (packet : list byte) :
  subdoc_validator CMD packet = 0 ->
  request_has_value (traits CMD) = false
  \/ be16 packet off_keylen + u8 packet off_extlen + be16 packet off_extras_pathlen
     <= be32 packet off_bodylen ->
  let rq := parse_request packet in
  1 <= zlen (req_key rq)
  /\ zlen (req_path rq) <= SUBDOC_PATH_MAX_LENGTH
  /\ (request_has_value (traits CMD) = true <-> req_value rq <> [])
  /\ sizeof_subdoc_extras + zlen (req_key rq) + zlen (req_path rq)
     + zlen (req_value rq) = be32 packet off_bodylen
  /\ slice packet (sizeof_header + sizeof_subdoc_extras)
           (be32 packet off_bodylen - sizeof_subdoc_extras)
     = req_key rq ++ req_path rq ++ req_value rq.
Proof.
  intros Hacc Hlen.
  apply subdoc_validator_accepts in Hacc
    as (_ & Hk & He & Hp & _ & Hval & _ & _).
  pose proof (be16_range packet off_keylen) as Hkr.
  pose proof (be16_range packet off_extras_pathlen) as Hpr.
  pose proof (be32_range packet off_bodylen) as Hbr.
  change (2 ^ 16) with 65536 in *. change (2 ^ 32) with 4294967296 in *.
  set (d := be32 packet off_bodylen - be16 packet off_keylen - u8 packet off_extlen
            - be16 packet off_extras_pathlen) in *.
  assert (Hd : 0 <= d /\ wrap32 d = d).
  { destruct Hlen as [Hno | Hle].
    - assert (Hw : wrap32 d = 0).
      { destruct (Z.eq_dec (wrap32 d) 0) as [e | n]; [exact e|].
        apply Hval in n. congruence. }
      unfold wrap32 in *. change (2 ^ 32) with 4294967296 in *.
      apply Z.mod_divide in Hw; [|lia]. destruct Hw as [q Hq].
      assert (q = 0) by (subst d; lia).
      subst q. rewrite Hq. split; [lia | reflexivity].
    - unfold wrap32. change (2 ^ 32) with 4294967296.
      split; [subst d; lia|]. apply Z.mod_small. subst d. lia. }
  destruct Hd as [Hd0 Hw].
  cbv zeta. unfold parse_request. cbn [req_key req_path req_value].
  fold d. rewrite Hw, He.
  rewrite !slice_zlen by lia.
  split; [lia|]. split; [exact Hp|].
  split.
  { rewrite Hval, Hw. rewrite <- zlen_zero_nil, slice_zlen by lia. tauto. }
  split; [unfold sizeof_subdoc_extras; subst d; lia|].
  change (sizeof_header + 3) with (sizeof_header + sizeof_subdoc_extras).
  replace (be32 packet off_bodylen - sizeof_subdoc_extras)
    with (be16 packet off_keylen + (be16 packet off_extras_pathlen + d))
    by (unfold sizeof_subdoc_extras; subst d; lia).
  rewrite slice_app by lia. f_equal.
  rewrite slice_app by lia. reflexivity.
Qed.

End SinglePathRequests.

Lemma parse_encoded_request_witness :
  parse_request (dict_add_request 7 ++ [Byte.xff])
  = {| req_key := key_k; req_path := path_a; req_value := value_1;
       req_flags := 0; req_vbucket := 0; req_cas := 7 |}.
Proof.
  apply (parse_encoded_request (P := Mcbp.protocol) PROTOCOL_BINARY_CMD_SUBDOC_DICT_ADD
                               (tags_cas 7) key_k path_a value_1 [Byte.xff] Byte.x00);
    vm_compute; try reflexivity; split; (discriminate || reflexivity).
Defined.

Lemma validator_encoded_request_witness :
  subdoc_validator (P := Mcbp.protocol) PROTOCOL_BINARY_CMD_SUBDOC_DICT_ADD
                   (dict_add_request 0 ++ []) = 0.
Proof.
  apply (validator_encoded_request (P := Mcbp.protocol)
                                   PROTOCOL_BINARY_CMD_SUBDOC_DICT_ADD
                                   (tags_cas 0) key_k path_a value_1 [] Byte.x00);
    try (vm_compute; reflexivity).
  split; [discriminate|]. split; [vm_compute; discriminate|].
  split; [split; [discriminate | reflexivity]|].
  split; [reflexivity | discriminate].
Defined.

Lemma validated_request_regions_witness :
  sizeof_subdoc_extras + zlen (req_key (parse_request (dict_add_request 0)))
  + zlen (req_path (parse_request (dict_add_request 0)))
  + zlen (req_value (parse_request (dict_add_request 0)))
  = be32 (dict_add_request 0) off_bodylen
  /\ slice (dict_add_request 0) (sizeof_header + sizeof_subdoc_extras)
           (be32 (dict_add_request 0) off_bodylen - sizeof_subdoc_extras)
     = req_key (parse_request (dict_add_request 0))
       ++ req_path (parse_request (dict_add_request 0))
       ++ req_value (parse_request (dict_add_request 0)).
Proof.
  destruct (validated_request_regions (P := Mcbp.protocol)
                                      PROTOCOL_BINARY_CMD_SUBDOC_DICT_ADD
                                      (dict_add_request 0) eq_refl)
    as (_ & _ & _ & Hsum & Hslice).
  - right. vm_compute. discriminate.
  - split; [exact Hsum | exact Hslice].
Defined.

(** ** One answer per command *)

Lemma quiet_refl (c : Connection) : quiet c c.
Proof. unfold quiet, unanswered. auto 15. Qed.

Lemma quiet_trans (c1 c2 c3 : Connection) : quiet c1 c2 -> quiet c2 c3 -> quiet c1 c3.
Proof.
  unfold quiet, unanswered.
  intros ((H1 & H2 & H3 & H4 & H5 & H6) & H7 & H8)
         ((K1 & K2 & K3 & K4 & K5 & K6) & K7 & K8).
  repeat split; congruence.
Qed.

Section Endings.

Context {P : Protocol}.

Variable CMD : protocol_binary_command.
Variable key : list byte.

Lemma ends_status (c c' : Connection) (s : protocol_binary_response_status) :
  responses c' = responses c ++ [s] ->
  write_buf c' = write_buf c -> iov c' = iov c ->
  cmd_set c' = cmd_set c -> get_hits c' = get_hits c -> topkeys c' = topkeys c ->
  command_end CMD key c c'.
Proof. intros. exists (EndStatus s). cbn [ends_as]. auto 10. Qed.

Lemma ends_suspended (c c' : Connection) :
  unanswered c c' -> ewouldblock c' = true -> c_state c' = c_state c ->
  command_end CMD key c c'.
Proof. intros. exists EndSuspended. cbn [ends_as]. auto. Qed.

Lemma ends_closing (c c' : Connection) :
  unanswered c c' -> c_state c' = conn_closing -> ewouldblock c' = ewouldblock c ->
  command_end CMD key c c'.
Proof. intros. exists EndClosing. cbn [ends_as]. auto. Qed.

Lemma ends_header (c c' : Connection) (h : response_header) :
  responses c' = responses c ->
  write_buf c' = Some h ->
  rsp_status h = 0 ->
  length (iov c') = (length (iov c)
                     + if response_has_value (traits CMD) then 1 else 0)%nat ->
  c_state c' = conn_mwrite ->
  counted CMD key c c' ->
  command_end CMD key c c'.
Proof. intros. exists (EndHeader h). cbn [ends_as]. auto 10. Qed.

Lemma ends_no_header (c c' : Connection) :
  responses c' = responses c ->
  write_buf c' = write_buf c -> iov c' = iov c ->
  c_state c' = conn_closing ->
  counted CMD key c c' ->
  command_end CMD key c c'.
Proof. intros. exists EndNoHeader. cbn [ends_as]. auto 10. Qed.

(** Steps that let the command go on do not change the way it ends. *)
Lemma quiet_then_ends_as (c1 c2 c3 : Connection) (e : ending) :
  quiet c1 c2 -> ends_as CMD key c2 c3 e -> ends_as CMD key c1 c3 e.
Proof.
  unfold quiet, unanswered, counted.
  intros ((H1 & H2 & H3 & H4 & H5 & H6) & H7 & H8).
  destruct e as [s | | | h |]; cbn [ends_as]; unfold unanswered, counted.
  - intros (K1 & K2 & K3 & K4 & K5 & K6). repeat split; congruence.
  - intros ((K1 & K2 & K3 & K4 & K5 & K6) & K7 & K8). repeat split; congruence.
  - intros ((K1 & K2 & K3 & K4 & K5 & K6) & K7 & K8). repeat split; congruence.
  - intros (K1 & K2 & K3 & K4 & K5 & K6 & K7 & K8). repeat split; congruence.
  - intros (K1 & K2 & K3 & K4 & K6 & K7 & K8). repeat split; congruence.
Qed.

Lemma quiet_then_end (c1 c2 c3 : Connection) :
  quiet c1 c2 -> command_end CMD key c2 c3 -> command_end CMD key c1 c3.
Proof.
  intros Hq [e He]. exists e. apply (quiet_then_ends_as c1 c2 c3 e Hq He).
Qed.

(** The ways exclude one another: a connection entered with [ewouldblock]
    clear is left in one way at most. *)
Lemma ends_as_unique (c c' : Connection) (e1 e2 : ending) :
  ewouldblock c = false ->
  ends_as CMD key c c' e1 -> ends_as CMD key c c' e2 -> e1 = e2.
Proof.
  intros Hw.
  assert (Hgrow : forall (A : Type) (l : list A) (x : A), l ++ [x] <> l).
  { intros A l x H. apply (f_equal (@length A)) in H.
    rewrite length_app in H. cbn [length] in H. lia. }
  destruct e1 as [s1 | | | h1 |], e2 as [s2 | | | h2 |];
    cbn [ends_as]; unfold unanswered, counted; intros H1 H2;
    try reflexivity;
    decompose [and] H1; decompose [and] H2; clear H1 H2;
    try match goal with
        | Ha : responses c' = responses c ++ [?s],
          Hb : responses c' = responses c |- _ =>
            exfalso; apply (Hgrow _ (responses c) s); congruence
        | Ha : topkeys c' = topkeys c ++ [?k],
          Hb : topkeys c' = topkeys c |- _ =>
            exfalso; apply (Hgrow _ (topkeys c) k); congruence
        end;
    try congruence.
  match goal with
  | Ha : responses c' = responses c ++ [s1],
    Hb : responses c' = responses c ++ [s2] |- _ =>
      rewrite Ha in Hb; apply app_inv_head in Hb; congruence
  end.
Qed.

End Endings.

Section Answers.

Context {P : Protocol}.

Variable E : Type.
Variable eng : ENGINE_HANDLE_V1 E.
Variable snappy_uncompressed_length : list byte -> option Z.
Variable snappy_uncompress : list byte -> Z -> option (list byte).
Variable growDynamicBuffer : DynamicBuffer -> Z -> bool * DynamicBuffer.
Variable op_exec :
  Z -> list byte -> option (list byte) -> list byte -> Subdoc_Error * Subdoc_Result.

(** [allocate] does not answer KEY_EEXISTS: it creates an item, it does not
    compare one. *)
Hypothesis allocate_not_eexists :
  forall e key nbytes flags exptime datatype,
    fst (fst (allocate eng e key nbytes flags exptime datatype)) <> ENGINE_KEY_EEXISTS.

Ltac simpl_world :=
  cbn [conn calls engine with_conn called
       aiostat c_item commandContext ewouldblock c_state c_cas dynamicBuffer
       write_buf iov responses msghdr_available cmd_set get_hits topkeys
       setAiostat set_item setCommandContext setEwouldblock setState setCAS
       setDynamicBuffer set_write_buf set_iov set_responses set_stats
       write_bin_packet add_iov
       in_doc in_cas result out_doc set_result set_in_doc set_out_doc
       new_SubdocCmdContext fst snd].

Ltac quiet_now := unfold quiet, unanswered; simpl_world; auto 15.

(** A failure that is reported to the client, suspends the command or closes
    the connection, as the three [switch] statements over an engine code do. *)
Lemma engine_failure_end (CMD : protocol_binary_command) (key : list byte)
      (c : Connection) (r : ENGINE_ERROR_CODE) :
  r <> ENGINE_SUCCESS ->
  command_end CMD key c
              (match r with
               | ENGINE_EWOULDBLOCK => setEwouldblock c true
               | ENGINE_DISCONNECT => setState c conn_closing
               | _ => write_bin_packet c (engine_error_2_protocol_error r)
               end).
Proof.
  intros Hr. destruct r; try contradiction;
    try (eapply ends_status; reflexivity).
  - apply ends_suspended; [quiet_now | reflexivity | reflexivity].
  - apply ends_closing; [quiet_now | reflexivity | reflexivity].
Qed.

Lemma subdoc_fetch_end (CMD : protocol_binary_command) (w w' : World E)
      (ret : ENGINE_ERROR_CODE) (key : list byte) (vbucket : Z) (b : bool) :
  subdoc_fetch E eng w ret key vbucket = Some (b, w') ->
  if b then quiet (conn w) (conn w') else command_end CMD key (conn w) (conn w').
Proof.
  unfold subdoc_fetch, engine_get.
  destruct (c_item (conn w) =? NULL); [|intros H; injection H as <- <-; apply quiet_refl].
  destruct (is_ENGINE_SUCCESS ret) eqn:Hret.
  - destruct (get eng (engine w) key vbucket) as [[r it] e].
    destruct r; simpl_world;
      try (intros H; injection H as <- <-; simpl_world;
           first [ apply (engine_failure_end CMD key (conn w) ENGINE_KEY_EEXISTS)
                 | apply (engine_failure_end CMD key (conn w) ENGINE_EWOULDBLOCK)
                 | apply (engine_failure_end CMD key (conn w) ENGINE_DISCONNECT)
                 | apply (engine_failure_end CMD key (conn w) ENGINE_TMPFAIL)
                 | apply (engine_failure_end CMD key (conn w) ENGINE_FAILED)
                 | apply (engine_failure_end CMD key (conn w) (ENGINE_OTHER _)) ];
           discriminate).
    destruct (commandContext (conn w)); [discriminate|].
    intros H; injection H as <- <-. quiet_now.
  - destruct ret; try discriminate Hret; simpl_world;
      intros H; injection H as <- <-; simpl_world;
      first [ apply (engine_failure_end CMD key (conn w) ENGINE_KEY_EEXISTS)
            | apply (engine_failure_end CMD key (conn w) ENGINE_EWOULDBLOCK)
            | apply (engine_failure_end CMD key (conn w) ENGINE_DISCONNECT)
            | apply (engine_failure_end CMD key (conn w) ENGINE_TMPFAIL)
            | apply (engine_failure_end CMD key (conn w) ENGINE_FAILED)
            | apply (engine_failure_end CMD key (conn w) (ENGINE_OTHER _)) ];
      discriminate.
Qed.

Lemma subdoc_operate_end (CMD : protocol_binary_command) (w w' : World E)
      (key path value : list byte) (flags in_cas0 : Z) (b : bool) :
  subdoc_operate E eng snappy_uncompressed_length snappy_uncompress growDynamicBuffer
                 op_exec CMD w path value flags in_cas0 = Some (b, w') ->
  if b then quiet (conn w) (conn w') else command_end CMD key (conn w) (conn w').
Proof.
  unfold subdoc_operate.
  destruct (commandContext (conn w)) as [context|]; [|discriminate].
  destruct (buf (in_doc context) =? NULL);
    [|intros H; injection H as <- <-; apply quiet_refl].
  pose proof (materialise_frame E eng snappy_uncompressed_length snappy_uncompress
                                growDynamicBuffer w (c_item (conn w)) in_cas0) as Hm.
  destruct (get_document_for_searching _ _ _ _ _ _ _ _) as [[[status doc] doc_cas] w1].
  destruct Hm as (_ & _ & Hconn).
  assert (Hq : quiet (conn w) (conn w1)) by (rewrite Hconn; quiet_now).
  destruct (negb (is_RESPONSE_SUCCESS status)).
  { intros H. injection H as <- <-.
    apply (quiet_then_end CMD key _ _ _ Hq).
    apply (ends_status CMD key _ _ status); reflexivity. }
  destruct (op_exec _ _ _ _) as [subdoc_res res].
  destruct (subdoc_error_response subdoc_res) as [st|].
  - intros H. injection H as <- <-.
    apply (quiet_then_end CMD key _ _ _ Hq).
    apply (ends_status CMD key _ _ st); reflexivity.
  - intros H. injection H as <- <-.
    apply (quiet_trans _ _ _ Hq). quiet_now.
Qed.

Lemma subdoc_update_store_end (CMD : protocol_binary_command) (key : list byte)
      (w : World E) (context : SubdocCmdContext) (vbucket : Z) :
  let r := fst (subdoc_update_store E eng w context vbucket) in
  let w' := snd (subdoc_update_store E eng w context vbucket) in
  match r with
  | ENGINE_SUCCESS | ENGINE_KEY_EEXISTS => quiet (conn w) (conn w')
  | _ => command_end CMD key (conn w) (conn w')
  end.
Proof.
  unfold subdoc_update_store, engine_store.
  destruct (store eng (engine w) (out_doc context) OPERATION_REPLACE vbucket)
    as [[r new_cas] e].
  destruct r; simpl_world; try quiet_now.
  - apply (engine_failure_end CMD key (conn w) ENGINE_EWOULDBLOCK). discriminate.
  - apply (engine_failure_end CMD key (conn w) ENGINE_DISCONNECT). discriminate.
  - apply (engine_failure_end CMD key (conn w) ENGINE_TMPFAIL). discriminate.
  - apply (engine_failure_end CMD key (conn w) ENGINE_FAILED). discriminate.
  - apply (engine_failure_end CMD key (conn w) (ENGINE_OTHER code)). discriminate.
Qed.

Lemma subdoc_update_end (CMD : protocol_binary_command) (w w' : World E)
      (ret r : ENGINE_ERROR_CODE) (key : list byte) (vbucket : Z) :
  ret <> ENGINE_KEY_EEXISTS ->
  subdoc_update E eng CMD w ret key vbucket = Some (r, w') ->
  match r with
  | ENGINE_SUCCESS | ENGINE_KEY_EEXISTS => quiet (conn w) (conn w')
  | _ => command_end CMD key (conn w) (conn w')
  end.
Proof.
  intros Hret. unfold subdoc_update.
  destruct (commandContext (conn w)) as [context|]; [|discriminate].
  destruct (negb (is_mutator (traits CMD))).
  { intros H. injection H as <- <-. quiet_now. }
  assert (Hstore : forall (w1 : World E) (context1 : SubdocCmdContext),
             quiet (conn w) (conn w1) ->
             subdoc_update_store E eng w1 context1 vbucket = (r, w') ->
             match r with
             | ENGINE_SUCCESS | ENGINE_KEY_EEXISTS => quiet (conn w) (conn w')
             | _ => command_end CMD key (conn w) (conn w')
             end).
  { intros w1 context1 Hq Hst.
    pose proof (subdoc_update_store_end CMD key w1 context1 vbucket) as Hse.
    cbv zeta in Hse. rewrite Hst in Hse. cbn [fst snd] in Hse.
    destruct r; first [ apply (quiet_trans _ _ _ Hq Hse)
                      | apply (quiet_then_end CMD key _ _ _ Hq Hse) ]. }
  destruct (out_doc context =? NULL).
  2:{ intros H. injection H as H. apply (Hstore w context (quiet_refl _) H). }
  unfold subdoc_update_allocate, engine_allocate, engine_item_set_cas,
    engine_get_item_info.
  destruct (is_ENGINE_SUCCESS ret) eqn:Hs.
  - pose proof (allocate_not_eexists (engine w) key
                  (new_doc_length (newdoc (result context))) 0 0
                  PROTOCOL_BINARY_DATATYPE_JSON) as Hne.
    destruct (allocate eng (engine w) key _ 0 0 PROTOCOL_BINARY_DATATYPE_JSON)
      as [[r0 new_doc] e'].
    cbn [fst] in Hne.
    destruct r0; try contradiction; simpl_world;
      try (intros H; injection H as <- <-; simpl_world;
           first [ apply (engine_failure_end CMD key (conn w) ENGINE_EWOULDBLOCK)
                 | apply (engine_failure_end CMD key (conn w) ENGINE_DISCONNECT)
                 | apply (engine_failure_end CMD key (conn w) ENGINE_TMPFAIL)
                 | apply (engine_failure_end CMD key (conn w) ENGINE_FAILED)
                 | apply (engine_failure_end CMD key (conn w) (ENGINE_OTHER _)) ];
           discriminate).
    destruct (get_item_info eng _ new_doc) as [info|]; simpl_world.
    + match goal with
      | |- context [copy_newdoc E eng ?w0 ?p ?f] =>
          destruct (copy_newdoc_effect E eng f w0 p) as [_ Hn]
      end.
      intros H. injection H as H.
      eapply Hstore; [|exact H]. rewrite Hn. quiet_now.
    + intros H. injection H as <- <-. simpl_world.
      apply (ends_status CMD key _ _ PROTOCOL_BINARY_RESPONSE_EINTERNAL); reflexivity.
  - destruct ret; try discriminate Hs; try contradiction; simpl_world;
      intros H; injection H as <- <-; simpl_world;
      first [ apply (engine_failure_end CMD key (conn w) ENGINE_EWOULDBLOCK)
            | apply (engine_failure_end CMD key (conn w) ENGINE_DISCONNECT)
            | apply (engine_failure_end CMD key (conn w) ENGINE_TMPFAIL)
            | apply (engine_failure_end CMD key (conn w) ENGINE_FAILED)
            | apply (engine_failure_end CMD key (conn w) (ENGINE_OTHER _)) ];
      discriminate.
Qed.

Lemma subdoc_response_end (CMD : protocol_binary_command) (key : list byte)
      (w w' : World E) :
  subdoc_response E CMD (update_stats E CMD w key) = Some w' ->
  command_end CMD key (conn w) (conn w').
Proof.
  unfold subdoc_response, update_stats, add_bin_header, set_response_cas.
  assert (Hcount : forall c : Connection,
             topkeys c = topkeys (conn w) ++ [key] ->
             cmd_set c = (if is_mutator (traits CMD)
                          then cmd_set (conn w) + 1 else cmd_set (conn w)) ->
             get_hits c = (if is_mutator (traits CMD)
                           then get_hits (conn w) else get_hits (conn w) + 1) ->
             counted CMD key (conn w) c).
  { intros c H1 H2 H3. unfold counted. rewrite H1, H2, H3.
    destruct (is_mutator (traits CMD)); repeat split; lia. }
  destruct (is_mutator (traits CMD)) eqn:Hmut; simpl_world;
    (destruct (commandContext (conn w)) as [context|]; [|discriminate]);
    destruct (response_has_value (traits CMD)) eqn:Hval;
    destruct (msghdr_available (conn w)); simpl_world;
    intros H; injection H as <-; simpl_world;
    first [ eapply ends_header; simpl_world;
            [ reflexivity | reflexivity | reflexivity
            | rewrite ?length_app, ?Hval; cbn [length]; lia
            | reflexivity
            | apply Hcount; simpl_world; rewrite ?Hmut; reflexivity ]
          | apply ends_no_header; simpl_world;
            [ reflexivity | reflexivity | reflexivity | reflexivity
            | apply Hcount; simpl_world; rewrite ?Hmut; reflexivity ] ].
Qed.

Lemma resetCommandContext_quiet (w : World E) :
  quiet (conn w) (conn (resetCommandContext E eng w)).
Proof.
  unfold resetCommandContext, SubdocCmdContext_dtor, engine_release.
  destruct (commandContext (conn w)) as [ctx|]; [|apply quiet_refl].
  destruct (negb (out_doc ctx =? NULL)); quiet_now.
Qed.

Lemma subdoc_attempt_end (CMD : protocol_binary_command) (rq : subdoc_request)
      (auto_retry : bool) (ret : ENGINE_ERROR_CODE) (w : World E) (res : attempt_end E) :
  ret <> ENGINE_KEY_EEXISTS ->
  subdoc_attempt E eng snappy_uncompressed_length snappy_uncompress growDynamicBuffer
                 op_exec CMD rq auto_retry ret w = Some res ->
  match res with
  | Returned w' => command_end CMD (req_key rq) (conn w) (conn w')
  | Continue w' => quiet (conn w) (conn w')
  end.
Proof.
  intros Hret. unfold subdoc_attempt.
  destruct (subdoc_fetch E eng w ret (req_key rq) (req_vbucket rq))
    as [[b1 w1]|] eqn:Hf; [|discriminate].
  apply (subdoc_fetch_end CMD) in Hf.
  destruct b1; [|intros H; injection H as <-; exact Hf].
  destruct (subdoc_operate E eng _ _ _ _ CMD w1 _ _ _ _) as [[b2 w2]|] eqn:Ho;
    [|discriminate].
  apply (subdoc_operate_end CMD _ _ (req_key rq)) in Ho.
  destruct b2;
    [|intros H; injection H as <-;
      apply (quiet_then_end CMD _ _ _ _ Hf Ho)].
  pose proof (quiet_trans _ _ _ Hf Ho) as Hq2.
  destruct (subdoc_update E eng CMD w2 ret (req_key rq) (req_vbucket rq))
    as [[r w3]|] eqn:Hu; [|discriminate].
  apply (subdoc_update_end CMD _ _ _ _ _ _ Hret) in Hu.
  destruct r; cbn [is_ENGINE_KEY_EEXISTS is_ENGINE_SUCCESS negb];
    try (intros H; injection H as <-;
         apply (quiet_then_end CMD _ _ _ _ Hq2 Hu)).
  - destruct (subdoc_response E CMD (update_stats E CMD w3 (req_key rq)))
      as [w4|] eqn:Hr; [|discriminate].
    intros H. injection H as <-.
    apply (quiet_then_end CMD _ _ _ _ (quiet_trans _ _ _ Hq2 Hu)).
    apply subdoc_response_end. exact Hr.
  - pose proof (quiet_trans _ _ _ Hq2 Hu) as Hq3.
    destruct auto_retry; intros H; injection H as <-.
    + apply (quiet_trans _ _ _ Hq3).
      unfold engine_release.
      destruct (negb (c_item (conn w3) =? NULL)).
      * eapply quiet_trans; [|apply resetCommandContext_quiet]. quiet_now.
      * apply resetCommandContext_quiet.
    + apply (quiet_then_end CMD _ _ _ _ Hq3).
      eapply ends_status; reflexivity.
Qed.

Lemma executor_loop_end (CMD : protocol_binary_command) (rq : subdoc_request)
      (auto_retry : bool) (remaining : nat) :
  forall (attempts : Z) (ret : ENGINE_ERROR_CODE) (w w' : World E) (n : Z),
    ret <> ENGINE_KEY_EEXISTS ->
    executor_loop E eng snappy_uncompressed_length snappy_uncompress growDynamicBuffer
                  op_exec CMD rq auto_retry remaining attempts ret w = Done w' n ->
    command_end CMD (req_key rq) (conn w) (conn w').
Proof.
  induction remaining as [|remaining IH]; intros attempts ret w w' n Hret;
    cbn [executor_loop].
  - intros H. injection H as <- _. unfold subdoc_tmpfail. simpl_world.
    eapply ends_status; reflexivity.
  - destruct (subdoc_attempt E eng _ _ _ _ CMD rq auto_retry ret w) as [res|] eqn:Hatt;
      [|discriminate].
    apply (subdoc_attempt_end CMD rq auto_retry ret w res Hret) in Hatt.
    destruct res as [w1 | w1]; cbv beta iota zeta.
    + intros H. injection H as Hw _. subst w'. exact Hatt.
    + destruct (auto_retry && (attempts + 1 <? MAXIMUM_ATTEMPTS)).
      * intros H. apply (quiet_then_end CMD _ _ _ _ Hatt).
        eapply IH; [|exact H]. discriminate.
      * intros H. injection H as <- _. apply (quiet_then_end CMD _ _ _ _ Hatt).
        unfold subdoc_tmpfail. simpl_world. eapply ends_status; reflexivity.
Qed.

(** X5.  A run of [subdoc_executor] from a connection whose item and command
    context match, entered with [ewouldblock] clear and a pending status other
    than KEY_EEXISTS, and with an engine whose [allocate] never answers
    KEY_EEXISTS, returns after at least one and at most 100 passes and ends in
    exactly one of five ways: one status-only answer; no answer, the command
    being suspended ([ewouldblock] set); no answer, the connection closed; one
    response header with status 0 (and the value when the traits say so), the
    connection going to [conn_mwrite]; or no header could be added and the
    connection is closed.  It never answers twice, whatever the number of
    retries, and the statistics are counted - once, for the request's key -
    only in the last two cases. *)
Theorem subdoc_executor_one_answer (CMD : protocol_binary_command) (w : World E)
        (packet : list byte) :
  context_matches_item (conn w) ->
  aiostat (conn w) <> ENGINE_KEY_EEXISTS ->
  ewouldblock (conn w) = false ->
  exists w' attempts,
    subdoc_executor E eng snappy_uncompressed_length snappy_uncompress
                    growDynamicBuffer op_exec CMD w packet = Done w' attempts
    /\ 1 <= attempts <= MAXIMUM_ATTEMPTS
    /\ exists! e : ending,
        ends_as CMD (req_key (parse_request packet)) (conn w) (conn w') e.
Proof.
  intros Hwf Hret Hblock. unfold subdoc_executor.
  set (w0 := with_conn w (setAiostat (conn w) ENGINE_SUCCESS)).
  destruct (executor_loop E eng _ _ _ _ CMD (parse_request packet)
                          (req_cas (parse_request packet) =? 0)
                          (Z.to_nat MAXIMUM_ATTEMPTS) 0 (aiostat (conn w)) w0)
    as [w' n|] eqn:Hloop.
  - exists w', n. split; [reflexivity|]. split.
    + apply executor_loop_effect in Hloop as (Hn & _);
        [lia | lia | reflexivity | unfold MAXIMUM_ATTEMPTS; cbn; lia].
    + apply executor_loop_end in Hloop; [|exact Hret].
      assert (Hq : quiet (conn w) (conn w0)) by (subst w0; quiet_now).
      destruct (quiet_then_end CMD _ _ _ _ Hq Hloop) as [e He].
      exists e. split; [exact He|].
      intros e' He'.
      apply (ends_as_unique CMD _ _ _ e e' Hblock He He').
  - exfalso. revert Hloop. apply executor_loop_no_abort. exact Hwf.
Qed.

End Answers.

Lemma subdoc_executor_one_answer_witness :
  exists w' attempts,
    GrantingEngine.run PROTOCOL_BINARY_CMD_SUBDOC_DICT_ADD
        (world_of (engine_with (doc_info 7 Byte.x01 one_segment) (ENGINE_SUCCESS, 8)))
        (dict_add_request 0) = Done w' attempts
    /\ 1 <= attempts <= MAXIMUM_ATTEMPTS
    /\ exists! e : ending,
        ends_as (P := Mcbp.protocol) PROTOCOL_BINARY_CMD_SUBDOC_DICT_ADD
                (req_key (parse_request (dict_add_request 0)))
                idle_connection (conn w') e.
Proof.
  apply (subdoc_executor_one_answer
           (P := Mcbp.protocol) ScriptEngine.state GrantingEngine.handle
           copy_uncompressed_length copy_uncompress grow_always append_op).
  - intros e key nbytes flags exptime datatype. discriminate.
  - vm_compute. split; reflexivity.
  - discriminate.
  - reflexivity.
Defined.

(** ** Resuming a suspended mutation, and a mutation from end to end *)

Section Resumption.

Context {P : Protocol}.

Variable E : Type.
Variable eng : ENGINE_HANDLE_V1 E.
Variable snappy_uncompressed_length : list byte -> option Z.
Variable snappy_uncompress : list byte -> Z -> option (list byte).
Variable growDynamicBuffer : DynamicBuffer -> Z -> bool * DynamicBuffer.
Variable op_exec :
  Z -> list byte -> option (list byte) -> list byte -> Subdoc_Error * Subdoc_Result.

Ltac simpl_world :=
  cbn [conn calls engine with_conn called
       aiostat c_item commandContext ewouldblock c_state c_cas dynamicBuffer
       write_buf iov responses msghdr_available cmd_set get_hits topkeys
       setAiostat set_item setCommandContext setEwouldblock setState setCAS
       setDynamicBuffer set_write_buf set_iov set_responses set_stats
       write_bin_packet add_iov
       in_doc in_cas result out_doc set_result set_in_doc set_out_doc
       new_SubdocCmdContext fst snd].

(** X6.  When [subdoc_executor] is entered again for a mutation that already
    holds the fetched item, the materialised document and the allocated
    output item (a command resumed after [store] would have blocked), it asks
    the engine for one thing only: the [store] of that output item, whatever
    status is pending in [aiostat].  The document is not fetched, operated on
    or allocated a second time.  (A KEY_EEXISTS answer with a client CAS of 0
    starts the retries and is left aside.) *)
Theorem resumed_mutation_stores_only (CMD : protocol_binary_command) (w : World E)
        (packet : list byte) (ctx : SubdocCmdContext)
        (r : ENGINE_ERROR_CODE) (new_cas : Z) (e' : E) :
  is_mutator (traits CMD) = true ->
  c_item (conn w) <> NULL ->
  commandContext (conn w) = Some ctx ->
  buf (in_doc ctx) <> NULL ->
  out_doc ctx <> NULL ->
  store eng (engine w) (out_doc ctx) OPERATION_REPLACE
        (req_vbucket (parse_request packet)) = (r, new_cas, e') ->
  r <> ENGINE_KEY_EEXISTS \/ req_cas (parse_request packet) <> 0 ->
  exists w',
    subdoc_executor E eng snappy_uncompressed_length snappy_uncompress
                    growDynamicBuffer op_exec CMD w packet = Done w' 1
    /\ calls w'
       = calls w ++ [CallStore (out_doc ctx) OPERATION_REPLACE
                               (req_vbucket (parse_request packet)) r new_cas]
    /\ engine w' = e'
    /\ c_item (conn w') = c_item (conn w)
    /\ commandContext (conn w') = Some ctx
    /\ (r = ENGINE_SUCCESS -> c_cas (conn w') = new_cas).
Proof.
  intros Hmut Hitem Hctx Hbuf Hout Hstore Hretry.
  apply Z.eqb_neq in Hitem, Hbuf, Hout.
  unfold subdoc_executor.
  change (Z.to_nat MAXIMUM_ATTEMPTS) with (S 99). cbn [executor_loop].
  unfold subdoc_attempt, subdoc_fetch. simpl_world. rewrite Hitem.
  unfold subdoc_operate. simpl_world. rewrite Hctx, Hbuf.
  unfold subdoc_update. simpl_world. rewrite Hctx, Hmut, Hout. cbn [negb].
  unfold subdoc_update_store, engine_store. simpl_world. rewrite Hstore.
  destruct r; cbn [is_ENGINE_KEY_EEXISTS is_ENGINE_SUCCESS negb]; simpl_world.
  - unfold subdoc_response, update_stats, add_bin_header, set_response_cas.
    rewrite Hmut. simpl_world. rewrite Hctx.
    destruct (response_has_value (traits CMD));
      destruct (msghdr_available (conn w)); simpl_world;
      eexists; (split; [reflexivity|]); simpl_world; auto 10.
  - destruct Hretry as [Hr | Hcas]; [contradiction|].
    apply Z.eqb_neq in Hcas. rewrite Hcas.
    eexists. split; [reflexivity|]. simpl_world.
    repeat split; try reflexivity; try assumption. discriminate.
  - eexists. split; [reflexivity|]. simpl_world.
    repeat split; try reflexivity; try assumption. discriminate.
  - eexists. split; [reflexivity|]. simpl_world.
    repeat split; try reflexivity; try assumption. discriminate.
  - eexists. split; [reflexivity|]. simpl_world.
    repeat split; try reflexivity; try assumption. discriminate.
  - eexists. split; [reflexivity|]. simpl_world.
    repeat split; try reflexivity; try assumption. discriminate.
  - eexists. split; [reflexivity|]. simpl_world.
    repeat split; try reflexivity; try assumption. discriminate.
Qed.

Lemma copy_newdoc_engine (frags : list (list byte)) :
  forall (w : World E) (p : Z),
    engine (copy_newdoc E eng w p frags) = memcpy_newdoc eng (engine w) p frags.
Proof.
  induction frags as [|loc frags IH]; intros w p; cbn [copy_newdoc memcpy_newdoc];
    [reflexivity|].
  rewrite IH. reflexivity.
Qed.

(** X7.  A mutation from end to end.  On a connection between two commands,
    when the engine finds the key, the item is a JSON document in one segment
    whose CAS the client's CAS does not contradict, the JSON operation
    succeeds, and the engine grants the allocation, the item info and the
    [store]: the executor returns after one pass; it has asked the engine, in
    this order, for [get], [get_item_info] of the item, [allocate] of the sum
    of the fragment lengths with datatype JSON, [item_set_cas] of the new item
    to the CAS of the fetched item, [get_item_info] of the new item, one copy
    per fragment, and [store] with REPLACE; the connection's CAS is the one
    [store] returned, and so is the CAS of the response header. *)
Theorem mutation_success_trace (CMD : protocol_binary_command) (w : World E)
        (packet : list byte) (it new_doc : item) (e1 e2 e4 : E)
        (info new_info : item_info) (res : Subdoc_Result) (new_cas : Z) :
  let rq := parse_request packet in
  let frags := newdoc res in
  let e3 := item_set_cas eng e2 new_doc (info_cas info) in
  let base := iov_base (info_value0 new_info) in
  is_mutator (traits CMD) = true ->
  c_item (conn w) = NULL ->
  commandContext (conn w) = None ->
  aiostat (conn w) = ENGINE_SUCCESS ->
  msghdr_available (conn w) = true ->
  get eng (engine w) (req_key rq) (req_vbucket rq) = (ENGINE_SUCCESS, it, e1) ->
  get_item_info eng e1 it = Some info ->
  info_nvalue info = 1 ->
  info_datatype info = PROTOCOL_BINARY_DATATYPE_JSON ->
  req_cas rq = 0 \/ req_cas rq = info_cas info ->
  op_exec (operation_code CMD (req_flags rq)) (iov_data (info_value0 info))
          (if request_has_value (traits CMD) then Some (req_value rq) else None)
          (req_path rq)
  = (Subdoc_SUCCESS, res) ->
  allocate eng e1 (req_key rq) (total_length frags) 0 0 PROTOCOL_BINARY_DATATYPE_JSON
  = (ENGINE_SUCCESS, new_doc, e2) ->
  get_item_info eng e3 new_doc = Some new_info ->
  store eng (memcpy_newdoc eng e3 base frags) new_doc OPERATION_REPLACE (req_vbucket rq)
  = (ENGINE_SUCCESS, new_cas, e4) ->
  exists w' h,
    subdoc_executor E eng snappy_uncompressed_length snappy_uncompress
                    growDynamicBuffer op_exec CMD w packet = Done w' 1
    /\ calls w'
       = calls w
         ++ [CallGet (req_key rq) (req_vbucket rq) ENGINE_SUCCESS it;
             CallGetItemInfo it true;
             CallAllocate (req_key rq) (total_length frags) 0 0
                          PROTOCOL_BINARY_DATATYPE_JSON ENGINE_SUCCESS new_doc;
             CallItemSetCas new_doc (info_cas info);
             CallGetItemInfo new_doc true]
         ++ newdoc_copies base frags
         ++ [CallStore new_doc OPERATION_REPLACE (req_vbucket rq) ENGINE_SUCCESS new_cas]
    /\ engine w' = e4
    /\ c_cas (conn w') = new_cas
    /\ responses (conn w') = responses (conn w)
    /\ write_buf (conn w') = Some h
    /\ rsp_cas h = enc_be64 new_cas
    /\ c_state (conn w') = conn_mwrite.
Proof.
  intros rq frags e3 base Hmut Hitem Hctx Hret Hroom Hget Hinfo Hn Hd Hcas Hop
         Halloc Hnew Hstore.
  unfold subdoc_executor. fold rq. rewrite Hret.
  change (Z.to_nat MAXIMUM_ATTEMPTS) with (S 99). cbn [executor_loop].
  unfold subdoc_attempt, subdoc_fetch, engine_get. simpl_world.
  rewrite Hitem. cbn [Z.eqb NULL is_ENGINE_SUCCESS]. rewrite Hget. simpl_world.
  rewrite Hctx.
  unfold subdoc_operate. simpl_world. cbn [buf Z.eqb NULL].
  match goal with
  | |- context [get_document_for_searching E eng ?a ?b ?c ?w0 ?i ?k] =>
      pose proof (materialise_switch E eng a b c w0 i k info) as Hsw
  end.
  simpl_world. specialize (Hsw Hinfo Hn Hcas). cbv zeta in Hsw.
  rewrite Hd, byte_eqb_refl in Hsw. rewrite Hsw. clear Hsw.
  cbn [is_RESPONSE_SUCCESS negb buf_data].
  fold (operation_code CMD (req_flags rq)). rewrite Hop.
  cbn [subdoc_error_response]. simpl_world.
  unfold subdoc_update. simpl_world. rewrite Hmut. cbn [negb Z.eqb NULL].
  rewrite new_doc_length_total. cbn [newdoc]. fold frags.
  unfold subdoc_update_allocate, engine_allocate, engine_item_set_cas,
    engine_get_item_info.
  simpl_world. cbn [is_ENGINE_SUCCESS]. rewrite Halloc. simpl_world.
  fold e3. rewrite Hnew. cbn [newdoc]. fold frags. fold base.
  match goal with
  | |- context [copy_newdoc E eng ?w0 ?p ?f] =>
      destruct (copy_newdoc_effect E eng f w0 p) as [Hc Hconn];
      pose proof (copy_newdoc_engine f w0 p) as He;
      set (w2 := copy_newdoc E eng w0 p f) in *
  end.
  simpl_world. 
  unfold subdoc_update_store, engine_store. simpl_world.
  cbn [engine called with_conn] in He. rewrite He, Hstore.
  cbn [is_ENGINE_KEY_EEXISTS is_ENGINE_SUCCESS negb].
  unfold subdoc_response, update_stats, add_bin_header, set_response_cas.
  rewrite Hmut. simpl_world. rewrite Hconn. simpl_world. rewrite Hroom.
  destruct (response_has_value (traits CMD)); simpl_world;
    eexists; eexists; (split; [reflexivity|]); simpl_world; rewrite Hc;
    simpl_world; rewrite <- !app_assoc; cbn [app]; auto 10.
Qed.

End Resumption.

Import Examples MoreExamples.

Lemma resumed_mutation_stores_only_witness :
  exists w',
    run PROTOCOL_BINARY_CMD_SUBDOC_DICT_ADD suspended_world (dict_add_request 7)
    = Done w' 1
    /\ calls w' = [CallStore 2 OPERATION_REPLACE 0 ENGINE_SUCCESS 9]
    /\ c_cas (conn w') = 9.
Proof.
  destruct (resumed_mutation_stores_only
              (P := Mcbp.protocol) ScriptEngine.state ScriptEngine.handle
              copy_uncompressed_length copy_uncompress grow_always append_op
              PROTOCOL_BINARY_CMD_SUBDOC_DICT_ADD suspended_world (dict_add_request 7)
              suspended_context ENGINE_SUCCESS 9
              (snd (ScriptEngine.script_store (engine suspended_world) 2
                                              OPERATION_REPLACE 0))
              eq_refl)
    as (w' & Hrun & Hcalls & _ & _ & _ & Hcas).
  - discriminate.
  - reflexivity.
  - discriminate.
  - discriminate.
  - reflexivity.
  - left. discriminate.
  - exists w'. split; [exact Hrun|]. split; [exact Hcalls | apply Hcas; reflexivity].
Defined.

Lemma mutation_success_trace_witness :
  exists w' h,
    run PROTOCOL_BINARY_CMD_SUBDOC_DICT_ADD
        (world_of (engine_with (doc_info 7 Byte.x01 one_segment) (ENGINE_SUCCESS, 8)))
        (dict_add_request 0) = Done w' 1
    /\ count_calls is_store (calls w') = 1
    /\ c_cas (conn w') = 8
    /\ write_buf (conn w') = Some h
    /\ rsp_cas h = enc_be64 8.
Proof.
  edestruct (mutation_success_trace
               (P := Mcbp.protocol) ScriptEngine.state ScriptEngine.handle
               copy_uncompressed_length copy_uncompress grow_always append_op
               PROTOCOL_BINARY_CMD_SUBDOC_DICT_ADD
               (world_of (engine_with (doc_info 7 Byte.x01 one_segment)
                                      (ENGINE_SUCCESS, 8)))
               (dict_add_request 0))
    as (w' & h & Hrun & Hcalls & _ & Hcas & _ & Hbuf & Hrsp & _);
    [ reflexivity | reflexivity | reflexivity | reflexivity | reflexivity
    | lazy; reflexivity | lazy; reflexivity | reflexivity | reflexivity
    | left; reflexivity | reflexivity | lazy; reflexivity | lazy; reflexivity
    | lazy; reflexivity | ].
  exists w', h. split; [exact Hrun|].
  split; [rewrite Hcalls; reflexivity|].
  split; [exact Hcas|]. split; [exact Hbuf | exact Hrsp].
Defined.

(** ** Top keys *)

Module TopKeysFacts.

Import TopKeys.

Lemma key_eqb_eq (a b : list byte) : key_eqb a b = true <-> a = b.
Proof.
  unfold key_eqb. revert b.
  induction a as [|x a IH]; intros [|y b]; cbn [length combine forallb Nat.eqb andb fst snd];
    try (split; [discriminate | discriminate]); [tauto|].
  specialize (IH b).
  destruct (length a =? length b)%nat eqn:Hlen; cbn [andb] in *.
  - destruct (Byte.eqb x y) eqn:Hxy; cbn [andb].
    + apply byte_eqb_eq in Hxy. subst y. rewrite IH.
      split; [intros ->; reflexivity | intros H; injection H as ->; reflexivity].
    + apply byte_eqb_neq in Hxy. split; [discriminate | congruence].
  - split; [discriminate|]. intros H. injection H as _ ->.
    rewrite Nat.eqb_refl in Hlen. discriminate.
Qed.

Lemma key_eqb_refl (a : list byte) : key_eqb a a = true.
Proof. apply key_eqb_eq. reflexivity. Qed.

Lemma key_eqb_neq (a b : list byte) : key_eqb a b = false <-> a <> b.
Proof.
  rewrite <- key_eqb_eq. destruct (key_eqb a b); split; congruence.
Qed.

Lemma hash_at_None (h : list (list byte * topkey_item_t)) (key : list byte) :
  hash_at h key = None <-> ~ In key (map fst h).
Proof.
  induction h as [|[k it] h IH]; cbn [hash_at map fst In]; [tauto|].
  destruct (key_eqb k key) eqn:Hk.
  - apply key_eqb_eq in Hk. split; [discriminate | tauto].
  - apply key_eqb_neq in Hk. tauto.
Qed.

Lemma hash_at_Some (h : list (list byte * topkey_item_t)) (key : list byte)
      (it : topkey_item_t) :
  hash_at h key = Some it -> In key (map fst h).
Proof.
  intros H. destruct (in_dec (list_eq_dec Byte.byte_eq_dec) key (map fst h)) as [i | n];
    [exact i|].
  apply hash_at_None in n. congruence.
Qed.

Lemma hash_at_In (h : list (list byte * topkey_item_t)) (key : list byte) :
  In key (map fst h) -> exists it, hash_at h key = Some it.
Proof.
  intros H. destruct (hash_at h key) as [it|] eqn:E; [eauto|].
  apply hash_at_None in E. contradiction.
Qed.

Lemma hash_at_app_new (h : list (list byte * topkey_item_t)) (key k : list byte)
      (v : topkey_item_t) :
  hash_at (h ++ [(key, v)]) k
  = match hash_at h k with
    | Some it => Some it
    | None => if key_eqb key k then Some v else None
    end.
Proof.
  induction h as [|[k0 it] h IH]; cbn [app hash_at]; [reflexivity|].
  destruct (key_eqb k0 k); [reflexivity | exact IH].
Qed.

Lemma hash_set_keys (h : list (list byte * topkey_item_t)) (key : list byte)
      (v : topkey_item_t) :
  map fst (hash_set h key v) = map fst h.
Proof.
  induction h as [|[k it] h IH]; cbn [hash_set map fst]; [reflexivity|].
  destruct (key_eqb k key); cbn [map fst]; [reflexivity | rewrite IH; reflexivity].
Qed.

Lemma hash_set_length (h : list (list byte * topkey_item_t)) (key : list byte)
      (v : topkey_item_t) :
  zlen (hash_set h key v) = zlen h.
Proof.
  unfold zlen. rewrite <- (length_map fst (hash_set h key v)), hash_set_keys.
  rewrite length_map. reflexivity.
Qed.

Lemma hash_at_set (h : list (list byte * topkey_item_t)) (key k : list byte)
      (v : topkey_item_t) :
  hash_at (hash_set h key v) k
  = if key_eqb key k
    then match hash_at h k with Some _ => Some v | None => None end
    else hash_at h k.
Proof.
  induction h as [|[k0 it] h IH]; cbn [hash_set hash_at].
  - destruct (key_eqb key k); reflexivity.
  - destruct (key_eqb k0 key) eqn:H0; cbn [hash_at].
    + apply key_eqb_eq in H0. subst k0.
      destruct (key_eqb key k); reflexivity.
    + destruct (key_eqb k0 k) eqn:H1; [|exact IH].
      apply key_eqb_eq in H1. subst k0. apply key_eqb_neq in H0.
      replace (key_eqb key k) with false
        by (symmetry; apply key_eqb_neq; congruence).
      reflexivity.
Qed.

(** [hash.erase] of a key of the table removes one element. *)
Lemma hash_erase_keys (h : list (list byte * topkey_item_t)) (victim : list byte) :
  NoDup (map fst h) ->
  let h' := fst (hash_erase h victim) in
  NoDup (map fst h')
  /\ (forall k, In k (map fst h') <-> In k (map fst h) /\ k <> victim)
  /\ (forall k, k <> victim -> hash_at h' k = hash_at h k)
  /\ (In victim (map fst h) ->
      snd (hash_erase h victim) = 1 /\ zlen h' = zlen h - 1).
Proof.
  unfold hash_erase. cbn [fst snd].
  induction h as [|[k0 it] h IH]; intros Hnd; cbn [filter map fst In hash_at].
  - repeat split; try constructor; try tauto.
  - inversion Hnd as [|? ? Hnot Hnd']; subst. specialize (IH Hnd').
    destruct IH as (IH1 & IH2 & IH3 & IH4).
    destruct (key_eqb k0 victim) eqn:Hk; cbn [negb map fst In hash_at].
    + apply key_eqb_eq in Hk. subst k0.
      split; [exact IH1|]. split; [|split].
      * intros k. rewrite IH2. split; [tauto|]. intros [[-> | H] Hne]; tauto.
      * intros k Hne. rewrite IH3 by exact Hne.
        replace (key_eqb victim k) with false; [reflexivity|].
        symmetry. apply key_eqb_neq. congruence.
      * intros _.
        assert (Hz : filter (fun p => key_eqb (fst p) victim) h = []).
        { clear - Hnot. induction h as [|[k1 i1] h IH]; cbn [filter fst]; [reflexivity|].
          cbn [map fst In] in Hnot.
          destruct (key_eqb k1 victim) eqn:E; [apply key_eqb_eq in E; tauto|].
          apply IH. tauto. }
        assert (Hsame : filter (fun p => negb (key_eqb (fst p) victim)) h = h).
        { clear - Hnot. induction h as [|[k1 i1] h IH]; cbn [filter fst]; [reflexivity|].
          cbn [map fst In] in Hnot.
          destruct (key_eqb k1 victim) eqn:E; [apply key_eqb_eq in E; tauto|].
          cbn [negb]. f_equal. apply IH. tauto. }
        rewrite Hz, Hsame. unfold zlen. cbn [length].
        split; [reflexivity | lia].
    + apply key_eqb_neq in Hk.
      split; [|split; [|split]].
      * constructor; [|exact IH1]. rewrite IH2. tauto.
      * intros k. rewrite IH2. split; [intros [-> | H]; tauto | tauto].
      * intros k Hne. rewrite IH3 by exact Hne. reflexivity.
      * intros [He | Hin]; [congruence|]. destruct (IH4 Hin) as [E1 E2].
        unfold zlen in *. cbn [length]. split; [exact E1 | lia].
Qed.

(** [std::find] and [splice] on a list without duplicates. *)
Lemma list_remove_first_spec (l : list (list byte)) (key : list byte) :
  NoDup l ->
  In key l ->
  exists l1 l2,
    l = l1 ++ key :: l2
    /\ list_remove_first l key = Some (l1 ++ l2)
    /\ ~ In key (l1 ++ l2)
    /\ NoDup (l1 ++ l2)
    /\ (forall k, In k (l1 ++ l2) <-> In k l /\ k <> key).
Proof.
  induction l as [|k l IH]; intros Hnd Hin; [contradiction|].
  inversion Hnd as [|? ? Hnot Hnd']; subst. cbn [list_remove_first].
  destruct (key_eqb k key) eqn:Hk.
  - apply key_eqb_eq in Hk. subst k. exists [], l. cbn [app].
    split; [reflexivity|]. split; [reflexivity|]. split; [exact Hnot|].
    split; [exact Hnd'|]. intros k0. cbn [In].
    split; [intros Hk0; split; [right; exact Hk0 | congruence]|].
    intros [[-> | Hk0] Hne]; tauto.
  - apply key_eqb_neq in Hk. destruct Hin as [-> | Hin]; [congruence|].
    destruct (IH Hnd' Hin) as (l1 & l2 & -> & Hr & Hn & Hd & Hiff).
    exists (k :: l1), l2. rewrite Hr. cbn [app].
    split; [reflexivity|]. split; [reflexivity|].
    split; [intros [H | H]; [congruence | contradiction]|].
    split.
    + constructor; [|exact Hd]. intros H. apply Hiff in H. tauto.
    + intros k0. cbn [In]. rewrite Hiff. split; [intros [-> | H]; tauto | tauto].
Qed.

Lemma list_remove_first_None (l : list (list byte)) (key : list byte) :
  ~ In key l -> list_remove_first l key = None.
Proof.
  induction l as [|k l IH]; intros Hn; cbn [list_remove_first]; [reflexivity|].
  cbn [In] in Hn.
  destruct (key_eqb k key) eqn:Hk; [apply key_eqb_eq in Hk; tauto|].
  rewrite IH by tauto. reflexivity.
Qed.

Lemma same_elements_length (l l' : list (list byte)) :
  NoDup l -> NoDup l' -> (forall k, In k l <-> In k l') -> length l = length l'.
Proof.
  intros Hl Hl' Hiff. apply Nat.le_antisymm; apply NoDup_incl_length;
    try assumption; intros k Hk; apply Hiff; exact Hk.
Qed.

Lemma shard_ok_lengths (s : Shard) : shard_ok s -> zlen (list_ s) = zlen (hash s).
Proof.
  intros (Hk & Hl & Hiff & _). unfold zlen.
  rewrite (same_elements_length _ _ Hl Hk Hiff), length_map. reflexivity.
Qed.

Section ShardFacts.

Variable new_item : Z -> topkey_item_t.

(** The count of [key] goes up by one, nothing else changes. *)
Lemma count_access_spec (s : Shard) (key : list byte) (it : topkey_item_t) :
  hash_at (hash s) key = Some it ->
  ti_access_count it < INT_MAX ->
  exists s',
    count_access s key = Some (true, s')
    /\ max_keys s' = max_keys s
    /\ list_ s' = list_ s
    /\ map fst (hash s') = map fst (hash s)
    /\ zlen (hash s') = zlen (hash s)
    /\ hash_at (hash s') key
       = Some {| ti_ctime := ti_ctime it; ti_access_count := ti_access_count it + 1 |}
    /\ forall k, k <> key -> hash_at (hash s') k = hash_at (hash s) k.
Proof.
  intros Hat Hc. unfold count_access. rewrite Hat.
  replace (ti_access_count it =? INT_MAX) with false by (symmetry; apply Z.eqb_neq; lia).
  eexists. split; [reflexivity|]. cbn [max_keys list_ hash].
  rewrite hash_set_keys, hash_set_length, hash_at_set, key_eqb_refl, Hat.
  repeat split; try reflexivity.
  intros k Hk. rewrite hash_at_set.
  replace (key_eqb key k) with false by (symmetry; apply key_eqb_neq; congruence).
  reflexivity.
Qed.

Lemma shard_ok_same_keys (s s' : Shard) :
  shard_ok s ->
  max_keys s' = max_keys s -> list_ s' = list_ s ->
  map fst (hash s') = map fst (hash s) -> zlen (hash s') = zlen (hash s) ->
  shard_ok s'.
Proof.
  unfold shard_ok. intros (H1 & H2 & H3 & H4) Hm Hl Hk Hz.
  rewrite Hm, Hl, Hk, Hz. auto.
Qed.

(** What one [updateKey] does when no allocation fails. *)
Lemma Shard_updateKey_spec (s : Shard) (key : list byte) (ct : Z) :
  shard_ok s ->
  1 <= max_keys s ->
  (forall it, hash_at (hash s) key = Some it -> ti_access_count it < INT_MAX) ->
  ti_access_count (new_item ct) < INT_MAX ->
  exists s',
    Shard_updateKey new_item true true s key ct = Some (true, s')
    /\ shard_ok s'
    /\ max_keys s' = max_keys s
    /\ match hash_at (hash s) key with
       | Some it =>
           (exists l1 l2, list_ s = l1 ++ key :: l2 /\ list_ s' = key :: l1 ++ l2)
           /\ hash_at (hash s') key
              = Some {| ti_ctime := ti_ctime it;
                        ti_access_count := ti_access_count it + 1 |}
           /\ forall k, k <> key -> hash_at (hash s') k = hash_at (hash s) k
       | None =>
           hash_at (hash s') key
           = Some {| ti_ctime := ti_ctime (new_item ct);
                     ti_access_count := ti_access_count (new_item ct) + 1 |}
           /\ if zlen (hash s) <? max_keys s
              then list_ s' = key :: list_ s
                   /\ forall k, k <> key -> hash_at (hash s') k = hash_at (hash s) k
              else exists l victim,
                  list_ s = l ++ [victim]
                  /\ list_ s' = key :: l
                  /\ hash_at (hash s') victim = None
                  /\ forall k, k <> key -> k <> victim ->
                               hash_at (hash s') k = hash_at (hash s) k
       end.
Proof.
  intros Hok Hmax Hcount Hnew.
  pose proof (shard_ok_lengths s Hok) as Hlen.
  destruct Hok as (Hkeys & Hlist & Hiff & Hsize).
  unfold Shard_updateKey. cbn [negb].
  destruct (hash_at (hash s) key) as [it|] eqn:Hat.
  - (* Item already exists. *)
    assert (Hin : In key (list_ s))
      by (apply Hiff; apply (hash_at_Some _ _ _ Hat)).
    destruct (list_remove_first_spec (list_ s) key Hlist Hin)
      as (l1 & l2 & Hl & Hr & Hnot & Hnd & Hrest).
    rewrite Hr.
    destruct (count_access_spec
                {| max_keys := max_keys s; hash := hash s; list_ := key :: l1 ++ l2 |}
                key it Hat (Hcount it eq_refl))
      as (s' & Hs' & Hm & Hl' & Hk' & Hz' & Hit & Hother).
    cbn [max_keys hash list_] in *.
    exists s'. split; [exact Hs'|]. split; [|split; [exact Hm|]].
    + unfold shard_ok. rewrite Hm, Hl', Hk', Hz'.
      split; [exact Hkeys|]. split; [constructor; assumption|].
      split; [|exact Hsize].
      intros k. rewrite <- Hiff. cbn [In]. rewrite Hrest.
      destruct (list_eq_dec Byte.byte_eq_dec key k) as [-> | Hne]; [tauto|].
      split; [intros [H | H]; [congruence | tauto] | intros H; right; split; congruence].
    + split; [exists l1, l2; split; assumption|]. split; assumption.
  - (* New item was inserted. *)
    assert (Hfresh : ~ In key (map fst (hash s))) by (apply hash_at_None; exact Hat).
    set (h := hash s ++ [(key, new_item ct)]).
    assert (Hh_keys : map fst h = map fst (hash s) ++ [key])
      by (subst h; rewrite map_app; reflexivity).
    assert (Hh_nd : NoDup (map fst h)).
    { rewrite Hh_keys. apply NoDup_app; [exact Hkeys | repeat constructor; intros [] |].
      intros k Hk [<- | []]. contradiction. }
    assert (Hh_len : zlen h = zlen (hash s) + 1)
      by (subst h; rewrite zlen_app; reflexivity).
    assert (Hh_key : hash_at h key = Some (new_item ct))
      by (subst h; rewrite hash_at_app_new, Hat, key_eqb_refl; reflexivity).
    assert (Hh_other : forall k, k <> key -> hash_at h k = hash_at (hash s) k).
    { intros k Hk. subst h. rewrite hash_at_app_new.
      replace (key_eqb key k) with false by (symmetry; apply key_eqb_neq; congruence).
      destruct (hash_at (hash s) k); reflexivity. }
    rewrite Hh_len.
    destruct (zlen (hash s) <? max_keys s) eqn:Hroom.
    + apply Z.ltb_lt in Hroom.
      replace (zlen (hash s) + 1 >? max_keys s) with false
        by (symmetry; rewrite Z.gtb_ltb; apply Z.ltb_ge; lia).
      destruct (count_access_spec
                  {| max_keys := max_keys s; hash := h; list_ := key :: list_ s |}
                  key (new_item ct) Hh_key Hnew)
        as (s' & Hs' & Hm & Hl' & Hk' & Hz' & Hit & Hother).
      cbn [max_keys hash list_] in *.
      exists s'. split; [exact Hs'|]. split; [|split; [exact Hm|]].
      * unfold shard_ok. rewrite Hm, Hl', Hk', Hz', Hh_keys, Hh_len.
        split; [rewrite <- Hh_keys; exact Hh_nd|].
        split; [constructor; [rewrite Hiff; exact Hfresh | exact Hlist]|].
        split; [|lia].
        intros k. rewrite in_app_iff. cbn [In]. rewrite Hiff. tauto.
      * split; [exact Hit|]. split; [exact Hl'|].
        intros k Hk. rewrite Hother by exact Hk. apply Hh_other. exact Hk.
    + apply Z.ltb_ge in Hroom.
      replace (zlen (hash s) + 1 >? max_keys s) with true
        by (symmetry; rewrite Z.gtb_ltb; apply Z.ltb_lt; lia).
      destruct (rev (list_ s)) as [|victim rest] eqn:Hrev.
      { exfalso. apply (f_equal (@rev _)) in Hrev. rewrite rev_involutive in Hrev.
        rewrite Hrev in Hlen. cbn in Hlen. unfold zlen in *. lia. }
      assert (Hl : list_ s = rev rest ++ [victim]).
      { apply (f_equal (@rev _)) in Hrev. rewrite rev_involutive in Hrev.
        exact Hrev. }
      assert (Hv_in : In victim (map fst (hash s))).
      { apply Hiff. rewrite Hl. apply in_or_app. right. left. reflexivity. }
      assert (Hv_key : victim <> key) by (intros ->; contradiction).
      pose proof (hash_erase_keys h victim Hh_nd) as He. cbv zeta in He.
      destruct (hash_erase h victim) as [h' erased]. cbn [fst snd] in He.
      destruct He as (Hnd' & Hkeys' & Hat' & Hone).
      destruct Hone as [-> Hlen'];
        [rewrite Hh_keys; apply in_or_app; left; exact Hv_in|].
      cbn [Z.eqb Pos.eqb].
      assert (Hh'_key : hash_at h' key = Some (new_item ct))
        by (rewrite Hat' by congruence; exact Hh_key).
      destruct (count_access_spec
                  {| max_keys := max_keys s; hash := h'; list_ := key :: rev rest |}
                  key (new_item ct) Hh'_key Hnew)
        as (s' & Hs' & Hm & Hl' & Hk' & Hz' & Hit & Hother).
      cbn [max_keys hash list_] in *.
      assert (Hrest_nd : NoDup (rev rest) /\ ~ In victim (rev rest)).
      { rewrite Hl in Hlist. apply NoDup_remove in Hlist.
        rewrite app_nil_r in Hlist. tauto. }
      exists s'. split; [exact Hs'|]. split; [|split; [exact Hm|]].
      * unfold shard_ok. rewrite Hm, Hl', Hk', Hz'.
        split; [exact Hnd'|].
        split.
        { constructor; [|tauto]. intros Hk.
          apply Hfresh, Hiff. rewrite Hl. apply in_or_app. left. exact Hk. }
        split; [|lia].
        intros k. rewrite Hkeys', Hh_keys, in_app_iff. cbn [In].
        rewrite <- Hiff, Hl, in_app_iff. cbn [In].
        destruct (list_eq_dec Byte.byte_eq_dec k victim) as [-> | Hne].
        { split; [intros [H | H]; [congruence | tauto] | tauto]. }
        split; [intros [H | H]; [split; [tauto | exact Hne] | tauto]|].
        intros [[[H | [H | []]] | [H | []]] _]; try tauto; congruence.
      * split; [exact Hit|].
        exists (rev rest), victim. split; [exact Hl|]. split; [exact Hl'|].
        split.
        -- rewrite Hother by exact Hv_key. apply hash_at_None.
           rewrite Hkeys'. tauto.
        -- intros k Hk Hkv. rewrite Hother by exact Hk.
           rewrite Hat' by exact Hkv. apply Hh_other. exact Hk.
Qed.

Lemma Shard_updateKey_head (s : Shard) (key : list byte) (ct : Z) :
  shard_ok s ->
  1 <= max_keys s ->
  (forall it, hash_at (hash s) key = Some it -> ti_access_count it < INT_MAX) ->
  ti_access_count (new_item ct) < INT_MAX ->
  exists s',
    Shard_updateKey new_item true true s key ct = Some (true, s')
    /\ shard_ok s'
    /\ max_keys s' = max_keys s
    /\ hd_error (list_ s') = Some key.
Proof.
  intros Hok Hmax Hcount Hnew.
  destruct (Shard_updateKey_spec s key ct Hok Hmax Hcount Hnew)
    as (s' & Hrun & Hok' & Hm & Hcase).
  exists s'. split; [exact Hrun|]. split; [exact Hok'|]. split; [exact Hm|].
  destruct (hash_at (hash s) key) as [it|].
  - destruct Hcase as ((l1 & l2 & _ & ->) & _). reflexivity.
  - destruct Hcase as (_ & Hcase).
    destruct (zlen (hash s) <? max_keys s).
    + destruct Hcase as (-> & _). reflexivity.
    + destruct Hcase as (l & victim & _ & -> & _). reflexivity.
Qed.

(** X8.  [TopKeys::Shard::updateKey] keeps a shard in order: when table and
    list hold the same keys, each once, and at most [max_keys] of them, and
    no allocation fails, the update succeeds and leaves such a shard again -
    never more than [max_keys] keys - with the updated key at the head of the
    list. *)
Theorem Shard_updateKey_keeps_shard (s : Shard) (key : list byte) (ct : Z) :
  shard_ok s ->
  1 <= max_keys s ->
  (forall it, hash_at (hash s) key = Some it -> ti_access_count it < INT_MAX) ->
  ti_access_count (new_item ct) < INT_MAX ->
  exists s',
    Shard_updateKey new_item true true s key ct = Some (true, s')
    /\ shard_ok s'
    /\ max_keys s' = max_keys s
    /\ zlen (list_ s') <= max_keys s
    /\ hd_error (list_ s') = Some key.
Proof.
  intros Hok Hmax Hcount Hnew.
  destruct (Shard_updateKey_head s key ct Hok Hmax Hcount Hnew)
    as (s' & Hrun & Hok' & Hm & Hhd).
  exists s'. split; [exact Hrun|]. split; [exact Hok'|]. split; [exact Hm|].
  split; [|exact Hhd].
  rewrite (shard_ok_lengths s' Hok'). destruct Hok' as (_ & _ & _ & H). lia.
Qed.

(** X9.  The replacement is least-recently-used.  A key already tracked moves
    to the head of the list, the order of the others is kept, and its count
    goes up by one.  A new key enters at the head with the count of a fresh
    item plus one; when the shard is full, the key at the tail of the list -
    the least recently used - is dropped from list and table, and it alone.
    The items of all other keys are as before. *)
Theorem Shard_updateKey_lru (s : Shard) (key : list byte) (ct : Z) :
  shard_ok s ->
  1 <= max_keys s ->
  (forall it, hash_at (hash s) key = Some it -> ti_access_count it < INT_MAX) ->
  ti_access_count (new_item ct) < INT_MAX ->
  exists s',
    Shard_updateKey new_item true true s key ct = Some (true, s')
    /\ match hash_at (hash s) key with
       | Some it =>
           (exists l1 l2, list_ s = l1 ++ key :: l2 /\ list_ s' = key :: l1 ++ l2)
           /\ hash_at (hash s') key
              = Some {| ti_ctime := ti_ctime it;
                        ti_access_count := ti_access_count it + 1 |}
           /\ forall k, k <> key -> hash_at (hash s') k = hash_at (hash s) k
       | None =>
           hash_at (hash s') key
           = Some {| ti_ctime := ti_ctime (new_item ct);
                     ti_access_count := ti_access_count (new_item ct) + 1 |}
           /\ if zlen (hash s) <? max_keys s
              then list_ s' = key :: list_ s
                   /\ forall k, k <> key -> hash_at (hash s') k = hash_at (hash s) k
              else exists l victim,
                  list_ s = l ++ [victim]
                  /\ list_ s' = key :: l
                  /\ hash_at (hash s') victim = None
                  /\ forall k, k <> key -> k <> victim ->
                               hash_at (hash s') k = hash_at (hash s) k
       end.
Proof.
  intros Hok Hmax Hcount Hnew.
  destruct (Shard_updateKey_spec s key ct Hok Hmax Hcount Hnew)
    as (s' & Hrun & _ & _ & Hcase).
  exists s'. split; [exact Hrun | exact Hcase].
Qed.

(** X10.  An allocation failure in [list.push_front] is caught and answered
    [false], but it comes after the key was put into the table: the key is
    then in the table and not in the list, and the next update of that key
    finds it in the table, looks for it in the list in vain and splices the
    end iterator, which is undefined.  A failure in [hash.emplace] leaves the
    shard untouched. *)
Theorem Shard_updateKey_push_front_failure (s : Shard) (key : list byte) (ct ct' : Z) :
  shard_ok s ->
  1 <= max_keys s ->
  hash_at (hash s) key = None ->
  Shard_updateKey new_item false true s key ct = Some (false, s)
  /\ exists s1,
      Shard_updateKey new_item true false s key ct = Some (false, s1)
      /\ In key (map fst (hash s1))
      /\ ~ In key (list_ s1)
      /\ ~ shard_ok s1
      /\ forall push_ok, Shard_updateKey new_item true push_ok s1 key ct' = None.
Proof.
  intros Hok Hmax Hat. split; [reflexivity|].
  pose proof (shard_ok_lengths s Hok) as Hlen.
  destruct Hok as (Hkeys & Hlist & Hiff & Hsize).
  assert (Hfresh : ~ In key (map fst (hash s))) by (apply hash_at_None; exact Hat).
  unfold Shard_updateKey at 1. cbn [negb]. rewrite Hat.
  set (h := hash s ++ [(key, new_item ct)]).
  assert (Hh_keys : map fst h = map fst (hash s) ++ [key])
    by (subst h; rewrite map_app; reflexivity).
  assert (Hh_nd : NoDup (map fst h)).
  { rewrite Hh_keys. apply NoDup_app; [exact Hkeys | repeat constructor; intros [] |].
    intros k Hk [<- | []]. contradiction. }
  assert (Hend : forall s1 : Shard,
             In key (map fst (hash s1)) -> ~ In key (list_ s1) ->
             ~ shard_ok s1
             /\ forall push_ok, Shard_updateKey new_item true push_ok s1 key ct' = None).
  { intros s1 Hin Hnot. split.
    - intros (_ & _ & Hiff1 & _). apply Hnot, Hiff1, Hin.
    - intros push_ok. unfold Shard_updateKey. cbn [negb].
      destruct (hash_at_In _ _ Hin) as [it ->].
      rewrite (list_remove_first_None _ _ Hnot). reflexivity. }
  destruct (zlen h >? max_keys s) eqn:Hfull.
  - destruct (rev (list_ s)) as [|victim rest] eqn:Hrev.
    { exfalso. apply (f_equal (@rev _)) in Hrev. rewrite rev_involutive in Hrev.
      rewrite Hrev in Hlen. subst h. rewrite zlen_app in Hfull.
      rewrite Z.gtb_ltb in Hfull. apply Z.ltb_lt in Hfull.
      cbn in Hlen, Hfull. unfold zlen in *. cbn [length] in *. lia. }
    assert (Hl : list_ s = rev rest ++ [victim]).
    { apply (f_equal (@rev _)) in Hrev. rewrite rev_involutive in Hrev. exact Hrev. }
    assert (Hv_in : In victim (map fst (hash s))).
    { apply Hiff. rewrite Hl. apply in_or_app. right. left. reflexivity. }
    assert (Hv_key : victim <> key) by (intros ->; contradiction).
    pose proof (hash_erase_keys h victim Hh_nd) as He. cbv zeta in He.
    destruct (hash_erase h victim) as [h' erased]. cbn [fst snd] in He.
    destruct He as (_ & Hkeys' & _ & Hone).
    destruct Hone as [-> _];
      [rewrite Hh_keys; apply in_or_app; left; exact Hv_in|].
    cbn [Z.eqb Pos.eqb].
    eexists. split; [reflexivity|]. cbn [hash list_].
    assert (Hin : In key (map fst h')).
    { apply Hkeys'. split; [|congruence]. rewrite Hh_keys.
      apply in_or_app. right. left. reflexivity. }
    assert (Hnot : ~ In key (rev rest)).
    { intros Hk. apply Hfresh, Hiff. rewrite Hl. apply in_or_app. left. exact Hk. }
    split; [exact Hin|]. split; [exact Hnot|].
    apply (Hend {| max_keys := max_keys s; hash := h'; list_ := rev rest |} Hin Hnot).
  - eexists. split; [reflexivity|]. cbn [hash list_].
    assert (Hin : In key (map fst h)).
    { rewrite Hh_keys. apply in_or_app. right. left. reflexivity. }
    assert (Hnot : ~ In key (list_ s)) by (rewrite Hiff; exact Hfresh).
    split; [exact Hin|]. split; [exact Hnot|].
    apply (Hend {| max_keys := max_keys s; hash := h; list_ := list_ s |} Hin Hnot).
Qed.

(** X11.  [accept_visitor] on a shard in order never meets a key without an
    item ([hash.at] does not throw): it hands the visitor every key of the
    list once, most recently used first, each with its item of the table. *)
Theorem Shard_accept_visitor_visits_all {C : Type}
        (visitor_func : list byte -> topkey_item_t -> C -> C) (s : Shard) (ctx : C) :
  shard_ok s ->
  exists items : list topkey_item_t,
    Forall2 (fun key it => hash_at (hash s) key = Some it) (list_ s) items
    /\ Shard_accept_visitor visitor_func s ctx
       = Some (fold_left (fun c p => visitor_func (fst p) (snd p) c)
                         (combine (list_ s) items) ctx).
Proof.
  intros (_ & _ & Hiff & _). unfold Shard_accept_visitor.
  assert (Hall : forall key, In key (list_ s) -> In key (map fst (hash s)))
    by (intros key; apply Hiff).
  clear Hiff. revert ctx.
  induction (list_ s) as [|key l IH]; intros ctx; cbn [visit_keys].
  - exists []. split; [constructor | reflexivity].
  - destruct (hash_at_In (hash s) key (Hall key (or_introl eq_refl))) as [it Hit].
    rewrite Hit.
    destruct (IH (fun k Hk => Hall k (or_intror Hk)) (visitor_func key it ctx))
      as (items & Hf & Hv).
    exists (it :: items). split; [constructor; assumption|].
    rewrite Hv. reflexivity.
Qed.

End ShardFacts.

Lemma set_shard_length (shards : list Shard) (i : nat) (s : Shard) :
  length (set_shard shards i s) = length shards.
Proof.
  revert i. induction shards as [|s0 shards IH]; intros [|i]; cbn [set_shard length];
    try reflexivity. rewrite IH. reflexivity.
Qed.

Lemma nth_error_set_shard (shards : list Shard) (i j : nat) (s : Shard) :
  (i < length shards)%nat ->
  nth_error (set_shard shards i s) j
  = if (i =? j)%nat then Some s else nth_error shards j.
Proof.
  revert i j. induction shards as [|s0 shards IH]; intros i j Hi; cbn [length] in Hi;
    [lia|].
  destruct i as [|i], j as [|j]; cbn [set_shard nth_error Nat.eqb]; try reflexivity.
  apply IH. lia.
Qed.

Section Sharding.

Variable new_item : Z -> topkey_item_t.
Variable hash_fn : list byte -> Z.

Lemma getShard_range (key : list byte) : (getShard hash_fn key < NUM_SHARDS)%nat.
Proof.
  unfold getShard, NUM_SHARDS. change 7 with (Z.ones 3).
  rewrite Z.land_ones by lia.
  pose proof (Z.mod_pos_bound (hash_fn key) (2 ^ 3) ltac:(lia)) as H.
  change (2 ^ 3) with 8 in *. lia.
Qed.

Lemma updated_list_incl (s s' : Shard) (key : list byte) (ct : Z) :
  shard_ok s ->
  Shard_updateKey new_item true true s key ct = Some (true, s') ->
  forall k, In k (list_ s') -> k = key \/ In k (list_ s).
Proof.
  intros (_ & Hlist & Hiff & _). unfold Shard_updateKey, count_access.
  cbv zeta. cbn [negb].
  destruct (hash_at (hash s) key) as [it|] eqn:Hat.
  - destruct (list_remove_first (list_ s) key) as [l|] eqn:Hr; [|discriminate].
    cbn [hash]. rewrite Hat.
    destruct (_ =? INT_MAX); [discriminate|].
    intros H. injection H as <-. cbn [list_].
    assert (Hin : In key (list_ s)) by (apply Hiff; apply (hash_at_Some _ _ _ Hat)).
    destruct (list_remove_first_spec (list_ s) key Hlist Hin)
      as (l1 & l2 & _ & Hr' & _ & _ & Hrest).
    rewrite Hr in Hr'. injection Hr' as ->.
    intros k [<- | Hk]; [left; reflexivity | right; apply Hrest; exact Hk].
  - destruct (_ >? _).
    + destruct (rev (list_ s)) as [|victim rest] eqn:Hrev; [discriminate|].
      destruct (hash_erase _ victim) as [h' erased].
      destruct (erased =? 1); [|discriminate].
      cbn [hash]. destruct (hash_at h' key) as [it|]; [|discriminate].
      destruct (_ =? INT_MAX); [discriminate|].
      intros H. injection H as <-. cbn [list_].
      apply (f_equal (@rev _)) in Hrev. rewrite rev_involutive in Hrev.
      cbn [rev] in Hrev. rewrite Hrev.
      intros k [<- | Hk]; [left; reflexivity | right; apply in_or_app; left; exact Hk].
    + cbn [hash]. destruct (hash_at (hash s ++ _) key) as [it|]; [|intros H; discriminate H].
      destruct (_ =? INT_MAX); [discriminate|].
      intros H. injection H as <-. cbn [list_].
      intros k [<- | Hk]; [left; reflexivity | right; exact Hk].
Qed.

(** X12.  [TopKeys::updateKey] works on one shard only, the one [getShard]
    names, and keeps every key in the shard of its hash: the eight shards stay
    in order, the other seven are untouched, and the key is then at the head
    of its shard.  An empty key fails the assertion. *)
Theorem TopKeys_updateKey_one_shard (shards : list Shard) (key : list byte)
        (operation_time : Z) :
  shards_ok hash_fn shards ->
  key <> [] ->
  (forall s it, nth_error shards (getShard hash_fn key) = Some s ->
                hash_at (hash s) key = Some it -> ti_access_count it < INT_MAX) ->
  ti_access_count (new_item operation_time) < INT_MAX ->
  TopKeys_updateKey new_item hash_fn true true shards [] operation_time = None
  /\ exists shards' s',
      TopKeys_updateKey new_item hash_fn true true shards key operation_time
      = Some shards'
      /\ shards_ok hash_fn shards'
      /\ nth_error shards' (getShard hash_fn key) = Some s'
      /\ hd_error (list_ s') = Some key
      /\ forall i, i <> getShard hash_fn key ->
                   nth_error shards' i = nth_error shards i.
Proof.
  intros [Hlen Hall] Hkey Hcount Hnew. split; [reflexivity|].
  unfold TopKeys_updateKey.
  assert (Hpos : (zlen key >? 0) = true).
  { rewrite Z.gtb_ltb. apply Z.ltb_lt. destruct key; [congruence|].
    unfold zlen. cbn [length]. lia. }
  rewrite Hpos. cbn [negb].
  pose proof (getShard_range key) as Hrange. rewrite <- Hlen in Hrange.
  destruct (nth_error shards (getShard hash_fn key)) as [s|] eqn:Hs;
    [|apply nth_error_None in Hs; lia].
  destruct (Hall _ _ Hs) as (Hok & Hmax & Hkeys).
  destruct (Shard_updateKey_head new_item s key operation_time Hok Hmax
                                 (fun it => Hcount s it eq_refl) Hnew)
    as (s' & Hrun & Hok' & Hm & Hhd).
  rewrite Hrun. exists (set_shard shards (getShard hash_fn key) s'), s'.
  split; [reflexivity|].
  split; [|split; [|split; [exact Hhd|]]].
  - split; [rewrite set_shard_length; exact Hlen|].
    intros i si. rewrite nth_error_set_shard by exact Hrange.
    destruct (getShard hash_fn key =? i)%nat eqn:Hi; [|apply Hall].
    apply Nat.eqb_eq in Hi. intros H. injection H as <-.
    split; [exact Hok'|]. split; [lia|].
    intros k Hk.
    destruct (updated_list_incl s s' key operation_time Hok Hrun k Hk) as [-> | Hin];
      [exact Hi|].
    rewrite <- Hi. apply Hkeys. exact Hin.
  - rewrite nth_error_set_shard, Nat.eqb_refl by exact Hrange. reflexivity.
  - intros i Hi. rewrite nth_error_set_shard by exact Hrange.
    replace (getShard hash_fn key =? i)%nat with false
      by (symmetry; apply Nat.eqb_neq; congruence).
    reflexivity.
Qed.

End Sharding.

Import TopKeysExamples.

Lemma Shard_updateKey_keeps_shard_witness :
  exists s',
    Shard_updateKey fresh_item true true two_keys Examples.path_0 30 = Some (true, s')
    /\ shard_ok s'
    /\ max_keys s' = 2
    /\ zlen (list_ s') <= 2
    /\ hd_error (list_ s') = Some Examples.path_0.
Proof.
  apply (Shard_updateKey_keeps_shard fresh_item two_keys Examples.path_0 30).
  - unfold shard_ok, two_keys. cbn [hash list_ max_keys map fst].
    split; [constructor; [intros [H | []]; discriminate
                         | constructor; [intros [] | constructor]]|].
    split; [constructor; [intros [H | []]; discriminate
                         | constructor; [intros [] | constructor]]|].
    split; [cbn; tauto | vm_compute; discriminate].
  - vm_compute. discriminate.
  - intros it H. vm_compute in H. discriminate.
  - vm_compute. reflexivity.
Defined.

Lemma Shard_updateKey_lru_witness :
  exists s',
    Shard_updateKey fresh_item true true two_keys Examples.path_0 30 = Some (true, s')
    /\ list_ s' = [Examples.path_0; Examples.key_k]
    /\ hash_at (hash s') Examples.path_a = None.
Proof.
  destruct (Shard_updateKey_lru fresh_item two_keys Examples.path_0 30)
    as (s' & Hrun & Hcase).
  - unfold shard_ok, two_keys. cbn [hash list_ max_keys map fst].
    split; [constructor; [intros [H | []]; discriminate
                         | constructor; [intros [] | constructor]]|].
    split; [constructor; [intros [H | []]; discriminate
                         | constructor; [intros [] | constructor]]|].
    split; [cbn; tauto | vm_compute; discriminate].
  - vm_compute. discriminate.
  - intros it H. vm_compute in H. discriminate.
  - vm_compute. reflexivity.
  - exists s'. split; [exact Hrun|].
    change (hash_at (hash two_keys) Examples.path_0) with (@None topkey_item_t) in Hcase.
    change (zlen (hash two_keys) <? max_keys two_keys) with false in Hcase.
    destruct Hcase as (_ & l & victim & Hl & Hl' & Hgone & _).
    change (list_ two_keys) with ([Examples.key_k] ++ [Examples.path_a]) in Hl.
    apply app_inj_tail in Hl as [<- <-].
    split; [exact Hl' | exact Hgone].
Defined.

Lemma Shard_updateKey_push_front_failure_witness :
  exists s1,
    Shard_updateKey fresh_item true false empty_shard Examples.key_k 5 = Some (false, s1)
    /\ Shard_updateKey fresh_item true true s1 Examples.key_k 6 = None.
Proof.
  destruct (Shard_updateKey_push_front_failure fresh_item empty_shard Examples.key_k 5 6)
    as (_ & s1 & Hrun & _ & _ & _ & Hnext).
  - unfold shard_ok, empty_shard. cbn [hash list_ max_keys map].
    split; [constructor|]. split; [constructor|].
    split; [tauto | vm_compute; discriminate].
  - vm_compute. discriminate.
  - reflexivity.
  - exists s1. split; [exact Hrun | apply Hnext].
Defined.

Lemma Shard_accept_visitor_visits_all_witness :
  exists items : list topkey_item_t,
    Forall2 (fun key it => hash_at (hash two_keys) key = Some it) (list_ two_keys) items
    /\ Shard_accept_visitor (fun key _ seen => seen ++ [key]) two_keys []
       = Some (fold_left (fun c p => c ++ [fst p]) (combine (list_ two_keys) items) []).
Proof.
  apply (Shard_accept_visitor_visits_all
           (fun (key : list byte) (_ : topkey_item_t) (seen : list (list byte)) =>
              seen ++ [key]) two_keys []).
  unfold shard_ok, two_keys. cbn [hash list_ max_keys map fst].
  split; [constructor; [intros [H | []]; discriminate
                       | constructor; [intros [] | constructor]]|].
  split; [constructor; [intros [H | []]; discriminate
                       | constructor; [intros [] | constructor]]|].
  split; [cbn; tauto | vm_compute; discriminate].
Defined.

Lemma TopKeys_updateKey_one_shard_witness :
  exists shards' s',
    TopKeys_updateKey fresh_item length_hash true true (TopKeys_new 2) Examples.key_k 5
    = Some shards'
    /\ nth_error shards' 1 = Some s'
    /\ hd_error (list_ s') = Some Examples.key_k
    /\ nth_error shards' 0 = nth_error (TopKeys_new 2) 0.
Proof.
  destruct (TopKeys_updateKey_one_shard fresh_item length_hash (TopKeys_new 2)
                                        Examples.key_k 5)
    as (_ & shards' & s' & Hrun & _ & Hs' & Hhd & Hother).
  - split; [reflexivity|].
    intros i s Hs.
    assert (Hempty : s = {| max_keys := 2; hash := []; list_ := [] |}).
    { do 8 (destruct i as [|i]; [injection Hs as <-; reflexivity|]).
      destruct i; discriminate Hs. }
    subst s. cbn [hash list_ max_keys map]. split.
    + split; [constructor|]. split; [constructor|].
      split; [tauto | vm_compute; discriminate].
    + split; [lia | intros key []].
  - discriminate.
  - intros s it Hs Hat. vm_compute in Hs. injection Hs as <-. discriminate Hat.
  - vm_compute. reflexivity.
  - exists shards', s'. split; [exact Hrun|]. split; [exact Hs'|].
    split; [exact Hhd | apply Hother; discriminate].
Defined.

End TopKeysFacts.
